(** * UNO rules engine: a shallow embedding of the game logic and of the
      turn-state machine of [App.tsx], with the properties of the
      specification stated and proved over it.

    Source files embedded here:
    - [types.ts]               the data model (cards, players, match state);
    - [constants.ts]           [COLORS];
    - [services/gameLogic.ts]  [createDeck], [shuffleDeck], [isValidMove],
                               [canPlayAny], [calculateHandScore];
    - [App.tsx]                [setupRound], [nextTurn], [drawCards],
                               [handleCardEffect], [handleHumanPlay],
                               [finalizeMove], the draw handlers, the colour
                               picker, the listeners of the peer connection
                               and the callbacks that register them,
                               [startMatch], [startLocalMatch],
                               [startMultiplayerMatch], [nextRound] and the
                               clicks that the screens offer;
    - [services/geminiService.ts]  the fallback strategy of [getAiMove];
    - [services/statsService.ts]   [updateStats]. *)

From Stdlib Require Import ZArith QArith Qround Sorted.
From stdpp Require Import base relations list strings pretty gmap.

Local Open Scope Z_scope.
Local Open Scope list_scope.

(** ** Data model ([types.ts]) *)

Inductive CardColor := RED | BLUE | GREEN | YELLOW | BLACK.

Inductive CardType := NUMBER | SKIP | REVERSE | DRAW_TWO | WILD | WILD_DRAW_FOUR.

(** [value?: number] is an optional field: [None] is JavaScript's
    [undefined]. *)
Record Card := mkCard {
  card_id : string;
  color : CardColor;
  type : CardType;
  value : option Z
}.

Record Player := mkPlayer {
  player_id : string;
  name : string;
  isAi : bool;
  hand : list Card;
  score : Z;
  avatar : string
}.

Inductive GameStatus := LOBBY | PLAYING | ROUND_OVER | GAME_OVER.

Record GameState := mkGameState {
  deck : list Card;
  discardPile : list Card;
  players : list Player;
  currentPlayerIndex : Z;
  direction : Z;
  status : GameStatus;
  winner : option string;
  currentColor : CardColor;
  aiComment : string;
  isAiThinking : bool;
  roundWinner : option string;
  pointsWon : option Z
}.

Inductive WittinessLevel := Friendly | Sassy | Ruthless.

Inductive GameMode := AI | ONLINE | LOCAL.

Inductive MultiplayerMessage :=
  | STATE_UPDATE (payload : GameState)
  | PLAYER_MOVE (cardId : string) (wildColor : option CardColor)
  | PLAYER_DRAW
  | RESTART_REQUEST.

#[global] Instance CardColor_eq_dec : EqDecision CardColor.
Proof. solve_decision. Defined.
#[global] Instance CardType_eq_dec : EqDecision CardType.
Proof. solve_decision. Defined.
#[global] Instance Card_eq_dec : EqDecision Card.
Proof. solve_decision. Defined.
#[global] Instance GameStatus_eq_dec : EqDecision GameStatus.
Proof. solve_decision. Defined.
#[global] Instance GameMode_eq_dec : EqDecision GameMode.
Proof. solve_decision. Defined.
#[global] Instance WittinessLevel_eq_dec : EqDecision WittinessLevel.
Proof. solve_decision. Defined.

(** [constants.ts] *)
Definition COLORS : list CardColor := [RED; BLUE; GREEN; YELLOW].

(** ** The random source

    [Math.random()] returns a number in the half-open interval [0, 1).
    A value of the source is a rational together with the boolean check
    of that range; the source itself is the sequence of the values that
    the successive calls return.  Products and floors are taken on the
    exact rational. *)

Record Unit01 := mkUnit01 {
  u01 : Q;
  u01_range : Qle_bool 0 u01 && negb (Qle_bool 1 u01) = true
}.

Definition RandomSource := nat -> Unit01.

Definition Math_random (r : RandomSource) : Q * RandomSource :=
  (u01 (r O), fun n => r (S n)).

(** [Math.floor(Math.random() * n)] *)
Definition randomBelow (n : nat) (r : RandomSource) : nat * RandomSource :=
  let '(q, r') := Math_random r in
  (Z.to_nat (Qfloor (q * inject_Z (Z.of_nat n))), r').

(** ** Deck builder ([services/gameLogic.ts]) *)

(** [[newDeck[i], newDeck[j]] = [newDeck[j], newDeck[i]]].  Both reads
    happen before both writes.  The shuffle only calls it with
    [j <= i < length newDeck] (lemma [randomBelow_lt]), so the branch for
    a missing element is never taken there. *)
Definition swap (newDeck : list Card) (i j : nat) : list Card :=
  match newDeck !! j, newDeck !! i with
  | Some cj, Some ci => <[j := ci]> (<[i := cj]> newDeck)
  | _, _ => newDeck
  end.

(** The loop [for (let i = newDeck.length - 1; i > 0; i--)]; the argument
    [i] is the loop counter. *)
Fixpoint shuffleLoop (i : nat) (newDeck : list Card) (r : RandomSource)
  : list Card * RandomSource :=
  match i with
  | O => (newDeck, r)
  | S i' =>
      let '(j, r') := randomBelow (i + 1) r in
      shuffleLoop i' (swap newDeck i j) r'
  end.

Definition shuffleDeck (deck : list Card) (r : RandomSource)
  : list Card * RandomSource :=
  shuffleLoop (length deck - 1)%nat deck r.

(** The closure [addCard] of [createDeck] works on the local array [deck]
    and the local counter [idCounter]; both are threaded explicitly. *)
Definition addCard (st : list Card * nat) (c : CardColor) (t : CardType)
  (v : option Z) : list Card * nat :=
  let '(deck, idCounter) := st in
  (deck ++ [mkCard ("card-" +:+ pretty idCounter) c t v], S idCounter).

Definition addColor (st : list Card * nat) (c : CardColor) : list Card * nat :=
  let st := addCard st c NUMBER (Some 0) in
  let st :=
    foldl (fun st i =>
             let st := addCard st c NUMBER (Some (Z.of_nat i)) in
             addCard st c NUMBER (Some (Z.of_nat i)))
          st (seq 1 9) in
  foldl (fun st _ =>
           let st := addCard st c SKIP None in
           let st := addCard st c REVERSE None in
           addCard st c DRAW_TWO None)
        st (seq 0 2).

(** The array built by [createDeck] before it is shuffled. *)
Definition unshuffledDeck : list Card :=
  let st := foldl addColor ([], O) COLORS in
  let st :=
    foldl (fun st _ =>
             let st := addCard st BLACK WILD None in
             addCard st BLACK WILD_DRAW_FOUR None)
          st (seq 0 4) in
  fst st.

Definition createDeck (r : RandomSource) : list Card * RandomSource :=
  shuffleDeck unshuffledDeck r.

(** ** Move validator *)

Definition isValidMove (card topCard : Card) (currentColor : CardColor) : bool :=
  if decide (color card = BLACK) then true
  else if decide (color card = currentColor) then true
  else if decide (type card = type topCard) then
    if decide (type card = NUMBER) then bool_decide (value card = value topCard)
    else true
  else false.

Definition canPlayAny (hand : list Card) (topCard : Card)
  (currentColor : CardColor) : bool :=
  existsb (fun card => isValidMove card topCard currentColor) hand.

(** ** Scoring engine *)

(** [card.value || 0]: [undefined] and [0] both give [0]. *)
Definition valueOrZero (v : option Z) : Z :=
  match v with
  | Some n => n
  | None => 0
  end.

Definition scoreStep (total : Z) (card : Card) : Z :=
  if decide (type card = NUMBER) then total + valueOrZero (value card)
  else if decide (type card = SKIP \/ type card = REVERSE \/ type card = DRAW_TWO)
       then total + 20
  else if decide (type card = WILD \/ type card = WILD_DRAW_FOUR)
       then total + 50
  else total.

Definition calculateHandScore (hand : list Card) : Z :=
  foldl scoreStep 0 hand.

(** ** JavaScript array helpers *)

(** [arr[i]] for an integer [i]: [None] ([undefined]) outside the array. *)
Definition nthZ {A} (arr : list A) (i : Z) : option A :=
  if decide (0 <= i) then arr !! Z.to_nat i else None.

(** [arr.findIndex(p)]: the first index whose element satisfies [p],
    [-1] when there is none. *)
Fixpoint findIndex {A} (p : A -> bool) (arr : list A) : Z :=
  match arr with
  | [] => -1
  | x :: rest =>
      if p x then 0
      else let k := findIndex p rest in
           if decide (k = -1) then -1 else k + 1
  end.

(** [arr.splice(start, 1)] as it changes [arr].  A negative [start]
    counts from the end, a [start] beyond the end removes nothing. *)
Definition spliceStart (len : nat) (start : Z) : nat :=
  if decide (start < 0) then Z.to_nat (Z.max (Z.of_nat len + start) 0)
  else Z.to_nat (Z.min start (Z.of_nat len)).

Definition spliceOne {A} (arr : list A) (start : Z) : list A :=
  delete (spliceStart (length arr) start) arr.

(** ** Record updates ([{ ...state, field: v }]) *)

Definition with_hand (p : Player) (h : list Card) : Player :=
  mkPlayer (player_id p) (name p) (isAi p) h (score p) (avatar p).

Definition with_score (p : Player) (s : Z) : Player :=
  mkPlayer (player_id p) (name p) (isAi p) (hand p) s (avatar p).

Definition with_deck (s : GameState) (d : list Card) : GameState :=
  mkGameState d (discardPile s) (players s) (currentPlayerIndex s)
    (direction s) (status s) (winner s) (currentColor s) (aiComment s)
    (isAiThinking s) (roundWinner s) (pointsWon s).

Definition with_discardPile (s : GameState) (d : list Card) : GameState :=
  mkGameState (deck s) d (players s) (currentPlayerIndex s)
    (direction s) (status s) (winner s) (currentColor s) (aiComment s)
    (isAiThinking s) (roundWinner s) (pointsWon s).

Definition with_players (s : GameState) (ps : list Player) : GameState :=
  mkGameState (deck s) (discardPile s) ps (currentPlayerIndex s)
    (direction s) (status s) (winner s) (currentColor s) (aiComment s)
    (isAiThinking s) (roundWinner s) (pointsWon s).

Definition with_currentPlayerIndex (s : GameState) (i : Z) : GameState :=
  mkGameState (deck s) (discardPile s) (players s) i
    (direction s) (status s) (winner s) (currentColor s) (aiComment s)
    (isAiThinking s) (roundWinner s) (pointsWon s).

Definition with_direction (s : GameState) (d : Z) : GameState :=
  mkGameState (deck s) (discardPile s) (players s) (currentPlayerIndex s)
    d (status s) (winner s) (currentColor s) (aiComment s)
    (isAiThinking s) (roundWinner s) (pointsWon s).

Definition with_status (s : GameState) (st : GameStatus) : GameState :=
  mkGameState (deck s) (discardPile s) (players s) (currentPlayerIndex s)
    (direction s) st (winner s) (currentColor s) (aiComment s)
    (isAiThinking s) (roundWinner s) (pointsWon s).

Definition with_winner (s : GameState) (w : option string) : GameState :=
  mkGameState (deck s) (discardPile s) (players s) (currentPlayerIndex s)
    (direction s) (status s) w (currentColor s) (aiComment s)
    (isAiThinking s) (roundWinner s) (pointsWon s).

Definition with_currentColor (s : GameState) (c : CardColor) : GameState :=
  mkGameState (deck s) (discardPile s) (players s) (currentPlayerIndex s)
    (direction s) (status s) (winner s) c (aiComment s)
    (isAiThinking s) (roundWinner s) (pointsWon s).

Definition with_aiComment (s : GameState) (c : string) : GameState :=
  mkGameState (deck s) (discardPile s) (players s) (currentPlayerIndex s)
    (direction s) (status s) (winner s) (currentColor s) c
    (isAiThinking s) (roundWinner s) (pointsWon s).

Definition with_isAiThinking (s : GameState) (b : bool) : GameState :=
  mkGameState (deck s) (discardPile s) (players s) (currentPlayerIndex s)
    (direction s) (status s) (winner s) (currentColor s) (aiComment s)
    b (roundWinner s) (pointsWon s).

Definition with_roundWinner (s : GameState) (w : option string) : GameState :=
  mkGameState (deck s) (discardPile s) (players s) (currentPlayerIndex s)
    (direction s) (status s) (winner s) (currentColor s) (aiComment s)
    (isAiThinking s) w (pointsWon s).

Definition with_pointsWon (s : GameState) (p : option Z) : GameState :=
  mkGameState (deck s) (discardPile s) (players s) (currentPlayerIndex s)
    (direction s) (status s) (winner s) (currentColor s) (aiComment s)
    (isAiThinking s) (roundWinner s) p.

(** ** The component state and the handler monad

    The handlers of [App] are closures over the component's state
    ([useState] cells and [useRef] boxes).  [App] below collects the cells
    the game logic reads or writes; a handler is a function from the
    state its closure sees to its result and the state it leaves, or to
    [None] when it has no result: a [TypeError] escapes it (a property
    read on [undefined]) or a loop does not end.  A handler is run to
    completion before the next one starts, so one handler never reads a
    cell it has already written.

    Cells that only drive animations ([specialEffect], [effectKey],
    [unoBurst], [aiEmoji], [hasSaidUno]) and the wall-clock
    [matchStartTime] are not part of the model: no handler below reads
    them.  [connected] is the test
    [connRef.current && connectionStatus === 'CONNECTED'];
    [sent] is the log of the messages handed to [conn.send], oldest
    first; [statsUpdates] is the log of the calls to [updateStats]
    (win flag and cards played by the human). *)

Record App := mkApp {
  gameMode : GameMode;
  isHost : bool;
  targetScore : Z;
  wittinessLevel : WittinessLevel;
  connected : bool;
  gameState : GameState;
  pendingWildCard : option Card;
  showLocalIntermission : bool;
  humanMoves : list Card;
  statsUpdates : list (bool * list Card);
  sent : list MultiplayerMessage;
  random : RandomSource
}.

Definition with_gameState (app : App) (s : GameState) : App :=
  mkApp (gameMode app) (isHost app) (targetScore app) (wittinessLevel app)
    (connected app) s (pendingWildCard app) (showLocalIntermission app)
    (humanMoves app) (statsUpdates app) (sent app) (random app).

Definition with_pendingWildCard (app : App) (c : option Card) : App :=
  mkApp (gameMode app) (isHost app) (targetScore app) (wittinessLevel app)
    (connected app) (gameState app) c (showLocalIntermission app)
    (humanMoves app) (statsUpdates app) (sent app) (random app).

Definition with_showLocalIntermission (app : App) (b : bool) : App :=
  mkApp (gameMode app) (isHost app) (targetScore app) (wittinessLevel app)
    (connected app) (gameState app) (pendingWildCard app) b
    (humanMoves app) (statsUpdates app) (sent app) (random app).

Definition with_humanMoves (app : App) (l : list Card) : App :=
  mkApp (gameMode app) (isHost app) (targetScore app) (wittinessLevel app)
    (connected app) (gameState app) (pendingWildCard app)
    (showLocalIntermission app) l (statsUpdates app) (sent app) (random app).

Definition with_statsUpdates (app : App) (l : list (bool * list Card)) : App :=
  mkApp (gameMode app) (isHost app) (targetScore app) (wittinessLevel app)
    (connected app) (gameState app) (pendingWildCard app)
    (showLocalIntermission app) (humanMoves app) l (sent app) (random app).

Definition with_sent (app : App) (l : list MultiplayerMessage) : App :=
  mkApp (gameMode app) (isHost app) (targetScore app) (wittinessLevel app)
    (connected app) (gameState app) (pendingWildCard app)
    (showLocalIntermission app) (humanMoves app) (statsUpdates app) l
    (random app).

Definition with_random (app : App) (r : RandomSource) : App :=
  mkApp (gameMode app) (isHost app) (targetScore app) (wittinessLevel app)
    (connected app) (gameState app) (pendingWildCard app)
    (showLocalIntermission app) (humanMoves app) (statsUpdates app)
    (sent app) r.

Definition Handler (A : Type) : Type := App -> option (A * App).

#[global] Instance Handler_ret : MRet Handler :=
  fun A x app => Some (x, app).

#[global] Instance Handler_bind : MBind Handler :=
  fun A B k m app =>
    match m app with
    | Some (x, app') => k x app'
    | None => None
    end.

(** A [TypeError] is thrown. *)
Definition throw {A} : Handler A := fun _ => None.

(** Read a cell. *)
Definition ask {A} (f : App -> A) : Handler A := fun app => Some (f app, app).

(** Write cells. *)
Definition modify (f : App -> App) : Handler unit := fun app => Some (tt, f app).

(** Dereference a possibly [undefined] value. *)
Definition defined {A} (o : option A) : Handler A :=
  match o with
  | Some x => mret x
  | None => throw
  end.

Definition setGameState (s : GameState) : Handler unit :=
  modify (fun app => with_gameState app s).

Definition setPendingWildCard (c : option Card) : Handler unit :=
  modify (fun app => with_pendingWildCard app c).

Definition setShowLocalIntermission (b : bool) : Handler unit :=
  modify (fun app => with_showLocalIntermission app b).

(** [humanMovesRef.current.push(card)] *)
Definition pushHumanMove (c : Card) : Handler unit :=
  modify (fun app => with_humanMoves app (humanMoves app ++ [c])).

(** [updateStats(gameStats, isWin, matchDuration, humanMovesRef.current)]
    followed by [setGameStats] and [saveStats]. *)
Definition reportStats (isWin : bool) : Handler unit :=
  modify (fun app =>
            with_statsUpdates app (statsUpdates app ++ [(isWin, humanMoves app)])).

Definition sendMultiplayerMessage (msg : MultiplayerMessage) : Handler unit :=
  modify (fun app =>
            if connected app then with_sent app (sent app ++ [msg]) else app).

(** Run a computation that draws from the random source. *)
Definition withRandom {A} (f : RandomSource -> A * RandomSource) : Handler A :=
  fun app => Some ((f (random app)).1, with_random app (f (random app)).2).

(** [if (c) m] *)
Definition when_ (c : bool) (m : Handler unit) : Handler unit :=
  if c then m else mret tt.

(** ** Commentary ([App.tsx], top of the file) *)

(** The string values of the enums, as template literals print them. *)
Definition colorName (c : CardColor) : string :=
  match c with
  | RED => "RED" | BLUE => "BLUE" | GREEN => "GREEN"
  | YELLOW => "YELLOW" | BLACK => "BLACK"
  end.

Definition typeName (t : CardType) : string :=
  match t with
  | NUMBER => "NUMBER" | SKIP => "SKIP" | REVERSE => "REVERSE"
  | DRAW_TWO => "DRAW_TWO" | WILD => "WILD"
  | WILD_DRAW_FOUR => "WILD_DRAW_FOUR"
  end.

(** [arr[Math.floor(Math.random() * arr.length)]] *)
Definition getRandom (arr : list string) : Handler (option string) :=
  j ← withRandom (randomBelow (length arr));
  mret (arr !! j).

(** The table [REACTIONS] of [getAiReactionToHumanMove]; the types without
    an entry have the empty list. *)
Definition moveReactions (w : WittinessLevel) (t : CardType) : list string :=
  match w, t with
  | Friendly, WILD_DRAW_FOUR =>
      ["Oh wow, +4? That's harsh!";
       "Ouch! Four whole cards?";
       "I guess I needed those... maybe?";
       "Well played! +4 is a strong move.";
       "Four cards! My hand is getting heavy!";
       "Wow, you really got me with that +4!"]
  | Friendly, DRAW_TWO =>
      ["Two more for me? Thanks...";
       "Aww, I was doing so well before this +2.";
       "Okay, okay, I'll take two.";
       "Two cards isn't so bad, I suppose.";
       "Just two? I can handle that!"]
  | Friendly, SKIP =>
      ["My turn? No? Okay."; "Skipping me again?"; "I'll just wait here.";
       "Go ahead, take my turn!"]
  | Friendly, REVERSE =>
      ["Right back at you?"; "Reversing..."; "Changing direction!";
       "Back to you!"]
  | Sassy, WILD_DRAW_FOUR =>
      ["Rude. Just rude. +4?";
       "Do you feel powerful now with your +4?";
       "+4? Are you compensating for something?";
       "I'm filing a complaint. Four cards is excessive.";
       "Wow, desperate move. Need a handicap?";
       "Four cards? You must be really scared of me."]
  | Sassy, DRAW_TWO =>
      ["Generous of you, giving me 2.";
       "I didn't ask for these two, but thanks.";
       "Keep them coming, I'll still win with +2.";
       "Two cards? Is that the best you can do?";
       "Oh no, two cards. Whatever shall I do? (Sarcasm)"]
  | Sassy, SKIP =>
      ["Afraid of my move?"; "Silence is golden, I guess.";
       "You can't skip the inevitable."; "Skip me? Brave."]
  | Sassy, REVERSE =>
      ["No u."; "Uno Reverse card in real life?"; "Dizzzy yet?";
       "Right back at ya."]
  | Ruthless, WILD_DRAW_FOUR =>
      ["This +4 changes nothing.";
       "A desperate move. Four cards won't save you.";
       "More cards mean more options to crush you.";
       "Cheap trick. +4 is for the weak.";
       "You think burying me in cards will work?";
       "Four cards. Four more ways to beat you."]
  | Ruthless, DRAW_TWO =>
      ["Is that all you got? +2?";
       "Pathetic. Two cards are nothing.";
       "I'll win with these two as well.";
       "You're just delaying your defeat by giving me cards.";
       "Two cards? Hardly a setback."]
  | Ruthless, SKIP =>
      ["Delaying your defeat."; "Coward."; "I don't need turns to win.";
       "Skip me, I'm still calculating your demise."]
  | Ruthless, REVERSE =>
      ["Pointless."; "You're just prolonging the game.";
       "Reverse all you want, I win.";
       "Logic dictates I will still crush you."]
  | _, _ => []
  end.

(** The parameter [aiHandSize] only feeds the unused local [isBigHand]. *)
Definition getAiReactionToHumanMove (card : Card) (w : WittinessLevel)
  (aiHandSize : Z) : Handler (option string) :=
  if decide (type card = WILD_DRAW_FOUR) then getRandom (moveReactions w WILD_DRAW_FOUR)
  else if decide (type card = DRAW_TWO) then getRandom (moveReactions w DRAW_TWO)
  else if decide (type card = SKIP) then getRandom (moveReactions w SKIP)
  else if decide (type card = REVERSE) then getRandom (moveReactions w REVERSE)
  else mret None.

Definition getAiReactionToHumanDraw (w : WittinessLevel) : Handler (option string) :=
  getRandom
    match w with
    | Friendly => ["Looking for something good?"; "No matching cards?";
                   "Take your time!"; "Hope you find it!"]
    | Sassy => ["Deck tasting good?"; "Fishing for a miracle?";
                "The card isn't there, trust me."; "Keep digging."]
    | Ruthless => ["Draw your entire deck."; "Nothing helpful?"; "Give up.";
                   "You're stalling."]
    end.

Definition getAiReactionToLuckyDraw (w : WittinessLevel) : Handler (option string) :=
  getRandom
    match w with
    | Friendly => ["Ooh, lucky me! I can play this."; "Found one!";
                   "Saved by the deck!"; "Just what I needed."]
    | Sassy => ["Did you think I was stuck? Cute."; "The deck favors the bold.";
                "I create my own luck."; "Not so fast."]
    | Ruthless => ["You cannot stop fate."; "The cards obey me."; "Calculated.";
                   "I always find a way."]
    end.

Definition getAiReactionToPass (w : WittinessLevel) : Handler (option string) :=
  getRandom
    match w with
    | Friendly => ["I'll have to pass."; "Go ahead, your turn.";
                   "Nothing this time."]
    | Sassy => ["I'm just biding my time."; "You can go... for now.";
                "Skip me, I dare you."]
    | Ruthless => ["Temporary setback."; "Enjoy your turn while you can.";
                   "I'm waiting."]
    end.

(** A reaction is stored in [aiComment]; the tables are never empty, so
    the index is always inside them and the string is defined. *)
Definition commentOf (o : option string) : string :=
  match o with
  | Some s => s
  | None => "undefined"
  end.

(** ** Turn engine and effect resolver ([App.tsx]) *)

(** [Array.prototype.sort] with the comparator
    [() => Math.random() - 0.5].  ECMAScript leaves the sequence of
    comparisons to the engine, so the engine's sort is an interface: it
    consumes random numbers and, whatever the comparator answers, returns
    the elements it was given in some order. *)
Class ArraySort := {
  sortRandomly : list Card -> RandomSource -> list Card * RandomSource;
  sortRandomly_perm : forall l r, (sortRandomly l r).1 ≡ₚ l
}.

Section Engine.
Context `{ArraySort}.

Definition nextTurn (current : GameState) : Handler GameState :=
  let len := Z.of_nat (length (players current)) in
  let nextIndex := currentPlayerIndex current + direction current in
  let nextIndex := if decide (nextIndex >= len) then 0 else nextIndex in
  let nextIndex := if decide (nextIndex < 0) then len - 1 else nextIndex in
  mode ← ask gameMode;
  when_ (bool_decide (mode = LOCAL)) (setShowLocalIntermission true);;
  mret (with_currentPlayerIndex current nextIndex).

(** The reshuffle of [drawCards]: entered when the deck is short.  With
    more than one card on the pile [pop()] returns the top card; the rest
    is sorted in place by the random comparator and appended to the
    deck. *)
Definition reshuffle (deck discardPile : list Card)
  : Handler (list Card * list Card) :=
  if decide (1 < length discardPile)%nat then
    top ← defined (last discardPile);
    recycled ← withRandom (sortRandomly (removelast discardPile));
    mret (deck ++ recycled, [top])
  else mret (deck, discardPile).

Definition drawCards (playerIndex count : Z) (state : GameState)
  : Handler GameState :=
  let deck0 := deck state in
  let players0 := players state in
  let discardPile0 := discardPile state in
  '(deck1, discardPile1) ←
    (if decide (Z.of_nat (length deck0) < count)
     then reshuffle deck0 discardPile0
     else mret (deck0, discardPile0));
  let cardsToDraw := Z.min count (Z.of_nat (length deck1)) in
  '(deck2, players2) ←
    (if decide (cardsToDraw > 0) then
       let drawn := take (Z.to_nat cardsToDraw) deck1 in
       let rest := drop (Z.to_nat cardsToDraw) deck1 in
       p ← defined (nthZ players0 playerIndex);
       mret (rest,
             <[Z.to_nat playerIndex := with_hand p (hand p ++ drawn)]> players0)
     else mret (deck1, players0));
  mret (with_discardPile (with_players (with_deck state deck2) players2)
          discardPile1).

(** The index computed in the [DRAW_TWO] and [WILD_DRAW_FOUR] cases. *)
Definition victimOf (s : GameState) : Z :=
  let len := Z.of_nat (length (players s)) in
  let victimIndex := currentPlayerIndex s + direction s in
  let victimIndex := if decide (victimIndex >= len) then 0 else victimIndex in
  if decide (victimIndex < 0) then len - 1 else victimIndex.

Definition handleCardEffect (card : Card) (state : GameState)
  : Handler GameState :=
  let newState :=
    if decide (color card <> BLACK) then with_currentColor state (color card)
    else state in
  match type card with
  | SKIP => nextTurn newState
  | REVERSE =>
      if decide (length (players newState) = 2%nat) then nextTurn newState
      else mret (with_direction newState (direction newState * -1))
  | DRAW_TWO =>
      newState ← drawCards (victimOf newState) 2 newState;
      nextTurn newState
  | WILD_DRAW_FOUR =>
      newState ← drawCards (victimOf newState) 4 newState;
      nextTurn newState
  | _ => mret newState
  end.

(** [arr.filter((_, i) => keep i)] *)
Fixpoint filterByIndex {A} (keep : Z -> bool) (i : Z) (arr : list A) : list A :=
  match arr with
  | [] => []
  | x :: rest =>
      if keep i then x :: filterByIndex keep (i + 1) rest
      else filterByIndex keep (i + 1) rest
  end.

(** [players.filter((_, i) => i !== playerIndex)
            .reduce((sum, p) => sum + calculateHandScore(p.hand), 0)] *)
Definition opponentPointsOf (ps : list Player) (playerIndex : Z) : Z :=
  foldl (fun sum p => sum + calculateHandScore (hand p)) 0
    (filterByIndex (fun i => bool_decide (i <> playerIndex)) 0 ps).

(** [isValidMove(card, topCard, currentColor)] where [topCard] was read
    from a pile that may be empty: the function only touches [topCard]
    after both colour tests have failed. *)
Definition isValidMoveAt (card : Card) (topCard : option Card)
  (currentColor : CardColor) : Handler bool :=
  match topCard with
  | Some t => mret (isValidMove card t currentColor)
  | None =>
      if decide (color card = BLACK) then mret true
      else if decide (color card = currentColor) then mret true
      else throw
  end.

(** The commentary branch of [finalizeMove] ("Reaction Logic"). *)
Definition moveComment (mode : GameMode) (card : Card) (player : Player)
  (playerIndex : Z) (newState : GameState) : Handler GameState :=
  if bool_decide (mode = AI) && negb (isAi player) then
    ai ← defined (nthZ (players newState) 1);
    w ← ask wittinessLevel;
    reaction ← getAiReactionToHumanMove card w (Z.of_nat (length (hand ai)));
    mret match reaction with
         | Some s => if decide (s = "") then newState else with_aiComment newState s
         | None => newState
         end
  else if bool_decide (mode = ONLINE) then
    mret (with_aiComment newState
            ("Player " +:+ (if decide (playerIndex = 0) then "1" else "2")
             +:+ " played " +:+ colorName (color card) +:+ " "
             +:+ typeName (type card)))
  else if bool_decide (mode = LOCAL) then
    mret (with_aiComment newState
            (name player +:+ " played " +:+ colorName (color card) +:+ " "
             +:+ typeName (type card)))
  else mret newState.

(** The branch of [finalizeMove] taken when the hand is empty after the
    play ("Win / Round Over Logic").  [player] is the object stored at
    [playerIndex] of [newState.players], so [player.score += ...] shows
    in [newState]. *)
Definition roundWon (mode : GameMode) (host : bool) (player : Player)
  (playerIndex : Z) (newState : GameState) : Handler unit :=
  let opponentPoints := opponentPointsOf (players newState) playerIndex in
  let player := with_score player (score player + opponentPoints) in
  let newState :=
    with_players newState (<[Z.to_nat playerIndex := player]> (players newState)) in
  target ← ask targetScore;
  let isMatchOver := bool_decide (score player >= target) in
  let newState := with_roundWinner newState (Some (name player)) in
  let newState := with_pointsWon newState (Some opponentPoints) in
  newState ←
    (if isMatchOver then
       let newState := with_status newState GAME_OVER in
       let newState := with_winner newState (Some (name player)) in
       let newState := with_aiComment newState "Game Over!" in
       when_ (bool_decide (mode = AI)) (reportStats (negb (isAi player)));;
       mret newState
     else
       let newState := with_status newState ROUND_OVER in
       mret (with_aiComment newState "Round Over!"));
  setGameState newState;;
  when_ (bool_decide (mode = ONLINE) && host)
    (sendMultiplayerMessage (STATE_UPDATE newState)).

Definition finalizeMove (card : Card) (index : Z)
  (chosenWildColor : option CardColor) (stateOverride : option GameState)
  : Handler unit :=
  mode ← ask gameMode;
  host ← ask isHost;
  if bool_decide (mode = ONLINE) && negb host then
    sendMultiplayerMessage (PLAYER_MOVE (card_id card) chosenWildColor)
  else
    gs ← ask gameState;
    let currentState := default gs stateOverride in
    let newState :=
      with_discardPile currentState (discardPile currentState ++ [card]) in
    let playerIndex := currentPlayerIndex newState in
    player ← defined (nthZ (players newState) playerIndex);
    let player := with_hand player (spliceOne (hand player) index) in
    let newState :=
      with_players newState (<[Z.to_nat playerIndex := player]> (players newState)) in
    let newState :=
      match chosenWildColor with
      | Some c =>
          if decide (color card = BLACK) then with_currentColor newState c
          else newState
      | None => newState
      end in
    when_ (negb (isAi player)) (pushHumanMove card);;
    newState ← moveComment mode card player playerIndex newState;
    if decide (length (hand player) = 0%nat) then
      roundWon mode host player playerIndex newState
    else
      newState ← handleCardEffect card newState;
      newState ← nextTurn newState;
      setGameState newState;;
      setPendingWildCard None;;
      when_ (bool_decide (mode = ONLINE) && host)
        (sendMultiplayerMessage (STATE_UPDATE newState)).

(** ** Human interaction *)

(** The "Logic Gate: Is it my turn?" of [handleHumanPlay] and
    [handleHumanDraw]. *)
Definition isMyTurn (app : App) : bool :=
  let cur := currentPlayerIndex (gameState app) in
  (bool_decide (gameMode app = AI) && bool_decide (cur = 0))
  || (bool_decide (gameMode app = ONLINE) && isHost app && bool_decide (cur = 0))
  || (bool_decide (gameMode app = ONLINE) && negb (isHost app) && bool_decide (cur = 1))
  || bool_decide (gameMode app = LOCAL).

Definition handleHumanPlay (card : Card) (index : Z) : Handler unit :=
  gs ← ask gameState;
  if negb (bool_decide (status gs = PLAYING)) then mret tt
  else
    myTurn ← ask isMyTurn;
    if negb myTurn then mret tt
    else
      let topCard := last (discardPile gs) in
      valid ← isValidMoveAt card topCard (currentColor gs);
      if negb valid then mret tt
      else if decide (color card = BLACK) then setPendingWildCard (Some card)
      else finalizeMove card index None None.

Definition handleHumanDraw : Handler unit :=
  gs ← ask gameState;
  if negb (bool_decide (status gs = PLAYING)) then mret tt
  else
    myTurn ← ask isMyTurn;
    if negb myTurn then mret tt
    else
      mode ← ask gameMode;
      host ← ask isHost;
      if bool_decide (mode = ONLINE) && negb host then
        sendMultiplayerMessage PLAYER_DRAW
      else
        newState ← drawCards (currentPlayerIndex gs) 1 gs;
        newState ←
          (if bool_decide (mode = AI) then
             w ← ask wittinessLevel;
             reaction ← getAiReactionToHumanDraw w;
             mret (with_aiComment newState (commentOf reaction))
           else
             p ← defined (nthZ (players gs) (currentPlayerIndex gs));
             mret (with_aiComment newState (name p +:+ " drew a card.")));
        newState ← nextTurn newState;
        setGameState newState;;
        when_ (bool_decide (mode = ONLINE) && host)
          (sendMultiplayerMessage (STATE_UPDATE newState)).

(** Called by the host when it receives [PLAYER_DRAW]. *)
Definition handleMultiplayerDraw (playerIndex : Z) : Handler unit :=
  gs ← ask gameState;
  newState ← drawCards playerIndex 1 gs;
  let newState :=
    with_aiComment newState
      ("Player " +:+ pretty (playerIndex + 1) +:+ " drew a card.") in
  newState ← nextTurn newState;
  setGameState newState;;
  sendMultiplayerMessage (STATE_UPDATE newState).

Definition handleColorPick (c : CardColor) : Handler unit :=
  pending ← ask pendingWildCard;
  match pending with
  | None => mret tt
  | Some pendingCard =>
      mode ← ask gameMode;
      host ← ask isHost;
      gs ← ask gameState;
      let myIndex :=
        if bool_decide (mode = ONLINE) && negb host then 1
        else if bool_decide (mode = LOCAL) then currentPlayerIndex gs
        else 0 in
      me ← defined (nthZ (players gs) myIndex);
      let index :=
        findIndex (fun c => bool_decide (card_id c = card_id pendingCard)) (hand me) in
      if decide (index = -1) then setPendingWildCard None
      else finalizeMove pendingCard index (Some c) None
  end.

(** ** Computer opponent: the local draw step *)

(** [COLORS.reduce((best, current) => count(current) > count(best) ? current
    : best, COLORS[0])] over the cards of [hand]. *)
Definition mostHeldColor (hand : list Card) : CardColor :=
  let count c := length (filter (fun x => color x = c) hand) in
  foldl (fun best current =>
           if decide (count best < count current)%nat then current else best)
        RED COLORS.

Definition handleAiDraw : Handler unit :=
  gs ← ask gameState;
  stateWithDraw ← drawCards (currentPlayerIndex gs) 1 gs;
  player ← defined (nthZ (players stateWithDraw) (currentPlayerIndex gs));
  let drawnCardIndex := Z.of_nat (length (hand player)) - 1 in
  drawnCard ← defined (nthZ (hand player) drawnCardIndex);
  let topCard := last (discardPile stateWithDraw) in
  valid ← isValidMoveAt drawnCard topCard (currentColor stateWithDraw);
  w ← ask wittinessLevel;
  if (valid : bool) then
    reaction ← getAiReactionToLuckyDraw w;
    let stateWithDraw := with_aiComment stateWithDraw (commentOf reaction) in
    let wildColor :=
      if decide (color drawnCard = BLACK) then Some (mostHeldColor (hand player))
      else None in
    finalizeMove drawnCard drawnCardIndex wildColor (Some stateWithDraw)
  else
    reaction ← getAiReactionToPass w;
    let stateWithDraw := with_aiComment stateWithDraw (commentOf reaction) in
    finalState ← nextTurn stateWithDraw;
    setGameState finalState.

End Engine.

(** ** Round setup *)

(** The loop
    [while (startCard.type === WILD_DRAW_FOUR) { deck.push(startCard);
    startCard = deck.shift()! }].  [fuel] bounds the number of iterations;
    [None] stands for a loop that does not end within it. *)
Fixpoint pickStartCard (fuel : nat) (startCard : Card) (deck : list Card)
  : option (Card * list Card) :=
  if decide (type startCard = WILD_DRAW_FOUR) then
    match fuel with
    | O => None
    | S fuel' =>
        match deck ++ [startCard] with
        | next :: deck' => pickStartCard fuel' next deck'
        | [] => None
        end
    end
  else Some (startCard, deck).

(** [playersConfig.map(p => ({ ...p, hand: deck.splice(0, 7) }))]: every
    call of [splice] shortens the one array [deck]. *)
Fixpoint deal (playersConfig : list Player) (deck : list Card)
  : list Player * list Card :=
  match playersConfig with
  | [] => ([], deck)
  | p :: rest =>
      let '(rest', deck') := deal rest (drop 7 deck) in
      (with_hand p (take 7 deck) :: rest', deck')
  end.

(** The part shared, line for line, by [setupRound] and
    [startMultiplayerMatch]: build the deck, flip the start card, deal.
    [deck.shift()!] on an empty deck gives [undefined], whose [type]
    cannot be read. *)
Definition openRound (playersConfig : list Player)
  : Handler (list Card * list Card * list Player * CardColor) :=
  deck ← withRandom createDeck;
  match deck with
  | [] => throw
  | first :: deck =>
      '(startCard, deck) ← defined (pickStartCard (length deck) first deck);
      let discardPile := [startCard] in
      let '(players, deck) := deal playersConfig deck in
      let initialColor :=
        if decide (color startCard = BLACK) then RED else color startCard in
      mret (deck, discardPile, players, initialColor)
  end.

Definition setupRound (playersConfig : list Player) (startPlayerIndex : Z)
  : Handler unit :=
  '(deck, discardPile, players, initialColor) ← openRound playersConfig;
  w ← ask wittinessLevel;
  setGameState
    (mkGameState deck discardPile players startPlayerIndex 1 PLAYING None
       initialColor
       (if decide (w = Friendly) then "Good luck! Have fun!"
        else "New round, new luck.")
       false None (Some 0)).

(** [startMultiplayerMatch] evaluates both avatar strings, each with its
    own random seed, before it looks at the players. *)
Definition startMultiplayerMatch (resetScores : bool) : Handler unit :=
  host ← ask isHost;
  if negb host then mret tt
  else
    hostSeed ← withRandom (randomBelow 100);
    clientSeed ← withRandom (randomBelow 100);
    let hostAvatar :=
      "https://api.dicebear.com/9.x/avataaars/svg?seed=Host"
      +:+ pretty hostSeed +:+ "&backgroundColor=b6e3f4" in
    let clientAvatar :=
      "https://api.dicebear.com/9.x/avataaars/svg?seed=Client"
      +:+ pretty clientSeed +:+ "&backgroundColor=ffd5dc" in
    gs ← ask gameState;
    let players0 :=
      if resetScores || bool_decide (length (players gs) = 0%nat) then
        [mkPlayer "host" "Host (You)" false [] 0 hostAvatar;
         mkPlayer "client" "Opponent" false [] 0 clientAvatar]
      else map (fun p => with_hand p []) (players gs) in
    '(deck, discardPile, players, initialColor) ← openRound players0;
    let newState :=
      mkGameState deck discardPile players 0 1 PLAYING None initialColor
        "Online Match Started!" false None (Some 0) in
    setGameState newState;;
    sendMultiplayerMessage (STATE_UPDATE newState).

(** ** Synchronization layer: the ['data'] listener of
    [setupConnectionListeners]

    The listener is put on a connection once and stays there.  It is a
    closure of the render in which [setupConnectionListeners] was
    created: the [isHost] and the [gameState] it reads, and the
    [finalizeMove], [handleMultiplayerDraw] and [startMultiplayerMatch]
    it calls, are those of that render, whatever the component holds when
    a message arrives.  Only [setGameState] is the same in every render.
    A [Render] is what the listener has captured; the three functions
    are kept as they come, since a function of an old render computes
    from the state of that render. *)
Record Render := mkRender {
  captured_isHost : bool;
  captured_gameState : GameState;
  captured_finalizeMove : Card -> Z -> option CardColor -> Handler unit;
  captured_handleMultiplayerDraw : Z -> Handler unit;
  captured_startMultiplayerMatch : bool -> Handler unit
}.

Definition onData (render : Render) (msg : MultiplayerMessage) : Handler unit :=
  match msg with
  | STATE_UPDATE payload => setGameState payload
  | PLAYER_MOVE cardId wildColor =>
      if captured_isHost render then
        player ← defined (nthZ (players (captured_gameState render)) 1);
        let cardIndex :=
          findIndex (fun c => bool_decide (card_id c = cardId)) (hand player) in
        if decide (cardIndex <> -1) then
          card ← defined (nthZ (hand player) cardIndex);
          captured_finalizeMove render card cardIndex wildColor
        else mret tt
      else mret tt
  | PLAYER_DRAW =>
      if captured_isHost render
      then captured_handleMultiplayerDraw render 1
      else mret tt
  | RESTART_REQUEST =>
      if captured_isHost render
      then captured_startMultiplayerMatch render false
      else mret tt
  end.

(** ** Where a listener comes from ([initializePeer], [connectToPeer])

    [isHost] starts as [false] and is written in two places only: the
    ['connection'] callback of the [Peer] and the ['open'] callback of an
    outgoing connection.  Either callback is a closure of the render in
    which its function ran, and puts the listener of that render on the
    connection.  A [Lobby] holds the [isHost] cell and [peerRef.current],
    a [Peer] being known by the render that created it. *)
Record Lobby := mkLobby {
  lobby_isHost : bool;
  peerRef : option Render
}.

(** The component as it mounts. *)
Definition mountedLobby : Lobby := mkLobby false None.

(** A render shows the cell as it is. *)
Definition rendersLobby (render : Render) (l : Lobby) : Prop :=
  captured_isHost render = lobby_isHost l.

(** [initializePeer()] of [render]: the guard, then
    [peerRef.current = peer]. *)
Definition initializePeer (render : Render) (l : Lobby) : Lobby :=
  match peerRef l with
  | Some _ => l
  | None => mkLobby (lobby_isHost l) (Some render)
  end.

(** The ['connection'] callback of the [Peer]: [setIsHost(true)] and
    [setupConnectionListeners(conn)] of the render that created the
    [Peer].  The result is the listener now on the connection and the
    cells afterwards; without a [Peer] nothing calls back. *)
Definition onConnection (l : Lobby)
  : option ((MultiplayerMessage -> Handler unit) * Lobby) :=
  match peerRef l with
  | Some render => Some (onData render, mkLobby true (peerRef l))
  | None => None
  end.

(** [connectToPeer()] of [render] and the ['open'] callback of its
    connection: [setIsHost(false)] and [setupConnectionListeners(conn)]
    of [render]. *)
Definition onOpen (render : Render) (l : Lobby)
  : option ((MultiplayerMessage -> Handler unit) * Lobby) :=
  match peerRef l with
  | Some _ => Some (onData render, mkLobby false (peerRef l))
  | None => None
  end.

(** What can happen to the two cells: a click on the button that creates
    the [Peer], in a render of the cells; an incoming connection; the
    opening of an outgoing connection, whose render is that of the click
    on the join button and may be older than the cells. *)
Definition lobbyStep (l l' : Lobby) : Prop :=
  (exists render, rendersLobby render l /\ l' = initializePeer render l) \/
  (exists listener, onConnection l = Some (listener, l')) \/
  (exists render listener, onOpen render l = Some (listener, l')).

Section Session.
Context `{ArraySort}.

(** ** Plays and draws as steps of the match

    A play is [finalizeMove] of the card found at [index] of the hand of
    the player whose turn it is, which is what [handleHumanPlay] passes
    on from the rendered hand once its turn gate is passed.  A call of
    [finalizeMove] with a card looked up in another hand, as
    [handleColorPick] can make, is not a play in this sense.  A draw is
    one of the draw handlers, or [drawCards] itself for any player and
    count. *)
Inductive Action :=
  | Play (index : Z) (chosenWildColor : option CardColor)
  | HumanDraw
  | MultiplayerDraw (playerIndex : Z)
  | AiDraw
  | Draw (playerIndex count : Z).

Definition perform (a : Action) : Handler unit :=
  match a with
  | Play index chosenWildColor =>
      gs ← ask gameState;
      player ← defined (nthZ (players gs) (currentPlayerIndex gs));
      card ← defined (nthZ (hand player) index);
      finalizeMove card index chosenWildColor None
  | HumanDraw => handleHumanDraw
  | MultiplayerDraw playerIndex => handleMultiplayerDraw playerIndex
  | AiDraw => handleAiDraw
  | Draw playerIndex count =>
      gs ← ask gameState;
      newState ← drawCards playerIndex count gs;
      setGameState newState
  end.

Definition step (app app' : App) : Prop :=
  exists a, perform a app = Some (tt, app').

(** A sequence of actions, one after the other. *)
Fixpoint performAll (l : list Action) : Handler unit :=
  match l with
  | [] => mret tt
  | a :: rest => perform a;; performAll rest
  end.

End Session.

(** ** Starting a match and the next round ([App.tsx]) *)

Definition with_gameMode (app : App) (m : GameMode) : App :=
  mkApp m (isHost app) (targetScore app) (wittinessLevel app)
    (connected app) (gameState app) (pendingWildCard app)
    (showLocalIntermission app) (humanMoves app) (statsUpdates app)
    (sent app) (random app).

Definition with_connected (app : App) (b : bool) : App :=
  mkApp (gameMode app) (isHost app) (targetScore app) (wittinessLevel app)
    b (gameState app) (pendingWildCard app)
    (showLocalIntermission app) (humanMoves app) (statsUpdates app)
    (sent app) (random app).

(** [{ ...p, hand: [] }] *)
Definition clearHand (p : Player) : Player := with_hand p [].

Definition startMatch : Handler unit :=
  modify (fun app => with_gameMode app AI);;
  modify (fun app => with_humanMoves app []);;
  seed ← withRandom (randomBelow 1000);
  let humanAvatar :=
    "https://api.dicebear.com/9.x/avataaars/svg?seed="
    +:+ pretty seed +:+ "&backgroundColor=b6e3f4" in
  let aiAvatar :=
    "https://api.dicebear.com/9.x/bottts/svg?seed=Gemini2.5&backgroundColor=c0aede" in
  setupRound
    [mkPlayer "p1" "You" false [] 0 humanAvatar;
     mkPlayer "p2" "Gemini" true [] 0 aiAvatar]
    0.

Definition startLocalMatch : Handler unit :=
  modify (fun app => with_gameMode app LOCAL);;
  modify (fun app => with_humanMoves app []);;
  seed1 ← withRandom (randomBelow 100);
  seed2 ← withRandom (randomBelow 100);
  let p1Avatar :=
    "https://api.dicebear.com/9.x/avataaars/svg?seed=Player1"
    +:+ pretty seed1 +:+ "&backgroundColor=b6e3f4" in
  let p2Avatar :=
    "https://api.dicebear.com/9.x/avataaars/svg?seed=Player2"
    +:+ pretty seed2 +:+ "&backgroundColor=ffd5dc" in
  setupRound
    [mkPlayer "p1" "Player 1" false [] 0 p1Avatar;
     mkPlayer "p2" "Player 2" false [] 0 p2Avatar]
    0;;
  setShowLocalIntermission false.

(** [%] is JavaScript's remainder, which takes the sign of the dividend:
    [Z.rem]. *)
Definition nextRound : Handler unit :=
  mode ← ask gameMode;
  if bool_decide (mode = ONLINE) then
    host ← ask isHost;
    if (host : bool) then startMultiplayerMatch false
    else sendMultiplayerMessage RESTART_REQUEST
  else
    gs ← ask gameState;
    if bool_decide (mode = LOCAL) then
      let existingPlayers := map clearHand (players gs) in
      let startPlayerIndex := Z.rem (currentPlayerIndex gs + 1) 2 in
      setupRound existingPlayers startPlayerIndex;;
      setShowLocalIntermission true
    else
      let existingPlayers := map clearHand (players gs) in
      startPlayerIndex ← withRandom (randomBelow (length existingPlayers));
      setupRound existingPlayers (Z.of_nat startPlayerIndex).

(** The ['close'] listener of [setupConnectionListeners]. *)
Definition onClose : Handler unit :=
  modify (fun app => with_connected app false);;
  prev ← ask gameState;
  setGameState (with_status prev LOBBY).

(** ** Computer opponent: the fallback strategy
       ([services/geminiService.ts], the [catch] block of [getAiMove]) *)

Inductive AiAction := PlayCard | DrawCard.

Record AiMoveResponse := mkAiMoveResponse {
  action : AiAction;
  cardIndex : option Z;
  wildColor : option CardColor;
  comment : string
}.

(** [isValidMove(card, topCard, currentColor)] for a top card read from a
    pile that may be empty; [None] is the [TypeError] of [topCard.type]. *)
Definition isValidMoveOn (card : Card) (topCard : option Card)
  (currentColor : CardColor) : option bool :=
  match topCard with
  | Some t => Some (isValidMove card t currentColor)
  | None =>
      if decide (color card = BLACK) then Some true
      else if decide (color card = currentColor) then Some true
      else None
  end.

(** [aiHand.map((card, index) => ({ card, index })).filter(({ card }) =>
    isValidMove(card, topCard, currentColor))]; [index] is the position of
    the head of [aiHand] in the whole hand. *)
Fixpoint validMovesFrom (index : Z) (aiHand : list Card) (topCard : option Card)
  (currentColor : CardColor) : option (list (Card * Z)) :=
  match aiHand with
  | [] => Some []
  | card :: rest =>
      ok ← isValidMoveOn card topCard currentColor;
      more ← validMovesFrom (index + 1) rest topCard currentColor;
      Some (if (ok : bool) then (card, index) :: more else more)
  end.

Definition getScore (wittiness : WittinessLevel) (c : Card) : Z :=
  match wittiness with
  | Ruthless =>
      match type c with
      | WILD_DRAW_FOUR => 100
      | DRAW_TWO => 90
      | SKIP | REVERSE => 80
      | WILD => 70
      | NUMBER => 10
      end
  | Friendly =>
      match type c with
      | NUMBER => 100
      | WILD => 50
      | _ => 10
      end
  | Sassy =>
      match type c with
      | DRAW_TWO => 60
      | SKIP | REVERSE => 50
      | NUMBER => 40
      | WILD => 30
      | WILD_DRAW_FOUR => 20
      end
  end.

(** [validMoves.sort((a, b) => getScore(b.card) - getScore(a.card))].  The
    comparator is a consistent ordering, and [Array.prototype.sort] is
    stable (ECMAScript 2019), which determines the result: descending
    scores, equal scores in the order of the hand. *)
Fixpoint insertMove (wittiness : WittinessLevel) (m : Card * Z)
  (sorted : list (Card * Z)) : list (Card * Z) :=
  match sorted with
  | [] => [m]
  | m' :: rest =>
      if decide (getScore wittiness m'.1 <= getScore wittiness m.1)
      then m :: m' :: rest
      else m' :: insertMove wittiness m rest
  end.

Definition sortMoves (wittiness : WittinessLevel) (moves : list (Card * Z))
  : list (Card * Z) :=
  foldr (insertMove wittiness) [] moves.

Definition fallbackComment (card : Card) (handSize : nat)
  (wittiness : WittinessLevel) : string :=
  if decide (type card = WILD_DRAW_FOUR) then
    match wittiness with
    | Ruthless => "Take FOUR! Hahaha!"
    | Friendly => "Oh no, I have to play this. Sorry!"
    | Sassy => "You wanted a challenge?"
    end
  else if decide (type card = DRAW_TWO) then
    match wittiness with
    | Ruthless => "Take two more."
    | _ => "Hope this helps?"
    end
  else if decide (handSize = 2%nat) then "UNO! Watch out!"
  else if decide (handSize = 1%nat) then "I win! Good game."
  else "I'll play this.".

Definition fallbackMove (aiHand : list Card) (topCard : option Card)
  (currentColor : CardColor) (wittiness : WittinessLevel)
  : option AiMoveResponse :=
  validMoves ← validMovesFrom 0 aiHand topCard currentColor;
  if decide (0 < length validMoves)%nat then
    selected ← head (sortMoves wittiness validMoves);
    let card := selected.1 in
    let wildColor :=
      if decide (color card = BLACK) then Some (mostHeldColor aiHand) else None in
    Some (mkAiMoveResponse PlayCard (Some selected.2) wildColor
            (fallbackComment card (length aiHand) wittiness))
  else
    Some (mkAiMoveResponse DrawCard None None
            match wittiness with
            | Friendly => "I'll just draw a card."
            | Ruthless => "The deck is delaying your defeat."
            | Sassy => "Drawing... for now."
            end).

(** ** Statistics ([services/statsService.ts]) *)

Record GameStats := mkGameStats {
  matchesPlayed : Z;
  matchesWon : Z;
  matchesLost : Z;
  currentStreak : Z;
  bestStreak : Z;
  totalCardsPlayed : Z;
  longestMatchTime : Z;
  cardUsage : gmap string Z
}.

Definition INITIAL_STATS : GameStats := mkGameStats 0 0 0 0 0 0 0 ∅.

(** The key under which a played card is counted. *)
Definition cardKey (card : Card) : string :=
  if decide (color card = BLACK) then
    "BLACK|" +:+ typeName (type card) +:+ "|0"
  else
    colorName (color card) +:+ "|" +:+ typeName (type card) +:+ "|"
    +:+ pretty (default 0 (value card)).

(** [newStats.cardUsage[key] = (newStats.cardUsage[key] || 0) + 1] *)
Definition countCard (usage : gmap string Z) (card : Card) : gmap string Z :=
  <[cardKey card := default 0 (usage !! cardKey card) + 1]> usage.

(** The result of [updateStats].  Its [cardUsage] is the object of
    [currentStats] itself, updated in place by the [forEach]; the model
    returns the table as the loop leaves it. *)
Definition updateStats (currentStats : GameStats) (isWin : bool)
  (matchDurationSec : Z) (cardsPlayedByHuman : list Card) : GameStats :=
  let played := matchesPlayed currentStats + 1 in
  let won := if isWin then matchesWon currentStats + 1 else matchesWon currentStats in
  let streak := if isWin then currentStreak currentStats + 1 else 0 in
  let best :=
    if isWin && bool_decide (streak > bestStreak currentStats) then streak
    else bestStreak currentStats in
  let lost := if isWin then matchesLost currentStats else matchesLost currentStats + 1 in
  let longest :=
    if decide (matchDurationSec > longestMatchTime currentStats)
    then matchDurationSec else longestMatchTime currentStats in
  mkGameStats played won lost streak best
    (totalCardsPlayed currentStats + Z.of_nat (length cardsPlayedByHuman))
    longest
    (foldl countCard (cardUsage currentStats) cardsPlayedByHuman).

(** The cards held by the players. *)
Definition handsOf (ps : list Player) : list Card := concat (map hand ps).

(** Every card of the match: deck, discard pile and all hands. *)
Definition allCards (s : GameState) : list Card :=
  deck s ++ discardPile s ++ handsOf (players s).

(** ** A concrete engine sort

    Straight insertion sort asking the comparator
    [() => Math.random() - 0.5] once per comparison: a negative answer
    puts the new element before the one it is compared with. *)
Fixpoint insertRandomly (x : Card) (sorted : list Card) (r : RandomSource)
  : list Card * RandomSource :=
  match sorted with
  | [] => ([x], r)
  | y :: rest =>
      let '(q, r') := Math_random r in
      if Qle_bool (1 # 2) q then
        let '(rest', r'') := insertRandomly x rest r' in (y :: rest', r'')
      else (x :: y :: rest, r')
  end.

Fixpoint insertionSortRandomly (l : list Card) (r : RandomSource)
  : list Card * RandomSource :=
  match l with
  | [] => ([], r)
  | x :: rest =>
      let '(sorted, r') := insertionSortRandomly rest r in
      insertRandomly x sorted r'
  end.

#[global] Program Instance insertionArraySort : ArraySort :=
  {| sortRandomly := insertionSortRandomly |}.
Next Obligation.
  intros l r.
  assert (Hins : forall x l r, (insertRandomly x l r).1 ≡ₚ x :: l).
  { clear. intros x l. induction l as [| y l IH]; intros r; [done |].
    simpl. destruct (Qle_bool (1 # 2) (u01 (r O))); [| done].
    specialize (IH (fun n => r (S n))).
    destruct (insertRandomly x l (fun n => r (S n))) as [l' r''].
    simpl in *. rewrite IH. apply perm_swap. }
  induction l as [| x l IH]; [done |].
  simpl. destruct (insertionSortRandomly l r) as [sorted r'].
  simpl in IH. rewrite Hins. by rewrite IH.
Qed.

(** ** Proof automation *)

(** Case analysis on every [decide] of the goal. *)
Ltac split_decide :=
  repeat match goal with
         | |- context [decide ?P] => destruct (decide P)
         | H : context [decide ?P] |- _ => destruct (decide P)
         end.

(** Unfold the primitive operations of the monad. *)
Ltac hsimpl :=
  unfold setGameState, setPendingWildCard, setShowLocalIntermission,
    pushHumanMove, reportStats, sendMultiplayerMessage, withRandom, when_;
  unfold ask, modify, defined, throw, mbind, mret, Handler_bind, Handler_ret;
  cbn beta iota.

Ltac hsimpl_in H :=
  unfold setGameState, setPendingWildCard, setShowLocalIntermission,
    pushHumanMove, reportStats, sendMultiplayerMessage, withRandom, when_ in H;
  unfold ask, modify, defined, throw, mbind, mret, Handler_bind, Handler_ret in H;
  cbn beta iota in H.

(** ** Vocabulary of the specification

    The definitions below follow the words of the specification; the
    theorems compare them with the functions embedded above. *)

(** Number of cards of [d] with a given colour, type and value. *)
Definition faceCount (d : list Card) (c : CardColor) (t : CardType)
  (v : option Z) : nat :=
  length (filter (fun x => color x = c /\ type x = t /\ value x = v) d).

(** Section 3, "Deck": per colour one 0, two each of 1-9, two each of
    skip, reverse and draw-two; plus four wild and four wild-draw-four,
    colourless; nothing else. *)
Definition copiesInDeck (c : CardColor) (t : CardType) (v : option Z) : nat :=
  if decide (c = BLACK) then
    if decide ((t = WILD \/ t = WILD_DRAW_FOUR) /\ v = None) then 4%nat else 0%nat
  else
    match t, v with
    | NUMBER, Some n =>
        if decide (n = 0) then 1%nat
        else if decide (1 <= n <= 9) then 2%nat else 0%nat
    | SKIP, None | REVERSE, None | DRAW_TWO, None => 2%nat
    | _, _ => 0%nat
    end.

(** Section 4.5: the points of one card. *)
Definition cardPoints (c : Card) : Z :=
  match type c with
  | NUMBER => valueOrZero (value c)
  | SKIP | REVERSE | DRAW_TWO => 20
  | WILD | WILD_DRAW_FOUR => 50
  end.

Definition sumZ (l : list Z) : Z := foldr Z.add 0 l.

(** The hand values of every player but the one at position [k]. *)
Definition othersHandValue (ps : list Player) (k : nat) : Z :=
  sumZ (map (fun q => calculateHandScore (hand q)) (delete k ps)).

(** Section 4.4: the seat after the current one, "current + direction,
    wrapped into [0, playerCount)" by the standard modular wrap. *)
Definition seatAfter (s : GameState) : Z :=
  (currentPlayerIndex s + direction s) `mod` Z.of_nat (length (players s)).

(** The seats of a match in progress: the pointer is inside the table and
    the direction is one of the two signs. *)
Definition seated (s : GameState) : Prop :=
  0 <= currentPlayerIndex s < Z.of_nat (length (players s)) /\
  (direction s = 1 \/ direction s = -1).

(** The follower of an online match: its [finalizeMove] only sends the
    move request to the host. *)
Definition isClient (app : App) : bool :=
  bool_decide (gameMode app = ONLINE) && negb (isHost app).

(** The state handed to the commentary step: the card is on the pile, the
    hand of the player to move has lost position [index], and a wild card
    played with a chosen colour has set the active colour. *)
Definition afterPlay (card : Card) (index : Z) (chosenWildColor : option CardColor)
  (s : GameState) (p : Player) : GameState :=
  let placed :=
    with_players (with_discardPile s (discardPile s ++ [card]))
      (<[Z.to_nat (currentPlayerIndex s) :=
           with_hand p (spliceOne (hand p) index)]> (players s)) in
  match chosenWildColor with
  | Some c => if decide (color card = BLACK) then with_currentColor placed c else placed
  | None => placed
  end.

(** Section 4.3, draw mechanics: the cards a draw of [n] can reach are
    those of the deck, joined by the discard pile without its top card
    when the deck is short of [n] and the pile has more than one card. *)
Definition availableToDraw (n : Z) (s : GameState) : nat :=
  if decide (Z.of_nat (length (deck s)) < n /\ (1 < length (discardPile s))%nat)
  then (length (deck s) + length (discardPile s) - 1)%nat
  else length (deck s).

(** The first statement of [handleCardEffect]: a coloured card sets the
    active colour. *)
Definition recolor (card : Card) (s : GameState) : GameState :=
  if decide (color card <> BLACK) then with_currentColor s (color card) else s.

(** The active colour after a play that does not end the round: the
    colour of a coloured card; for a wild card the chosen colour, or the
    colour that was active when none was chosen. *)
Definition colorAfter (card : Card) (chosenWildColor : option CardColor)
  (s : GameState) : CardColor :=
  if decide (color card = BLACK) then default (currentColor s) chosenWildColor
  else color card.

(** Who sits at the table, seat by seat: the players without their hands
    and scores. *)
Definition identity (p : Player) : string * string * bool * string :=
  (player_id p, name p, isAi p, avatar p).

Definition roster (s : GameState) : list (string * string * bool * string) :=
  map identity (players s).

Definition scores (s : GameState) : list Z := map score (players s).

(** The top card and the active colour agree: there is a top card, and
    when it is coloured its colour is the active one. *)
Definition topColourAgrees (s : GameState) : Prop :=
  exists top, last (discardPile s) = Some top /\
              (color top <> BLACK -> currentColor s = color top).

(** What one play or draw may do to the table: nobody joins or leaves,
    the pointer stays inside, the pile stays non-empty; and a match that
    is in progress afterwards was in progress before, with the same
    scores and with top card and colour still in agreement. *)
Definition keepsTable (s s' : GameState) : Prop :=
  roster s' = roster s /\
  (seated s -> seated s') /\
  (discardPile s <> [] -> discardPile s' <> []) /\
  (status s' = PLAYING ->
   status s = PLAYING /\ scores s' = scores s /\
   (topColourAgrees s -> topColourAgrees s')).

(** Section 4.1, round setup: every configured player keeps identity and
    score and holds seven cards. *)
Definition dealtTo (playersConfig ps : list Player) : Prop :=
  Forall2 (fun q p => p = with_hand q (hand p) /\ length (hand p) = 7%nat)
    playersConfig ps.

(** A round as the setup leaves it: seven cards each, one card that is
    not a wild-draw-four on the pile, its colour (red for a wild card)
    active, the rest of the 108 cards in the deck, play going clockwise
    from the start player. *)
Definition freshRound (playersConfig : list Player) (start : Z)
  (s : GameState) : Prop :=
  dealtTo playersConfig (players s) /\
  (exists c, discardPile s = [c] /\ type c <> WILD_DRAW_FOUR /\
             currentColor s = (if decide (color c = BLACK) then RED else color c)) /\
  length (deck s) = (107 - 7 * length playersConfig)%nat /\
  allCards s ≡ₚ unshuffledDeck /\
  currentPlayerIndex s = start /\
  direction s = 1 /\
  status s = PLAYING /\
  winner s = None.

(** A player as signed up for a round: identity and score. *)
Definition signup (p : Player) : string * string * bool * Z :=
  (player_id p, name p, isAi p, score p).

(** The two players of a new online match. *)
Definition newcomers (playersConfig : list Player) : Prop :=
  map signup playersConfig =
    [("host", "Host (You)", false, 0); ("client", "Opponent", false, 0)].

(** Moves in the order of the hand. *)
Definition byIndex (x y : Card * Z) : Prop := x.2 < y.2.

(** How many cards of a colour a hand holds. *)
Definition held (h : list Card) (c : CardColor) : nat :=
  length (filter (fun x => color x = c) h).

(** The seat from which the colour picker plays. *)
Definition pickerSeat (app : App) : Z :=
  if isClient app then 1
  else if bool_decide (gameMode app = LOCAL)
       then currentPlayerIndex (gameState app)
       else 0.

(** ** What the screens offer ([App.tsx], the JSX)

    The component returns the lobby, the game-over screen or the
    round-over screen according to [status], and the table otherwise.
    An event that the screen of the moment does not offer cannot be
    received: it is [throw]. *)

Section Screens.
Context `{ArraySort}.

Definition onScreen (shown : App -> bool) (h : Handler unit) : Handler unit :=
  ok ← ask shown;
  if (ok : bool) then h else throw.

Definition showsLobby (app : App) : bool :=
  bool_decide (status (gameState app) = LOBBY).

Definition showsRoundOver (app : App) : bool :=
  negb (bool_decide (status (gameState app) = LOBBY))
  && negb (bool_decide (status (gameState app) = GAME_OVER))
  && bool_decide (status (gameState app) = ROUND_OVER).

Definition showsTable (app : App) : bool :=
  negb (bool_decide (status (gameState app) = LOBBY))
  && negb (bool_decide (status (gameState app) = GAME_OVER))
  && negb (bool_decide (status (gameState app) = ROUND_OVER)).

(** [const humanPlayer = ...]: the player whose hand is on the table. *)
Definition humanPlayer (app : App) : option Player :=
  let gs := gameState app in
  if bool_decide (gameMode app = ONLINE) && negb (isHost app)
  then nthZ (players gs) 1
  else if bool_decide (gameMode app = LOCAL)
       then nthZ (players gs) (currentPlayerIndex gs)
       else nthZ (players gs) 0.

(** The first button of the lobby: [onClick={startMatch}]. *)
Definition clickStartMatch : Handler unit := onScreen showsLobby startMatch.

(** A card of the hand on the table:
    [onClick={() => handleHumanPlay(card, index)}] for the card at
    [index] of [humanPlayer.hand]. *)
Definition clickCard (index : Z) : Handler unit :=
  onScreen showsTable
    (seated ← ask humanPlayer;
     me ← defined seated;
     card ← defined (nthZ (hand me) index);
     handleHumanPlay card index).

(** A colour of the picker.  The picker is part of the table and is
    there whenever a wild card is pending:
    [{pendingWildCard && <ColorPicker onSelect={handleColorPick} />}]. *)
Definition clickColor (c : CardColor) : Handler unit :=
  onScreen
    (fun app => showsTable app && bool_decide (pendingWildCard app <> None))
    (handleColorPick c).

(** The button of the round-over screen, which a follower does not
    have. *)
Definition clickNextRound : Handler unit :=
  onScreen
    (fun app => showsRoundOver app
                && negb (bool_decide (gameMode app = ONLINE) && negb (isHost app)))
    nextRound.

(** The effect on [currentPlayerIndex], [status] and [gameMode] up to
    its first [await]: against the computer, when the player to move is
    the computer and it is not thinking yet, [isAiThinking] is set.  The
    move itself comes later, after a pause of 1.5 s and the answer of
    the service. *)
Definition aiStartsThinking : Handler unit :=
  mode ← ask gameMode;
  if negb (bool_decide (mode = AI)) then mret tt
  else
    gs ← ask gameState;
    if bool_decide (status gs = PLAYING) then
      currentPlayer ← defined (nthZ (players gs) (currentPlayerIndex gs));
      if isAi currentPlayer && negb (isAiThinking gs)
      then modify (fun app =>
             with_gameState app (with_isAiThinking (gameState app) true))
      else mret tt
    else mret tt.

(** A sequence of clicks.  After each of them the component renders and
    its effects run; the effect above does nothing unless the click has
    left the computer to move. *)
Fixpoint clicks (l : list (Handler unit)) : Handler unit :=
  match l with
  | [] => mret tt
  | click :: rest => click;; aiStartsThinking;; clicks rest
  end.

End Screens.

(** ** Sample data for the worked examples *)

Definition quarter (k : nat) : Unit01 :=
  match k with
  | 0%nat => mkUnit01 0 eq_refl
  | 1%nat => mkUnit01 (1 # 4) eq_refl
  | 2%nat => mkUnit01 (1 # 2) eq_refl
  | _ => mkUnit01 (3 # 4) eq_refl
  end.

(** A random source that cycles through 0, 1/4, 1/2 and 3/4. *)
Definition sampleRandom : RandomSource := fun n => quarter (n mod 4).

Definition alice : Player := mkPlayer "p1" "Player 1" false [] 0 "a1".
Definition bob : Player := mkPlayer "p2" "Player 2" false [] 0 "a2".

(** A two-player table in a given mode: [hostSide] is [isHost], the
    connection is open, the target score is the default 500. *)
Definition sampleApp (mode : GameMode) (hostSide : bool) (s : GameState) : App :=
  mkApp mode hostSide 500 Sassy true s None false [] [] [] sampleRandom.

(** One card left in the deck and five on the discard pile. *)
Definition lowDeckState : GameState :=
  mkGameState
    [mkCard "card-30" BLUE NUMBER (Some 3)]
    [mkCard "card-1" RED NUMBER (Some 1); mkCard "card-3" RED NUMBER (Some 2);
     mkCard "card-28" BLUE NUMBER (Some 2); mkCard "card-44" BLUE SKIP None;
     mkCard "card-69" GREEN SKIP None]
    [with_hand alice [mkCard "card-5" RED NUMBER (Some 3)];
     with_hand bob [mkCard "card-7" RED NUMBER (Some 4)]]
    0 1 PLAYING None GREEN "" false None (Some 0).

(** An online match seen from the host: it is the follower's turn, the
    top card is a red 5 and red is the active colour.  The follower holds
    a blue 7, which is not a legal play. *)
Definition blueSeven : Card := mkCard "card-38" BLUE NUMBER (Some 7).
Definition redFive : Card := mkCard "card-9" RED NUMBER (Some 5).

Definition hostState : GameState :=
  mkGameState
    [mkCard "card-30" BLUE NUMBER (Some 3); mkCard "card-55" GREEN NUMBER (Some 3)]
    [redFive]
    [with_hand alice [mkCard "card-5" RED NUMBER (Some 3);
                      mkCard "card-60" GREEN NUMBER (Some 5)];
     with_hand bob [blueSeven; mkCard "card-7" RED NUMBER (Some 4)]]
    1 1 PLAYING None RED "" false None (Some 0).

Definition hostApp : App := sampleApp ONLINE true hostState.

(** A pass-and-play table before the first round. *)
Definition lobbyApp : App :=
  sampleApp LOCAL false
    (mkGameState [] [] [] 0 1 LOBBY None RED "Ready to lose?" false None None).

(** Player 1 to move with a draw-two in hand and two cards in the deck. *)
Definition redDrawTwo : Card := mkCard "card-21" RED DRAW_TWO None.

Definition drawTwoState : GameState :=
  mkGameState
    [mkCard "card-30" BLUE NUMBER (Some 3); mkCard "card-55" GREEN NUMBER (Some 3)]
    [redFive]
    [with_hand alice [redDrawTwo; mkCard "card-60" GREEN NUMBER (Some 5)];
     with_hand bob [blueSeven; mkCard "card-7" RED NUMBER (Some 4)]]
    0 1 PLAYING None RED "" false None (Some 0).

(** Player 1 to move with one card left; the other hand is worth
    7 + 4 + 20 = 31 points. *)
Definition lastCardState (lastCard : Card) : GameState :=
  mkGameState
    [mkCard "card-30" BLUE NUMBER (Some 3); mkCard "card-55" GREEN NUMBER (Some 3)]
    [redFive]
    [with_hand alice [lastCard];
     with_hand bob [blueSeven; mkCard "card-7" RED NUMBER (Some 4);
                    mkCard "card-69" GREEN SKIP None]]
    0 1 PLAYING None RED "" false None (Some 0).

Definition redThree : Card := mkCard "card-5" RED NUMBER (Some 3).
Definition wildCard : Card := mkCard "card-100" BLACK WILD None.

(** The follower's turn with a red 4 and a blue 5 in hand, both legal on
    the red 5. *)
Definition blueFive : Card := mkCard "card-34" BLUE NUMBER (Some 5).
Definition redFour : Card := mkCard "card-7" RED NUMBER (Some 4).

Definition doubleClickState : GameState :=
  mkGameState
    [mkCard "card-30" BLUE NUMBER (Some 3); mkCard "card-55" GREEN NUMBER (Some 3)]
    [redFive]
    [with_hand alice [mkCard "card-5" RED NUMBER (Some 3);
                      mkCard "card-60" GREEN NUMBER (Some 5)];
     with_hand bob [redFour; blueFive]]
    1 1 PLAYING None RED "" false None (Some 0).

(** The follower's screen of an online match in state
    [doubleClickState], and a pass-and-play table in that state. *)
Definition followerApp : App := sampleApp ONLINE false doubleClickState.
Definition localApp : App := sampleApp LOCAL false doubleClickState.

(** A pass-and-play table on which player 1 holds one wild card. *)
Definition wildApp : App := sampleApp LOCAL false (lastCardState wildCard).

(** The component as it mounts, before any click, over a given random
    source. *)
Definition mountedState : GameState :=
  mkGameState [] [] [] 0 1 LOBBY None RED "Ready to lose?" false None None.

Definition mounted (r : RandomSource) : App :=
  mkApp AI false 500 Sassy false mountedState None false [] [] [] r.

(** A render of the mounted component.  It is not a host's, so that a
    listener of this render never reaches its three functions; they
    stand here as the handlers themselves. *)
Definition mountRender : Render :=
  mkRender false mountedState
    (fun card index chosenWildColor =>
       finalizeMove card index chosenWildColor None)
    handleMultiplayerDraw startMultiplayerMatch.

(** A rational as a value of [Math.random()]; 0 when out of range. *)
Definition toUnit01 (q : Q) : Unit01 :=
  match Qle_bool 0 q && negb (Qle_bool 1 q) as b
        return (Qle_bool 0 q && negb (Qle_bool 1 q) = b -> Unit01) with
  | true => fun H => mkUnit01 q H
  | false => fun _ => mkUnit01 0 eq_refl
  end eq_refl.

(** The positions picked by the 107 swaps of one shuffle, chosen so that
    the first round deals the human six red action cards and one
    wild draw four. *)
Definition riggedDraws : list nat :=
  ([107; 106] ++ rev (seq 25 80) ++ rev (seq 10 9) ++ rev (seq 0 9)
   ++ [3; 2; 2; 0; 2; 2; 0])%nat.

(** One possible sequence of values of [Math.random()]: 1/2 for the
    avatar, the middle of the interval that makes [shuffleDeck] pick
    each position of [riggedDraws], then 17/32 for ever. *)
Definition riggedSource : RandomSource := fun n =>
  match n with
  | O => toUnit01 (1 # 2)
  | S k =>
      match riggedDraws !! k with
      | Some j => toUnit01 ((2 * Z.of_nat j + 1) # Pos.of_nat (2 * (108 - k)))
      | None => toUnit01 (17 # 32)
      end
  end.

(** A render of a host that holds [hostState]. *)
Definition hostRender : Render :=
  mkRender true hostState
    (fun card index chosenWildColor =>
       finalizeMove card index chosenWildColor None)
    handleMultiplayerDraw startMultiplayerMatch.

(** The last wild draw four of a deck. *)
Definition wildDrawFour : Card := mkCard "card-105" BLACK WILD_DRAW_FOUR None.

(** * Properties *)

(** ** The random source stays in range *)

Lemma Unit01_bounds (u : Unit01) : (0 <= u01 u)%Q /\ (u01 u < 1)%Q.
Proof.
  destruct u as [q Hq]; simpl.
  apply andb_prop in Hq as [Hlo Hhi].
  split; [by apply Qle_bool_iff |].
  apply Qnot_le_lt. intros Hle.
  apply Qle_bool_iff in Hle. rewrite Hle in Hhi. discriminate.
Qed.

(** [Math.floor(Math.random() * n)] is an index below [n]. *)
Lemma randomBelow_lt (n : nat) (r : RandomSource) :
  (0 < n)%nat -> ((randomBelow n r).1 < n)%nat.
Proof.
  intros Hn. unfold randomBelow, Math_random. cbn [fst].
  destruct (Unit01_bounds (r O)) as [Hlo Hhi].
  set (q := u01 (r O)) in *.
  set (m := inject_Z (Z.of_nat n)).
  assert (Hm : (0 < m)%Q).
  { unfold m, Qlt; simpl. lia. }
  assert (Hfl : (Qfloor (q * m) < Z.of_nat n)%Z).
  { assert (Hlt : (q * m < m)%Q).
    { eapply Qlt_le_trans; [apply Qmult_lt_compat_r; eassumption |].
      rewrite Qmult_1_l. apply Qle_refl. }
    assert (Hle := Qfloor_le (q * m)).
    assert (Hz : (inject_Z (Qfloor (q * m)) < inject_Z (Z.of_nat n))%Q).
    { eapply Qle_lt_trans; eassumption. }
    by rewrite <- Zlt_Qlt in Hz. }
  assert (Hge : (0 <= Qfloor (q * m))%Z).
  { change 0%Z with (Qfloor 0). apply Qfloor_resp_le.
    apply Qmult_le_0_compat; [assumption | by apply Qlt_le_weak]. }
  lia.
Qed.

(** ** Deck builder *)

Lemma insert_head_perm (l : list Card) (j : nat) (x y : Card) :
  l !! j = Some y -> y :: <[j := x]> l ≡ₚ x :: l.
Proof.
  intros Hj. apply lookup_lt_Some in Hj as Hlt.
  rewrite insert_take_drop by done.
  rewrite <- (take_drop_middle l j y) at 3 by done.
  rewrite <- !Permutation_middle. apply perm_swap.
Qed.

Lemma swap_perm (l : list Card) (i j : nat) : swap l i j ≡ₚ l.
Proof.
  unfold swap.
  destruct (l !! j) as [cj|] eqn:Hj; [| done].
  destruct (l !! i) as [ci|] eqn:Hi; [| done].
  revert i j Hi Hj.
  induction l as [| x l IH]; intros i j Hi Hj; [done |].
  destruct i as [| i], j as [| j]; simpl in *; simplify_eq.
  - done.
  - by apply insert_head_perm.
  - by apply insert_head_perm.
  - constructor. by apply IH.
Qed.

Lemma shuffleLoop_perm (i : nat) (l : list Card) (r : RandomSource) :
  (shuffleLoop i l r).1 ≡ₚ l.
Proof.
  revert l r. induction i as [| i IH]; intros l r; [done |].
  simpl. destruct (randomBelow (S i + 1) r) as [j r'].
  rewrite IH. apply swap_perm.
Qed.

Lemma shuffleDeck_perm (l : list Card) (r : RandomSource) :
  (shuffleDeck l r).1 ≡ₚ l.
Proof. apply shuffleLoop_perm. Qed.

(** The swap of the shuffle always finds both cards: the random index is
    at most the loop counter, which is inside the array. *)
Lemma shuffle_swap_in_range (i : nat) (l : list Card) (r : RandomSource) :
  (i < length l)%nat ->
  let j := (randomBelow (i + 1) r).1 in
  (j <= i)%nat /\ is_Some (l !! j) /\ is_Some (l !! i).
Proof.
  intros Hi j.
  assert (Hj : (j < i + 1)%nat) by (apply randomBelow_lt; lia).
  split; [lia |].
  split; apply lookup_lt_is_Some; lia.
Qed.

Lemma createDeck_perm (r : RandomSource) : (createDeck r).1 ≡ₚ unshuffledDeck.
Proof. apply shuffleDeck_perm. Qed.

(** ** Move validator *)

(** C2.  [isValidMove c t k] holds exactly when [c] is wild-coloured, or
    has the active colour [k], or has the type of the top card [t] with,
    for number cards, the same numeric value. *)
Theorem isValidMove_iff (c t : Card) (k : CardColor) :
  isValidMove c t k = true <->
  color c = BLACK \/ color c = k \/
  (type c = type t /\ (type c = NUMBER -> value c = value t)).
Proof.
  unfold isValidMove.
  split_decide; rewrite ?bool_decide_eq_true; intuition congruence.
Qed.

Lemma canPlayAny_iff (h : list Card) (t : Card) (k : CardColor) :
  canPlayAny h t k = true <-> exists c, c ∈ h /\ isValidMove c t k = true.
Proof.
  unfold canPlayAny. rewrite existsb_exists.
  split; intros (c & Hc & Hv); exists c; split; try done;
    by apply list_elem_of_In.
Qed.

(** ** Composition of a fresh deck *)

Lemma faceCount_perm (d d' : list Card) c t v :
  d ≡ₚ d' -> faceCount d c t v = faceCount d' c t v.
Proof. intros Hp. unfold faceCount. by rewrite Hp. Qed.

Lemma faceCount_absent (d : list Card) c t v :
  Forall (fun x => value x <> v) d -> faceCount d c t v = 0%nat.
Proof.
  intros Hall. unfold faceCount.
  induction Hall as [| x d Hx _ IH]; [done |].
  rewrite filter_cons_False; [done | tauto].
Qed.

Lemma unshuffledDeck_values :
  Forall (fun x => match value x with
                   | Some n => 0 <= n <= 9
                   | None => True
                   end) unshuffledDeck.
Proof.
  apply Forall_forall. intros x Hx.
  assert (Hb : forallb (fun x => match value x with
                                 | Some n => (0 <=? n) && (n <=? 9)
                                 | None => true
                                 end) unshuffledDeck = true) by (vm_compute; reflexivity).
  rewrite forallb_forall in Hb. specialize (Hb x).
  destruct (value x); [| done].
  apply list_elem_of_In in Hx. specialize (Hb Hx).
  apply andb_prop in Hb as [Hlo Hhi]. lia.
Qed.

Lemma unshuffledDeck_composition c t v :
  faceCount unshuffledDeck c t v = copiesInDeck c t v.
Proof.
  destruct v as [n |].
  - destruct (decide (0 <= n <= 9)) as [Hin | Hout].
    + assert (Hk : exists k : nat, (k < 10)%nat /\ n = Z.of_nat k)
        by (exists (Z.to_nat n); lia).
      destruct Hk as (k & Hk & ->).
      do 10 (destruct k as [| k]; [destruct c, t; vm_compute; reflexivity |]).
      lia.
    + rewrite faceCount_absent.
      * unfold copiesInDeck.
        destruct c, t; split_decide; try done; try lia; intuition congruence.
      * eapply Forall_impl; [apply unshuffledDeck_values |].
        intros x Hx Heq. simpl in Hx. rewrite Heq in Hx. lia.
  - destruct c, t; vm_compute; reflexivity.
Qed.

(** C3.  Whatever the random source, [createDeck] returns 108 cards with
    pairwise distinct ids, and for every colour, type and value the deck
    holds exactly the number of copies that the specification lists. *)
Theorem createDeck_composition (r : RandomSource) :
  length (createDeck r).1 = 108%nat /\
  NoDup (card_id <$> (createDeck r).1) /\
  forall c t v, faceCount (createDeck r).1 c t v = copiesInDeck c t v.
Proof.
  pose proof (createDeck_perm r) as Hp.
  split; [| split].
  - by rewrite Hp.
  - rewrite Hp.
    assert (Hb : bool_decide (NoDup (card_id <$> unshuffledDeck)) = true)
      by (vm_compute; reflexivity).
    by apply bool_decide_eq_true in Hb.
  - intros c t v. rewrite (faceCount_perm _ _ c t v Hp).
    apply unshuffledDeck_composition.
Qed.

(** ** Handler calculus *)

Lemma bind_Some {A B} (m : Handler A) (k : A -> Handler B) app y app' :
  (m ≫= k) app = Some (y, app') <->
  exists x app1, m app = Some (x, app1) /\ k x app1 = Some (y, app').
Proof.
  unfold mbind, Handler_bind.
  destruct (m app) as [[x app1] |]; split.
  - intros Hk. by exists x, app1.
  - intros (x' & app1' & Heq & Hk). by simplify_eq.
  - done.
  - intros (x' & app1' & Heq & Hk). done.
Qed.

Lemma bind_run {A B} (m : Handler A) (k : A -> Handler B) app x app1 :
  m app = Some (x, app1) -> (m ≫= k) app = k x app1.
Proof. intros Hm. unfold mbind, Handler_bind. by rewrite Hm. Qed.

Lemma defined_Some {A} (o : option A) app x app' :
  defined o app = Some (x, app') <-> o = Some x /\ app' = app.
Proof.
  destruct o as [y |]; simpl; unfold mret, Handler_ret, throw; split.
  - intros Heq. by simplify_eq.
  - intros [Heq ->]. by simplify_eq.
  - done.
  - intros [Heq _]. done.
Qed.

(** ** Turn engine *)

Section EngineFacts.
Context `{ArraySort}.

(** [nextTurn] always returns: the pointer moves to the wrapped
    neighbour, and only the intermission flag of the component may
    change. *)
Lemma nextTurn_run (s : GameState) (app : App) :
  nextTurn s app =
  Some (with_currentPlayerIndex s (victimOf s),
        if bool_decide (gameMode app = LOCAL)
        then with_showLocalIntermission app true else app).
Proof.
  unfold nextTurn, victimOf. hsimpl.
  destruct (bool_decide (gameMode app = LOCAL)); reflexivity.
Qed.

(** The wrapped neighbour of a seat inside the table is inside the
    table. *)
Lemma victimOf_range (s : GameState) :
  0 <= currentPlayerIndex s < Z.of_nat (length (players s)) ->
  direction s = 1 \/ direction s = -1 ->
  0 <= victimOf s < Z.of_nat (length (players s)).
Proof. intros Hcur Hdir. unfold victimOf. split_decide; lia. Qed.

Lemma last_removelast {A} (l : list A) (x : A) :
  last l = Some x -> l = removelast l ++ [x].
Proof.
  intros Hl. apply last_Some in Hl as [l' ->].
  by rewrite removelast_last.
Qed.

Lemma reshuffle_run (d pile : list Card) (app : App) :
  (1 < length pile)%nat ->
  exists rest top,
    pile = rest ++ [top] /\
    reshuffle d pile app =
    Some ((d ++ (sortRandomly rest (random app)).1, [top]),
          with_random app (sortRandomly rest (random app)).2).
Proof.
  intros Hlen. unfold reshuffle.
  destruct (decide (1 < length pile)%nat) as [_ | Hn]; [| lia].
  destruct (last pile) as [top |] eqn:Hlast.
  - exists (removelast pile), top. split; [by apply last_removelast |].
    hsimpl. reflexivity.
  - apply last_None in Hlast. subst pile. simpl in Hlen. lia.
Qed.

Lemma reshuffle_skip (d pile : list Card) (app : App) :
  (length pile <= 1)%nat -> reshuffle d pile app = Some ((d, pile), app).
Proof.
  intros Hlen. unfold reshuffle.
  destruct (decide (1 < length pile)%nat) as [Hn | _]; [lia | done].
Qed.

Lemma with_random_id (app : App) : with_random app (random app) = app.
Proof. by destruct app. Qed.

(** What [drawCards] computes, as one equation.  [avail] is the deck the
    cards are dealt from (after the reshuffle, when there is one), [pile]
    the discard pile that is left, [r'] the random source afterwards. *)
Lemma drawCards_eq (i n : Z) (s : GameState) (app : App) :
  exists avail pile r',
    ((Z.of_nat (length (deck s)) < n /\ (1 < length (discardPile s))%nat /\
      exists rest top,
        discardPile s = rest ++ [top] /\
        avail = deck s ++ (sortRandomly rest (random app)).1 /\
        pile = [top] /\ r' = (sortRandomly rest (random app)).2)
     \/
     (~ (Z.of_nat (length (deck s)) < n /\ (1 < length (discardPile s))%nat) /\
      avail = deck s /\ pile = discardPile s /\ r' = random app)) /\
    drawCards i n s app =
    let k := Z.to_nat (Z.min n (Z.of_nat (length avail))) in
    if decide (0 < k)%nat then
      match nthZ (players s) i with
      | Some p =>
          Some (with_discardPile
                  (with_players (with_deck s (drop k avail))
                     (<[Z.to_nat i := with_hand p (hand p ++ take k avail)]>
                        (players s)))
                  pile,
                with_random app r')
      | None => None
      end
    else
      Some (with_discardPile (with_players (with_deck s avail) (players s)) pile,
            with_random app r').
Proof.
  unfold drawCards.
  destruct (decide (Z.of_nat (length (deck s)) < n)) as [Hshort | Hfull].
  - destruct (decide (1 < length (discardPile s))%nat) as [Hpile | Hpile].
    + destruct (reshuffle_run (deck s) (discardPile s) app Hpile)
        as (rest & top & Hsplit & Hrun).
      exists (deck s ++ (sortRandomly rest (random app)).1), [top],
        (sortRandomly rest (random app)).2.
      split; [left; split; [done |]; split; [done |]; by exists rest, top |].
      rewrite (bind_run _ _ _ _ _ Hrun). cbn zeta beta iota.
      set (avail := deck s ++ (sortRandomly rest (random app)).1).
      set (app1 := with_random app _).
      destruct (decide (Z.min n (Z.of_nat (length avail)) > 0)) as [Hpos | Hpos].
      * destruct (decide (0 < Z.to_nat (Z.min n (Z.of_nat (length avail))))%nat);
          [| lia].
        hsimpl. destruct (nthZ (players s) i); reflexivity.
      * destruct (decide (0 < Z.to_nat (Z.min n (Z.of_nat (length avail))))%nat);
          [lia |].
        hsimpl. reflexivity.
    + exists (deck s), (discardPile s), (random app).
      split; [right; split; [lia |]; done |].
      assert (Hle : (length (discardPile s) <= 1)%nat) by lia.
      rewrite (bind_run _ _ _ _ _ (reshuffle_skip (deck s) _ app Hle)).
      cbn zeta beta iota. rewrite with_random_id.
      destruct (decide (Z.min n (Z.of_nat (length (deck s))) > 0)) as [Hpos | Hpos].
      * destruct (decide (0 < Z.to_nat (Z.min n (Z.of_nat (length (deck s)))))%nat);
          [| lia].
        hsimpl. destruct (nthZ (players s) i); reflexivity.
      * destruct (decide (0 < Z.to_nat (Z.min n (Z.of_nat (length (deck s)))))%nat);
          [lia |].
        hsimpl. reflexivity.
  - exists (deck s), (discardPile s), (random app).
    split; [right; split; [lia |]; done |].
    hsimpl. rewrite with_random_id.
    destruct (decide (Z.min n (Z.of_nat (length (deck s))) > 0)) as [Hpos | Hpos].
    + destruct (decide (0 < Z.to_nat (Z.min n (Z.of_nat (length (deck s)))))%nat);
        [| lia].
      destruct (nthZ (players s) i); reflexivity.
    + destruct (decide (0 < Z.to_nat (Z.min n (Z.of_nat (length (deck s)))))%nat);
        [lia |].
      reflexivity.
Qed.

Lemma victimOf_seatAfter (s : GameState) :
  seated s -> victimOf s = seatAfter s.
Proof.
  intros [Hcur Hdir]. unfold victimOf, seatAfter.
  set (len := Z.of_nat (length (players s))) in *.
  set (cur := currentPlayerIndex s) in *.
  destruct (decide (cur + direction s >= len)) as [Hhi | Hhi].
  - destruct (decide (0 < 0)) as [? | _]; [lia |].
    assert (cur + direction s = len) as -> by lia.
    by rewrite Z_mod_same_full.
  - destruct (decide (cur + direction s < 0)) as [Hlo | Hlo].
    + assert (cur + direction s = -1) as -> by lia.
      apply (Z.mod_unique_pos _ _ (-1)); lia.
    + symmetry. apply Z.mod_small. lia.
Qed.

(** C7.  When the deck is short of the [n] cards requested and the
    discard pile holds more than one card, [drawCards] returns: every
    discard card but the top one joins the deck (in some order), the top
    card is left alone on the pile, and the player receives the first
    [min n available] cards of that deck.  With one card in the deck,
    five on the pile and three requested, exactly three are drawn. *)
Theorem drawCards_reshuffles (i n : Z) (s : GameState) (app : App) (p : Player) :
  nthZ (players s) i = Some p ->
  Z.of_nat (length (deck s)) < n ->
  (1 < length (discardPile s))%nat ->
  exists rest top recycled s' app',
    discardPile s = rest ++ [top] /\ recycled ≡ₚ rest /\
    drawCards i n s app = Some (s', app') /\
    discardPile s' = [top] /\
    let avail := deck s ++ recycled in
    let k := Nat.min (Z.to_nat n) (length avail) in
    nthZ (players s') i = Some (with_hand p (hand p ++ take k avail)) /\
    deck s' = drop k avail /\
    (length (deck s) = 1%nat -> length (discardPile s) = 5%nat -> n = 3 ->
     k = 3%nat /\
     length (hand (with_hand p (hand p ++ take k avail))) = (length (hand p) + 3)%nat).
Proof.
  intros Hp Hshort Hpile.
  destruct (drawCards_eq i n s app) as (avail & pile & r' & Hcase & Heq).
  destruct Hcase as [(_ & _ & rest & top & Hsplit & -> & -> & ->) | [Hno _]];
    [| tauto].
  exists rest, top, (sortRandomly rest (random app)).1.
  set (recycled := (sortRandomly rest (random app)).1) in *.
  assert (Hperm : recycled ≡ₚ rest) by apply sortRandomly_perm.
  assert (Hrest : (0 < length recycled)%nat).
  { rewrite Hperm. rewrite Hsplit, length_app in Hpile. simpl in Hpile. lia. }
  cbn zeta in Heq. rewrite Hp in Heq.
  assert (Hk : Z.to_nat (Z.min n (Z.of_nat (length (deck s ++ recycled)))) =
               Nat.min (Z.to_nat n) (length (deck s ++ recycled))) by lia.
  rewrite Hk in Heq.
  destruct (decide (0 < Nat.min (Z.to_nat n) (length (deck s ++ recycled)))%nat)
    as [Hpos | Hpos]; [| rewrite length_app in Hpos; lia].
  eexists _, _. split; [done |]. split; [done |]. split; [exact Heq |].
  split; [done |]. cbn zeta.
  split.
  { simpl. unfold nthZ in *. destruct (decide (0 <= i)); [| done].
    apply list_lookup_insert_eq. by eapply lookup_lt_Some. }
  split; [done |].
  intros Hd Hdisc ->.
  assert (Hlen : length (deck s ++ recycled) = 5%nat).
  { rewrite length_app, Hperm, Hd.
    rewrite Hsplit, length_app in Hdisc. simpl in Hdisc. lia. }
  rewrite Hlen. split; [reflexivity |].
  simpl. rewrite length_app, length_take, Hlen. reflexivity.
Qed.

(** C6.  With exactly two players the effect of a REVERSE card is the
    effect of a SKIP card of the same colour: both return the same state,
    with the direction as before.  On a seated table the pointer has
    moved to the other seat, and a further advance brings it back to the
    player who played the card. *)
Theorem reverse_is_skip_for_two (rev skip : Card) (s : GameState) (app : App) :
  length (players s) = 2%nat ->
  type rev = REVERSE ->
  type skip = SKIP ->
  color rev = color skip ->
  handleCardEffect rev s app = handleCardEffect skip s app /\
  exists s' app',
    handleCardEffect rev s app = Some (s', app') /\
    direction s' = direction s /\
    (seated s ->
     currentPlayerIndex s' = seatAfter s /\
     exists s'' app'',
       nextTurn s' app' = Some (s'', app'') /\
       currentPlayerIndex s'' = currentPlayerIndex s).
Proof.
  intros Hlen Hrev Hskip Hcol.
  unfold handleCardEffect. rewrite Hrev, Hskip, Hcol.
  set (newState := if decide (color skip <> BLACK) then _ else s).
  assert (Hplayers : players newState = players s)
    by (unfold newState; destruct (decide _); done).
  assert (Hcur : currentPlayerIndex newState = currentPlayerIndex s)
    by (unfold newState; destruct (decide _); done).
  assert (Hdir : direction newState = direction s)
    by (unfold newState; destruct (decide _); done).
  rewrite Hplayers.
  destruct (decide (length (players s) = 2%nat)) as [_ | Hne]; [| done].
  split; [done |].
  rewrite nextTurn_run. eexists _, _. split; [done |].
  split; [done |]. intros Hseat.
  assert (Hv : victimOf newState = seatAfter s).
  { rewrite <- victimOf_seatAfter by done.
    unfold victimOf. by rewrite Hplayers, Hcur, Hdir. }
  split; [done |].
  rewrite nextTurn_run. eexists _, _. split; [done |].
  cbn [currentPlayerIndex with_currentPlayerIndex].
  unfold victimOf at 1.
  cbn [currentPlayerIndex direction players with_currentPlayerIndex].
  rewrite Hplayers, Hdir, Hv.
  destruct Hseat as [Hin Hsign]. unfold seatAfter. rewrite Hlen in *.
  change (Z.of_nat 2) with 2 in *.
  assert (Hc : currentPlayerIndex s = 0 \/ currentPlayerIndex s = 1) by lia.
  destruct Hc as [-> | ->], Hsign as [-> | ->]; reflexivity.
Qed.

(** ** Scoring *)

Lemma scoreStep_points (total : Z) (c : Card) :
  scoreStep total c = total + cardPoints c.
Proof.
  unfold scoreStep, cardPoints.
  destruct (type c); split_decide; try done; try lia; intuition congruence.
Qed.

Lemma foldl_scoreStep (h : list Card) (total : Z) :
  foldl scoreStep total h = total + sumZ (map cardPoints h).
Proof.
  revert total. induction h as [| c h IH]; intros total; simpl; [lia |].
  rewrite IH, scoreStep_points. lia.
Qed.

(** [calculateHandScore] adds up the points of the cards. *)
Lemma calculateHandScore_sum (h : list Card) :
  calculateHandScore h = sumZ (map cardPoints h).
Proof. unfold calculateHandScore. rewrite foldl_scoreStep. lia. Qed.

Lemma filterByIndex_all {A} (k j : Z) (l : list A) :
  k < j -> filterByIndex (fun i => bool_decide (i <> k)) j l = l.
Proof.
  revert j. induction l as [| x l IH]; intros j Hlt; [done |].
  simpl. rewrite bool_decide_eq_true_2 by lia.
  f_equal. apply IH. lia.
Qed.

(** Filtering out one index is deleting that position. *)
Lemma filterByIndex_delete {A} (k j : Z) (l : list A) :
  j <= k ->
  filterByIndex (fun i => bool_decide (i <> k)) j l = delete (Z.to_nat (k - j)) l.
Proof.
  revert j. induction l as [| x l IH]; intros j Hle; [done |].
  simpl. destruct (decide (j = k)) as [-> | Hne].
  - rewrite bool_decide_eq_false_2 by lia.
    rewrite Z.sub_diag. simpl. apply filterByIndex_all. lia.
  - rewrite bool_decide_eq_true_2 by done.
    rewrite IH by lia.
    replace (Z.to_nat (k - j)) with (S (Z.to_nat (k - (j + 1)))) by lia.
    reflexivity.
Qed.

Lemma foldl_add_sumZ {A} (f : A -> Z) (l : list A) (acc : Z) :
  foldl (fun sum p => sum + f p) acc l = acc + sumZ (map f l).
Proof.
  revert acc. induction l as [| x l IH]; intros acc; simpl; [lia |].
  rewrite IH. lia.
Qed.

Lemma opponentPointsOf_others (ps : list Player) (k : Z) :
  0 <= k -> opponentPointsOf ps k = othersHandValue ps (Z.to_nat k).
Proof.
  intros Hk. unfold opponentPointsOf, othersHandValue.
  rewrite filterByIndex_delete by done. rewrite Z.sub_0_r.
  rewrite foldl_add_sumZ. lia.
Qed.

(** ** Array helpers *)

Lemma nthZ_Some {A} (l : list A) (i : Z) (x : A) :
  nthZ l i = Some x <-> 0 <= i /\ l !! Z.to_nat i = Some x.
Proof. unfold nthZ. destruct (decide (0 <= i)); intuition (try done; lia). Qed.

Lemma nthZ_lt {A} (l : list A) (i : Z) (x : A) :
  nthZ l i = Some x -> 0 <= i < Z.of_nat (length l).
Proof.
  intros [Hi Hl]%nthZ_Some. apply lookup_lt_Some in Hl. lia.
Qed.

Lemma nthZ_insert_eq {A} (l : list A) (i : Z) (x y : A) :
  nthZ l i = Some x -> nthZ (<[Z.to_nat i := y]> l) i = Some y.
Proof.
  intros [Hi Hl]%nthZ_Some. apply nthZ_Some. split; [done |].
  apply list_lookup_insert_eq. by eapply lookup_lt_Some.
Qed.

Lemma nthZ_insert_ne {A} (l : list A) (i j : Z) (y : A) :
  0 <= i -> i <> j -> nthZ (<[Z.to_nat i := y]> l) j = nthZ l j.
Proof.
  intros Hi Hne. unfold nthZ. destruct (decide (0 <= j)); [| done].
  apply list_lookup_insert_ne. lia.
Qed.

Lemma spliceOne_delete {A} (l : list A) (i : Z) (x : A) :
  nthZ l i = Some x -> spliceOne l i = delete (Z.to_nat i) l.
Proof.
  intros Hx. pose proof (nthZ_lt _ _ _ Hx) as Hlt.
  unfold spliceOne, spliceStart.
  destruct (decide (i < 0)); [lia |]. f_equal. lia.
Qed.

Lemma findIndex_ge {A} (p : A -> bool) (l : list A) : -1 <= findIndex p l.
Proof.
  induction l as [| x l IH]; simpl; [lia |].
  destruct (p x); [lia |]. destruct (decide _); lia.
Qed.

Lemma findIndex_none {A} (p : A -> bool) (l : list A) :
  findIndex p l = -1 <-> Forall (fun x => p x = false) l.
Proof.
  induction l as [| x l IH]; simpl.
  - split; [constructor | done].
  - destruct (p x) eqn:Hp.
    + split; [lia |]. intros Hall. apply Forall_cons in Hall as [Hx _]. congruence.
    + destruct (decide (findIndex p l = -1)) as [He | Hne].
      * split; [| done]. intros _. constructor; [done | by apply IH].
      * pose proof (findIndex_ge p l). split; [lia |].
        intros Hall. apply Forall_cons in Hall as [_ Hl]. by apply IH in Hl.
Qed.

Lemma findIndex_found {A} (p : A -> bool) (l : list A) (k : Z) :
  findIndex p l = k -> k <> -1 ->
  exists x, nthZ l k = Some x /\ p x = true.
Proof.
  revert k. induction l as [| x l IH]; intros k Hk Hne; simpl in Hk; [lia |].
  destruct (p x) eqn:Hp.
  - subst k. by exists x.
  - destruct (decide (findIndex p l = -1)) as [He | Hn]; [lia |].
    destruct (IH _ eq_refl Hn) as (y & Hy & Hpy).
    exists y. split; [| done]. subst k.
    apply nthZ_Some in Hy as [Hge Hy]. apply nthZ_Some. split; [lia |].
    replace (Z.to_nat (findIndex p l + 1)) with (S (Z.to_nat (findIndex p l)))
      by lia.
    done.
Qed.

(** ** Where the cards are *)

Lemma handsOf_lookup (ps : list Player) (i : nat) (p : Player) :
  ps !! i = Some p -> handsOf ps ≡ₚ hand p ++ handsOf (delete i ps).
Proof.
  intros Hp. unfold handsOf.
  rewrite <- (take_drop_middle ps i p) at 1 by done.
  rewrite delete_take_drop.
  rewrite !map_app, !concat_app. simpl.
  rewrite (assoc app). rewrite (comm app _ (hand p)). by rewrite <- (assoc app).
Qed.

Lemma handsOf_insert (ps : list Player) (i : nat) (p q : Player) :
  ps !! i = Some p ->
  handsOf (<[i := q]> ps) ≡ₚ hand q ++ handsOf (delete i ps).
Proof.
  intros Hp. apply lookup_lt_Some in Hp as Hlt.
  rewrite (handsOf_lookup (<[i := q]> ps) i q)
    by (by apply list_lookup_insert_eq).
  rewrite !delete_take_drop, take_insert_ge, drop_insert_lt by lia.
  done.
Qed.

Lemma handsOf_same_hand (ps : list Player) (i : nat) (p q : Player) :
  ps !! i = Some p -> hand q = hand p -> handsOf (<[i := q]> ps) = handsOf ps.
Proof.
  intros Hp Hq. unfold handsOf. rewrite list_fmap_insert, Hq.
  rewrite list_insert_id; [done |]. by rewrite list_lookup_fmap, Hp.
Qed.

(** ** [finalizeMove], piece by piece *)

Lemma with_aiComment_id (s : GameState) : with_aiComment s (aiComment s) = s.
Proof. by destruct s. Qed.

Lemma getRandom_run (arr : list string) (app : App) :
  exists o r', getRandom arr app = Some (o, with_random app r').
Proof. unfold getRandom. hsimpl. by eexists _, _. Qed.

(** On a non-empty table the index is inside it: a string comes back. *)
Lemma getRandom_defined (arr : list string) (a : App) :
  arr <> [] -> exists c r', getRandom arr a = Some (Some c, with_random a r').
Proof.
  intros Hne. unfold getRandom. hsimpl.
  assert (Hlt : ((randomBelow (length arr) (random a)).1 < length arr)%nat).
  { apply randomBelow_lt. destruct arr; [done | simpl; lia]. }
  apply lookup_lt_is_Some in Hlt as [c Hc].
  exists c, (randomBelow (length arr) (random a)).2. by rewrite Hc.
Qed.

Lemma getAiReactionToHumanMove_run (card : Card) (w : WittinessLevel) (n : Z)
  (app : App) :
  exists o r', getAiReactionToHumanMove card w n app = Some (o, with_random app r').
Proof.
  unfold getAiReactionToHumanMove.
  split_decide; try apply getRandom_run.
  exists None, (random app). by rewrite with_random_id.
Qed.

(** The commentary step only writes [aiComment] and only consumes random
    numbers; it throws exactly when it needs the second player (the
    computer's hand size, in AI mode after a human move) and there is
    none. *)
Lemma moveComment_inv mode card pl idx st app st' app' :
  moveComment mode card pl idx st app = Some (st', app') ->
  exists c r', st' = with_aiComment st c /\ app' = with_random app r'.
Proof.
  unfold moveComment.
  destruct (bool_decide (mode = AI) && negb (isAi pl)).
  - intros (ai & app1 & Hai & Hk)%bind_Some.
    apply defined_Some in Hai as [_ ->].
    hsimpl_in Hk.
    destruct (getAiReactionToHumanMove_run card (wittinessLevel app)
                (Z.of_nat (length (hand ai))) app) as (o & r' & Hrun).
    rewrite Hrun in Hk. simplify_eq.
    exists (match o with
            | Some c => if decide (c = "") then aiComment st else c
            | None => aiComment st
            end), r'.
    split; [| done].
    destruct o as [c |]; [destruct (decide (c = "")) |];
      by rewrite ?with_aiComment_id.
  - destruct (bool_decide (mode = ONLINE)); [| destruct (bool_decide (mode = LOCAL))];
      hsimpl; intros [= <- <-].
    + eexists _, (random app). by rewrite with_random_id.
    + eexists _, (random app). by rewrite with_random_id.
    + exists (aiComment st), (random app).
      by rewrite with_random_id, with_aiComment_id.
Qed.

Lemma moveComment_total mode card pl idx st app :
  (2 <= length (players st))%nat ->
  exists st' app', moveComment mode card pl idx st app = Some (st', app').
Proof.
  intros Hlen. unfold moveComment.
  destruct (bool_decide (mode = AI) && negb (isAi pl)).
  - destruct (players st !! 1%nat) as [ai |] eqn:Hai.
    + assert (Hn : nthZ (players st) 1 = Some ai) by (by apply nthZ_Some).
      rewrite Hn. hsimpl.
      destruct (getAiReactionToHumanMove_run card (wittinessLevel app)
                  (Z.of_nat (length (hand ai))) app) as (o & r' & Hrun).
      rewrite Hrun. by eexists _, _.
    + apply lookup_ge_None in Hai. lia.
  - destruct (bool_decide (mode = ONLINE)); [| destruct (bool_decide (mode = LOCAL))];
      hsimpl; by eexists _, _.
Qed.

Lemma finalizeMove_client card index w ov app :
  isClient app = true ->
  finalizeMove card index w ov app =
  Some (tt, if connected app
            then with_sent app (sent app ++ [PLAYER_MOVE (card_id card) w])
            else app).
Proof. intros Hc. unfold finalizeMove, isClient in *. hsimpl. by rewrite Hc. Qed.

Lemma finalizeMove_unfold card index w ov app p :
  isClient app = false ->
  let s := default (gameState app) ov in
  nthZ (players s) (currentPlayerIndex s) = Some p ->
  let p' := with_hand p (spliceOne (hand p) index) in
  finalizeMove card index w ov app =
  (moveComment (gameMode app) card p' (currentPlayerIndex s)
     (afterPlay card index w s p)
   ≫= fun newState =>
        if decide (length (hand p') = 0%nat) then
          roundWon (gameMode app) (isHost app) p' (currentPlayerIndex s) newState
        else
          newState ← handleCardEffect card newState;
          newState ← nextTurn newState;
          setGameState newState;;
          setPendingWildCard None;;
          when_ (bool_decide (gameMode app = ONLINE) && isHost app)
            (sendMultiplayerMessage (STATE_UPDATE newState)))
    (if isAi p then app else with_humanMoves app (humanMoves app ++ [card])).
Proof.
  intros Hc s Hp p'. unfold finalizeMove, isClient in *. hsimpl.
  rewrite Hc. fold s. cbn [currentPlayerIndex with_discardPile players].
  rewrite Hp. cbn beta iota.
  unfold afterPlay. fold p'.
  destruct (isAi p) eqn:Hai; cbn [isAi with_hand p' negb];
    rewrite ?Hai; cbn [negb]; reflexivity.
Qed.

(** The last three statements of [finalizeMove]: store the state, close
    the colour picker, broadcast when hosting. *)
Lemma commit_run (st : GameState) (b : bool) (app : App) :
  exists app',
    (setGameState st;; setPendingWildCard None;;
     when_ b (sendMultiplayerMessage (STATE_UPDATE st))) app = Some (tt, app') /\
    gameState app' = st /\
    pendingWildCard app' = None.
Proof.
  hsimpl. destruct b; [destruct (connected app) eqn:Hconn |];
    eexists; (split; [reflexivity |]); cbn; rewrite ?Hconn; done.
Qed.

Lemma afterPlay_players card index w s p :
  players (afterPlay card index w s p) =
  <[Z.to_nat (currentPlayerIndex s) := with_hand p (spliceOne (hand p) index)]>
    (players s).
Proof. unfold afterPlay. destruct w; [destruct (decide _) |]; done. Qed.

Lemma afterPlay_discardPile card index w s p :
  discardPile (afterPlay card index w s p) = discardPile s ++ [card].
Proof. unfold afterPlay. destruct w; [destruct (decide _) |]; done. Qed.

Lemma afterPlay_deck card index w s p :
  deck (afterPlay card index w s p) = deck s.
Proof. unfold afterPlay. destruct w; [destruct (decide _) |]; done. Qed.

Lemma afterPlay_currentPlayerIndex card index w s p :
  currentPlayerIndex (afterPlay card index w s p) = currentPlayerIndex s.
Proof. unfold afterPlay. destruct w; [destruct (decide _) |]; done. Qed.

Lemma afterPlay_direction card index w s p :
  direction (afterPlay card index w s p) = direction s.
Proof. unfold afterPlay. destruct w; [destruct (decide _) |]; done. Qed.

Lemma afterPlay_isAiThinking card index w s p :
  isAiThinking (afterPlay card index w s p) = isAiThinking s.
Proof. unfold afterPlay. destruct w; [destruct (decide _) |]; done. Qed.

Lemma afterPlay_currentColor card index w s p :
  currentColor (afterPlay card index w s p) =
  match w with
  | Some c => if decide (color card = BLACK) then c else currentColor s
  | None => currentColor s
  end.
Proof. unfold afterPlay. destruct w; [destruct (decide _) |]; done. Qed.

Lemma delete_insert_same {A} (l : list A) (k : nat) (x : A) :
  delete k (<[k := x]> l) = delete k l.
Proof.
  rewrite !delete_take_drop.
  by rewrite take_insert_ge, drop_insert_lt by lia.
Qed.

(** The state stored by the win branch, field by field. *)
Lemma roundWon_run mode host pl idx st app :
  exists app',
    roundWon mode host pl idx st app = Some (tt, app') /\
    let pts := opponentPointsOf (players st) idx in
    let over := bool_decide (score pl + pts >= targetScore app) in
    let g := gameState app' in
    deck g = deck st /\
    discardPile g = discardPile st /\
    players g = <[Z.to_nat idx := with_score pl (score pl + pts)]> (players st) /\
    currentPlayerIndex g = currentPlayerIndex st /\
    direction g = direction st /\
    currentColor g = currentColor st /\
    isAiThinking g = isAiThinking st /\
    status g = (if over then GAME_OVER else ROUND_OVER) /\
    winner g = (if over then Some (name pl) else winner st) /\
    aiComment g = (if over then "Game Over!" else "Round Over!") /\
    roundWinner g = Some (name pl) /\
    pointsWon g = Some pts /\
    random app' = random app /\
    pendingWildCard app' = pendingWildCard app /\
    (sent app' = sent app \/ sent app' = sent app ++ [STATE_UPDATE g]).
Proof.
  unfold roundWon. hsimpl. cbn [score with_score name].
  destruct (bool_decide (score pl + opponentPointsOf (players st) idx
                         >= targetScore app)) eqn:Hover.
  - hsimpl.
    destruct (bool_decide (mode = AI)), (bool_decide (mode = ONLINE)), host;
      cbn [andb]; try destruct (connected app) eqn:Hconn;
      eexists; (split; [reflexivity |]); cbn; rewrite ?Hconn; cbn; rewrite ?Hover;
      repeat split; auto.
  - hsimpl.
    destruct (bool_decide (mode = ONLINE)), host;
      cbn [andb]; try destruct (connected app) eqn:Hconn;
      eexists; (split; [reflexivity |]); cbn; rewrite ?Hconn; cbn; rewrite ?Hover;
      repeat split; auto.
Qed.

(** A play that empties the hand: [finalizeMove] returns, and the stored
    state is described field by field. *)
Lemma finalizeMove_win card index w ov app p :
  isClient app = false ->
  let s := default (gameState app) ov in
  (2 <= length (players s))%nat ->
  nthZ (players s) (currentPlayerIndex s) = Some p ->
  spliceOne (hand p) index = [] ->
  exists app',
    finalizeMove card index w ov app = Some (tt, app') /\
    let k := Z.to_nat (currentPlayerIndex s) in
    let pts := othersHandValue (players s) k in
    let over := bool_decide (score p + pts >= targetScore app) in
    let g := gameState app' in
    deck g = deck s /\
    discardPile g = discardPile s ++ [card] /\
    players g = <[k := with_score (with_hand p []) (score p + pts)]> (players s) /\
    currentPlayerIndex g = currentPlayerIndex s /\
    direction g = direction s /\
    currentColor g =
      match w with
      | Some c => if decide (color card = BLACK) then c else currentColor s
      | None => currentColor s
      end /\
    isAiThinking g = isAiThinking s /\
    status g = (if over then GAME_OVER else ROUND_OVER) /\
    winner g = (if over then Some (name p) else winner s) /\
    aiComment g = (if over then "Game Over!" else "Round Over!") /\
    roundWinner g = Some (name p) /\
    pointsWon g = Some pts.
Proof.
  intros Hc s Hlen Hp Hempty.
  rewrite (finalizeMove_unfold card index w ov app p Hc Hp). fold s.
  rewrite Hempty.
  set (app0 := if isAi p then app else _).
  assert (Htarget : targetScore app0 = targetScore app)
    by (unfold app0; by destruct (isAi p)).
  destruct (moveComment_total (gameMode app) card (with_hand p [])
              (currentPlayerIndex s) (afterPlay card index w s p) app0)
    as (st1 & app1 & Hmc).
  { by rewrite afterPlay_players, length_insert. }
  rewrite (bind_run _ _ _ _ _ Hmc).
  apply moveComment_inv in Hmc as (c & r' & -> & ->).
  cbn [hand with_hand length]. destruct (decide (0%nat = 0%nat)) as [_ | ?]; [| done].
  destruct (roundWon_run (gameMode app) (isHost app) (with_hand p [])
              (currentPlayerIndex s) (with_aiComment (afterPlay card index w s p) c)
              (with_random app0 r'))
    as (app' & Hrun & Hd & Hdp & Hpl & Hcur & Hdir & Hcol & Hth & Hst & Hwin
        & Hcom & Hrw & Hpw & _).
  exists app'. split; [exact Hrun |]. cbn zeta.
  pose proof (nthZ_lt _ _ _ Hp) as Hrange.
  cbn [players deck discardPile currentPlayerIndex direction currentColor
       isAiThinking winner with_aiComment targetScore with_random score name
       with_hand] in *.
  rewrite afterPlay_players in *. rewrite Hempty in *.
  rewrite Htarget in *.
  rewrite opponentPointsOf_others in * by lia.
  unfold othersHandValue in *. rewrite delete_insert_same in *.
  rewrite list_insert_insert_eq in Hpl.
  rewrite Hd, Hdp, Hpl, Hcur, Hdir, Hcol, Hth, Hst, Hwin, Hcom, Hrw, Hpw.
  rewrite afterPlay_deck, afterPlay_discardPile, afterPlay_currentPlayerIndex,
    afterPlay_direction, afterPlay_currentColor, afterPlay_isAiThinking.
  unfold afterPlay. destruct w as [c0 |]; [destruct (decide (color card = BLACK)) |];
    repeat split; reflexivity.
Qed.

(** C4.  [calculateHandScore] adds face values, 20 per skip, reverse and
    draw-two, 50 per wild card.  When a play empties the hand of the player
    to move, [finalizeMove] returns, that player's score has grown by the
    hand values of all the other players, and the status is game-over
    exactly when the new score reaches the target score, round-over
    otherwise. *)
Theorem winning_play_scores card index w ov app p :
  isClient app = false ->
  let s := default (gameState app) ov in
  (2 <= length (players s))%nat ->
  nthZ (players s) (currentPlayerIndex s) = Some p ->
  spliceOne (hand p) index = [] ->
  (forall h, calculateHandScore h = sumZ (map cardPoints h)) /\
  exists app' p',
    finalizeMove card index w ov app = Some (tt, app') /\
    nthZ (players (gameState app')) (currentPlayerIndex s) = Some p' /\
    score p' =
      score p + othersHandValue (players s) (Z.to_nat (currentPlayerIndex s)) /\
    (status (gameState app') = GAME_OVER <-> score p' >= targetScore app) /\
    (status (gameState app') = ROUND_OVER <-> ~ score p' >= targetScore app).
Proof.
  intros Hc s Hlen Hp Hempty.
  split; [apply calculateHandScore_sum |].
  destruct (finalizeMove_win card index w ov app p Hc Hlen Hp Hempty)
    as (app' & Hrun & _ & _ & Hpl & _ & _ & _ & _ & Hst & _).
  fold s in Hpl, Hst.
  eexists app', _. split; [exact Hrun |].
  split; [rewrite Hpl; by eapply nthZ_insert_eq |].
  split; [reflexivity |].
  rewrite Hst. cbn [score with_score].
  destruct (bool_decide _) eqn:Hover.
  - apply bool_decide_eq_true in Hover. split; split; try done; intros; tauto.
  - apply bool_decide_eq_false in Hover. split; split; try done; intros; tauto.
Qed.

(** C10, amended.  When a play empties the hand of the player to move,
    the card's effect is not resolved: the deck, the direction, the
    pointer and every other player are as before, the card is on the
    pile, the winner keeps identity and has an empty hand.  The active
    colour changes only when the card is wild and was played with a
    chosen colour. *)
Theorem winning_play_frame card index w ov app p :
  isClient app = false ->
  let s := default (gameState app) ov in
  (2 <= length (players s))%nat ->
  nthZ (players s) (currentPlayerIndex s) = Some p ->
  spliceOne (hand p) index = [] ->
  exists app' p',
    finalizeMove card index w ov app = Some (tt, app') /\
    let g := gameState app' in
    deck g = deck s /\
    direction g = direction s /\
    currentPlayerIndex g = currentPlayerIndex s /\
    length (players g) = length (players s) /\
    (forall j, j <> currentPlayerIndex s -> nthZ (players g) j = nthZ (players s) j) /\
    nthZ (players g) (currentPlayerIndex s) = Some p' /\
    hand p' = [] /\
    (player_id p', name p', isAi p', avatar p') =
      (player_id p, name p, isAi p, avatar p) /\
    discardPile g = discardPile s ++ [card] /\
    isAiThinking g = isAiThinking s /\
    currentColor g =
      match w with
      | Some c => if decide (color card = BLACK) then c else currentColor s
      | None => currentColor s
      end.
Proof.
  intros Hc s Hlen Hp Hempty.
  destruct (finalizeMove_win card index w ov app p Hc Hlen Hp Hempty)
    as (app' & Hrun & Hd & Hdp & Hpl & Hcur & Hdir & Hcol & Hth & _).
  fold s in Hd, Hdp, Hpl, Hcur, Hdir, Hcol, Hth.
  pose proof (nthZ_lt _ _ _ Hp) as Hrange.
  exists app',
    (with_score (with_hand p [])
       (score p + othersHandValue (players s) (Z.to_nat (currentPlayerIndex s)))).
  split; [exact Hrun |]. cbn zeta.
  rewrite Hd, Hdp, Hpl, Hcur, Hdir, Hcol, Hth.
  repeat split.
  - by rewrite length_insert.
  - intros j Hj. apply nthZ_insert_ne; [lia | done].
  - by eapply nthZ_insert_eq.
Qed.

(** ** Forced draws *)

Lemma victimOf_ext (s1 s2 : GameState) :
  length (players s1) = length (players s2) ->
  currentPlayerIndex s1 = currentPlayerIndex s2 ->
  direction s1 = direction s2 ->
  victimOf s1 = victimOf s2.
Proof. intros Hl Hc Hd. unfold victimOf. by rewrite Hl, Hc, Hd. Qed.

(** The effect of a draw-two ([n = 2]) or wild-draw-four ([n = 4]) on a
    seated table: the neighbour receives the first cards of the deck
    (reshuffled when short), as many as there are up to [n], and the
    pointer moves onto that neighbour. *)
Lemma handleCardEffect_draw card n st app v :
  (type card = DRAW_TWO /\ n = 2 \/ type card = WILD_DRAW_FOUR /\ n = 4) ->
  nthZ (players st) (victimOf st) = Some v ->
  exists st' app' drawn,
    handleCardEffect card st app = Some (st', app') /\
    players st' = <[Z.to_nat (victimOf st) := with_hand v (hand v ++ drawn)]> (players st) /\
    length drawn =
      Nat.min (Z.to_nat n) (availableToDraw n st) /\
    currentPlayerIndex st' = victimOf st /\
    direction st' = direction st.
Proof.
  intros Hty Hv. unfold handleCardEffect.
  set (st0 := if decide (color card <> BLACK) then _ else st).
  assert (Hps : players st0 = players st) by (unfold st0; by destruct (decide _)).
  assert (Hcur : currentPlayerIndex st0 = currentPlayerIndex st)
    by (unfold st0; by destruct (decide _)).
  assert (Hdir : direction st0 = direction st) by (unfold st0; by destruct (decide _)).
  assert (Hdk : deck st0 = deck st) by (unfold st0; by destruct (decide _)).
  assert (Hdp : discardPile st0 = discardPile st) by (unfold st0; by destruct (decide _)).
  assert (Hvic : victimOf st0 = victimOf st)
    by (apply victimOf_ext; congruence).
  assert (Hgoal : exists st' app' drawn,
    (drawCards (victimOf st0) n st0 ≫= nextTurn) app = Some (st', app') /\
    players st' = <[Z.to_nat (victimOf st) := with_hand v (hand v ++ drawn)]> (players st) /\
    length drawn =
      Nat.min (Z.to_nat n) (availableToDraw n st) /\
    currentPlayerIndex st' = victimOf st /\
    direction st' = direction st).
  { destruct (drawCards_eq (victimOf st0) n st0 app)
      as (avail & pile & r' & Hcase & Heq).
    cbn zeta in Heq. rewrite Hvic, Hps, Hv in Heq. rewrite Hvic.
    assert (Hn : 0 < n) by (destruct Hty as [[_ ->] | [_ ->]]; lia).
    assert (Havail : length avail = availableToDraw n st).
    { rewrite Hdk, Hdp in Hcase. unfold availableToDraw.
      destruct Hcase as [(Hs & Hl & rest & top & Hsplit & -> & _) | (Hno & -> & _)].
      - destruct (decide (_ /\ _)) as [_ | Hx]; [| tauto].
        rewrite length_app, sortRandomly_perm, Hsplit, length_app. simpl. lia.
      - destruct (decide (_ /\ _)) as [Hx | _]; [tauto | done]. }
    rewrite <- Havail.
    set (k := Z.to_nat (Z.min n (Z.of_nat (length avail)))) in *.
    destruct (decide (0 < k)%nat) as [Hk | Hk].
    - rewrite (bind_run _ _ _ _ _ Heq), nextTurn_run.
      eexists _, _, (take k avail). split; [reflexivity |].
      cbn [players with_currentPlayerIndex with_discardPile with_players
           currentPlayerIndex direction with_deck].
      split; [done |]. split; [rewrite length_take; lia |].
      split; [| done].
      apply victimOf_ext; cbn [players with_discardPile with_players
        currentPlayerIndex direction with_deck]; rewrite ?length_insert;
        congruence.
    - rewrite (bind_run _ _ _ _ _ Heq), nextTurn_run.
      eexists _, _, []. split; [reflexivity |].
      cbn [players with_currentPlayerIndex with_discardPile with_players
           currentPlayerIndex direction with_deck].
      split.
      { rewrite app_nil_r. symmetry. apply list_insert_id.
        apply nthZ_Some in Hv as [_ Hv]. rewrite Hv. by destruct v. }
      split; [simpl; lia |].
      split; [| done].
      apply victimOf_ext; cbn [players with_discardPile with_players
        currentPlayerIndex direction with_deck]; congruence. }
  destruct Hty as [[-> ->] | [-> ->]]; exact Hgoal.
Qed.

(** Two advances in a row: the pointer lands two seats further, which
    is never the seat in between, and is the starting seat when two
    players sit at the table. *)
Lemma victimOf_twice (s s1 : GameState) :
  seated s ->
  (2 <= length (players s))%nat ->
  length (players s1) = length (players s) ->
  direction s1 = direction s ->
  currentPlayerIndex s1 = victimOf s ->
  victimOf s1 =
    (currentPlayerIndex s + 2 * direction s) `mod` Z.of_nat (length (players s)) /\
  victimOf s1 <> victimOf s /\
  (length (players s) = 2%nat -> victimOf s1 = currentPlayerIndex s).
Proof.
  intros Hseat Hlen Hl Hd Hc.
  pose proof (victimOf_range s (proj1 Hseat) (proj2 Hseat)) as Hr.
  assert (Hseat1 : seated s1).
  { split; [rewrite Hl, Hc; done | rewrite Hd; apply Hseat]. }
  split; [| split].
  - rewrite (victimOf_seatAfter s1 Hseat1). unfold seatAfter.
    rewrite Hc, Hl, Hd, (victimOf_seatAfter s Hseat). unfold seatAfter.
    rewrite Z.add_mod_idemp_l by lia. f_equal. lia.
  - destruct Hseat as [Hin Hsign].
    unfold victimOf at 1. rewrite Hc, Hl, Hd. split_decide; lia.
  - intros H2. destruct Hseat as [Hin Hsign].
    unfold victimOf at 1. rewrite Hc, Hl, Hd. unfold victimOf.
    rewrite H2 in *. change (Z.of_nat 2) with 2 in *. split_decide; lia.
Qed.

(** C5, amended.  A draw-two ([n = 2]) or wild-draw-four ([n = 4]) that
    does not empty the hand: [finalizeMove] returns; the player in the
    next seat gains [min n (deck + discard pile before the play)] cards,
    which is [n] whenever that many cards are there; the pointer ends two
    seats further, past the player who drew, and with two players it is
    back on the player who played the card. *)
Theorem draw_penalty_and_skip card index w ov app p n :
  isClient app = false ->
  let s := default (gameState app) ov in
  seated s ->
  (2 <= length (players s))%nat ->
  nthZ (players s) (currentPlayerIndex s) = Some p ->
  spliceOne (hand p) index <> [] ->
  (type card = DRAW_TWO /\ n = 2 \/ type card = WILD_DRAW_FOUR /\ n = 4) ->
  exists app' v v',
    finalizeMove card index w ov app = Some (tt, app') /\
    let g := gameState app' in
    let reach := (length (deck s) + length (discardPile s))%nat in
    nthZ (players s) (seatAfter s) = Some v /\
    nthZ (players g) (seatAfter s) = Some v' /\
    length (hand v') = (length (hand v) + Nat.min (Z.to_nat n) reach)%nat /\
    ((Z.to_nat n <= reach)%nat ->
     length (hand v') = (length (hand v) + Z.to_nat n)%nat) /\
    currentPlayerIndex g =
      (currentPlayerIndex s + 2 * direction s) `mod` Z.of_nat (length (players s)) /\
    currentPlayerIndex g <> seatAfter s /\
    (length (players s) = 2%nat -> currentPlayerIndex g = currentPlayerIndex s).
Proof.
  intros Hc s Hseat Hlen Hp Hnonempty Hty.
  rewrite (finalizeMove_unfold card index w ov app p Hc Hp). fold s.
  set (p' := with_hand p (spliceOne (hand p) index)).
  set (app0 := if isAi p then app else _).
  destruct (moveComment_total (gameMode app) card p' (currentPlayerIndex s)
              (afterPlay card index w s p) app0) as (st1 & app1 & Hmc).
  { by rewrite afterPlay_players, length_insert. }
  rewrite (bind_run _ _ _ _ _ Hmc).
  apply moveComment_inv in Hmc as (c & r' & -> & ->).
  set (st1 := with_aiComment (afterPlay card index w s p) c).
  destruct (decide (length (hand p') = 0%nat)) as [Hz | _].
  { apply nil_length_inv in Hz. done. }
  pose proof (victimOf_range s (proj1 Hseat) (proj2 Hseat)) as Hvr.
  pose proof (victimOf_seatAfter s Hseat) as Hsa.
  assert (Hps1 : players st1 =
                 <[Z.to_nat (currentPlayerIndex s) := p']> (players s))
    by (unfold st1; cbn [players with_aiComment]; apply afterPlay_players).
  assert (Hcur1 : currentPlayerIndex st1 = currentPlayerIndex s)
    by (unfold st1; cbn [currentPlayerIndex with_aiComment];
        apply afterPlay_currentPlayerIndex).
  assert (Hdir1 : direction st1 = direction s)
    by (unfold st1; cbn [direction with_aiComment]; apply afterPlay_direction).
  assert (Hv1 : victimOf st1 = victimOf s).
  { apply victimOf_ext; rewrite ?Hps1, ?length_insert; congruence. }
  assert (Hne : victimOf s <> currentPlayerIndex s).
  { destruct Hseat as [Hin Hsign]. unfold victimOf. split_decide; lia. }
  destruct (nthZ (players s) (victimOf s)) as [v |] eqn:Hv.
  2: { unfold nthZ in Hv. destruct (decide (0 <= victimOf s)); [| lia].
       apply lookup_ge_None in Hv. lia. }
  assert (Hv' : nthZ (players st1) (victimOf st1) = Some v).
  { pose proof (proj1 Hseat) as Hin.
    rewrite Hv1, Hps1, nthZ_insert_ne; [done | lia | congruence]. }
  destruct (handleCardEffect_draw card n st1 (with_random app0 r') v Hty Hv')
    as (st2 & app2 & drawn & Hrun & Hps2 & Hdrawn & Hcur2 & Hdir2).
  rewrite (bind_run _ _ _ _ _ Hrun).
  rewrite (bind_run _ _ _ _ _ (nextTurn_run st2 app2)).
  destruct (commit_run (with_currentPlayerIndex st2 (victimOf st2))
              (bool_decide (gameMode app = ONLINE) && isHost app)
              (if bool_decide (gameMode app2 = LOCAL)
               then with_showLocalIntermission app2 true else app2))
    as (app' & Hcommit & Hg & _).
  rewrite Hcommit.
  exists app', v, (with_hand v (hand v ++ drawn)).
  split; [reflexivity |]. cbn zeta.
  rewrite Hg. cbn [players currentPlayerIndex with_currentPlayerIndex].
  rewrite <- Hsa.
  assert (Hreach : Nat.min (Z.to_nat n) (availableToDraw n st1) =
                   Nat.min (Z.to_nat n) (length (deck s) + length (discardPile s))).
  { unfold availableToDraw, st1. cbn [deck discardPile with_aiComment].
    rewrite afterPlay_deck, afterPlay_discardPile, length_app. simpl.
    destruct (decide (_ /\ _)) as [[Hs Hl] | Hno]; [lia |].
    destruct (decide (Z.of_nat (length (deck s)) < n)); [| lia].
    assert (length (discardPile s) = 0%nat) by lia. lia. }
  split; [done |].
  split; [rewrite Hps2, Hv1; rewrite Hv1 in Hv'; by eapply nthZ_insert_eq |].
  split; [cbn [hand with_hand]; rewrite length_app, Hdrawn, Hreach; done |].
  split; [intros Hle; cbn [hand with_hand]; rewrite length_app, Hdrawn, Hreach; lia |].
  assert (Hl2 : length (players st2) = length (players s))
    by (rewrite Hps2, Hps1, !length_insert; done).
  apply (victimOf_twice s st2 Hseat Hlen Hl2); congruence.
Qed.

End EngineFacts.

(** ** Card conservation *)

Section Conservation.
Context `{ArraySort}.

Lemma perm_rotate {A} (t d pl h r : list A) :
  d ++ pl ++ (h ++ t) ++ r ≡ₚ ((t ++ d) ++ pl) ++ h ++ r.
Proof.
  rewrite <- !(assoc (++)). symmetry.
  rewrite (Permutation_app_swap_app t d). f_equiv.
  rewrite (Permutation_app_swap_app t pl). f_equiv.
  by rewrite (Permutation_app_swap_app t h).
Qed.

Lemma allCards_insert_hand (s : GameState) (d pile : list Card) (i : nat)
  (p : Player) (h : list Card) :
  players s !! i = Some p ->
  allCards (with_discardPile
              (with_players (with_deck s d) (<[i := with_hand p h]> (players s)))
              pile)
  ≡ₚ d ++ pile ++ h ++ handsOf (delete i (players s)).
Proof.
  intros Hp. unfold allCards.
  cbn [deck discardPile players with_discardPile with_players with_deck].
  by rewrite (handsOf_insert _ _ p).
Qed.

Lemma allCards_lookup (s : GameState) (i : nat) (p : Player) :
  players s !! i = Some p ->
  allCards s ≡ₚ deck s ++ discardPile s ++ hand p ++ handsOf (delete i (players s)).
Proof. intros Hp. unfold allCards. by rewrite (handsOf_lookup _ i p). Qed.

(** [drawCards] moves cards between deck, pile and one hand and neither
    drops nor copies any. *)
Lemma drawCards_cards (i n : Z) (s s' : GameState) (a a' : App) :
  drawCards i n s a = Some (s', a') -> allCards s' ≡ₚ allCards s.
Proof.
  intros Hrun.
  destruct (drawCards_eq i n s a) as (avail & pile & r' & Hcase & Heq).
  rewrite Hrun in Heq. cbn zeta in Heq.
  assert (Hsame : avail ++ pile ≡ₚ deck s ++ discardPile s).
  { destruct Hcase as [(_ & _ & rest & top & Hsplit & -> & -> & _) | (_ & -> & -> & _)];
      [| done].
    rewrite Hsplit, sortRandomly_perm. by rewrite <- (assoc (++)). }
  set (k := Z.to_nat (Z.min n (Z.of_nat (length avail)))) in *.
  destruct (decide (0 < k)%nat) as [Hk | Hk].
  - destruct (nthZ (players s) i) as [p |] eqn:Hp; [| done].
    apply nthZ_Some in Hp as [_ Hp]. simplify_eq.
    rewrite (allCards_insert_hand _ _ _ _ p) by done.
    rewrite (allCards_lookup s _ p Hp).
    rewrite perm_rotate, take_drop, Hsame.
    by rewrite <- (assoc (++)).
  - simplify_eq. unfold allCards.
    cbn [deck discardPile players with_discardPile with_players with_deck].
    by rewrite !(assoc (++)), Hsame.
Qed.

Lemma nextTurn_cards (s s' : GameState) (a a' : App) :
  nextTurn s a = Some (s', a') -> allCards s' = allCards s.
Proof. rewrite nextTurn_run. by intros [= <- _]. Qed.

Lemma handleCardEffect_cards (card : Card) (s s' : GameState) (a a' : App) :
  handleCardEffect card s a = Some (s', a') -> allCards s' ≡ₚ allCards s.
Proof.
  unfold handleCardEffect.
  set (s0 := if decide (color card <> BLACK) then _ else s).
  assert (H0 : allCards s0 = allCards s) by (unfold s0; by destruct (decide _)).
  rewrite <- H0.
  destruct (type card).
  - by intros [= <- _].
  - intros Hn. by rewrite (nextTurn_cards _ _ _ _ Hn).
  - destruct (decide (length _ = _)).
    + intros Hn. by rewrite (nextTurn_cards _ _ _ _ Hn).
    + by intros [= <- _].
  - intros (s1 & app1 & Hd & Hn)%bind_Some.
    rewrite (nextTurn_cards _ _ _ _ Hn). by eapply drawCards_cards.
  - by intros [= <- _].
  - intros (s1 & app1 & Hd & Hn)%bind_Some.
    rewrite (nextTurn_cards _ _ _ _ Hn). by eapply drawCards_cards.
Qed.

Lemma afterPlay_cards card index w s p :
  nthZ (players s) (currentPlayerIndex s) = Some p ->
  nthZ (hand p) index = Some card ->
  allCards (afterPlay card index w s p) ≡ₚ allCards s.
Proof.
  intros Hp Hcard. unfold allCards.
  rewrite afterPlay_deck, afterPlay_discardPile, afterPlay_players.
  rewrite (spliceOne_delete _ _ _ Hcard).
  apply nthZ_Some in Hp as [_ Hp]. apply nthZ_Some in Hcard as [_ Hcard].
  rewrite (handsOf_insert _ _ p) by done.
  rewrite (handsOf_lookup (players s) _ p Hp).
  cbn [hand with_hand].
  rewrite (delete_Permutation (hand p) _ card Hcard) at 2.
  rewrite <- !(assoc (++)). by do 2 f_equiv.
Qed.

Lemma drawCards_currentPlayerIndex (i n : Z) (s s' : GameState) (a a' : App) :
  drawCards i n s a = Some (s', a') ->
  currentPlayerIndex s' = currentPlayerIndex s /\ gameState a' = gameState a.
Proof.
  intros Hrun.
  destruct (drawCards_eq i n s a) as (avail & pile & r' & _ & Heq).
  rewrite Hrun in Heq. cbn zeta in Heq.
  destruct (decide _); [destruct (nthZ (players s) i) |]; by simplify_eq.
Qed.

(** A play of the card found at [index] of the hand of the player to move
    keeps every card: on a follower nothing is stored, elsewhere the
    stored state holds the cards of the state played from. *)
Lemma finalizeMove_cards card index w ov (a a' : App) p :
  let s := default (gameState a) ov in
  nthZ (players s) (currentPlayerIndex s) = Some p ->
  nthZ (hand p) index = Some card ->
  finalizeMove card index w ov a = Some (tt, a') ->
  gameState a' = gameState a \/ allCards (gameState a') ≡ₚ allCards s.
Proof.
  intros s Hp Hcard Hrun.
  destruct (isClient a) eqn:Hc.
  { rewrite finalizeMove_client in Hrun by done. left.
    destruct (connected a); by simplify_eq. }
  right.
  rewrite (finalizeMove_unfold card index w ov a p Hc Hp) in Hrun. fold s in Hrun.
  apply bind_Some in Hrun as (st1 & a1 & Hmc & Hrun).
  apply moveComment_inv in Hmc as (c & r' & -> & ->).
  set (st1 := with_aiComment (afterPlay card index w s p) c) in *.
  assert (Hst1 : allCards st1 ≡ₚ allCards s)
    by (unfold st1; apply (afterPlay_cards card index w s p Hp Hcard)).
  destruct (decide _) as [Hz | Hnz].
  - destruct (roundWon_run (gameMode a) (isHost a)
                (with_hand p (spliceOne (hand p) index)) (currentPlayerIndex s)
                st1 (with_random (if isAi p then a
                                  else with_humanMoves a (humanMoves a ++ [card])) r'))
      as (a2 & Hrw & Hd & Hdp & Hpl & _).
    rewrite Hrw in Hrun. simplify_eq.
    rewrite <- Hst1. unfold allCards. rewrite Hd, Hdp, Hpl.
    rewrite (handsOf_same_hand _ _ (with_hand p (spliceOne (hand p) index)));
      [done | | done].
    unfold st1. cbn [players with_aiComment]. rewrite afterPlay_players.
    apply nthZ_Some in Hp as [_ Hp].
    apply list_lookup_insert_eq. by eapply lookup_lt_Some.
  - apply bind_Some in Hrun as (st2 & a2 & Heff & Hrun).
    apply bind_Some in Hrun as (st3 & a3 & Hnt & Hrun).
    destruct (commit_run st3 (bool_decide (gameMode a = ONLINE) && isHost a) a3)
      as (a4 & Hcommit & Hg & _).
    rewrite Hcommit in Hrun. injection Hrun as <-. rewrite Hg.
    rewrite (nextTurn_cards _ _ _ _ Hnt).
    by rewrite (handleCardEffect_cards _ _ _ _ _ Heff).
Qed.

Lemma store_run (st : GameState) (b : bool) (m : MultiplayerMessage) (a : App) :
  exists a',
    (setGameState st;; when_ b (sendMultiplayerMessage m)) a = Some (tt, a') /\
    gameState a' = st.
Proof.
  hsimpl. destruct b; [destruct (connected a) eqn:Hconn |];
    eexists; (split; [reflexivity |]); cbn; rewrite ?Hconn; done.
Qed.

Lemma store_send_run (st : GameState) (m : MultiplayerMessage) (a : App) :
  exists a',
    (setGameState st;; sendMultiplayerMessage m) a = Some (tt, a') /\
    gameState a' = st.
Proof. apply (store_run st true m a). Qed.

Lemma isValidMoveAt_inv card top cc (a a' : App) (b : bool) :
  isValidMoveAt card top cc a = Some (b, a') -> a' = a.
Proof.
  unfold isValidMoveAt. hsimpl.
  destruct top; [by intros [= _ <-] |].
  split_decide; by intros [= _ <-].
Qed.

Lemma getRandom_inv arr (a a' : App) o :
  getRandom arr a = Some (o, a') -> gameState a' = gameState a.
Proof.
  destruct (getRandom_run arr a) as (o' & r' & Hrun). rewrite Hrun.
  by intros [= _ <-].
Qed.

Lemma handleHumanDraw_cards (a a' : App) :
  handleHumanDraw a = Some (tt, a') ->
  allCards (gameState a') ≡ₚ allCards (gameState a).
Proof.
  unfold handleHumanDraw. intros Hrun.
  apply bind_Some in Hrun as (gs & a0 & [= <- <-] & Hrun).
  destruct (negb _); [by injection Hrun as <- |].
  apply bind_Some in Hrun as (turn & a0 & [= <- <-] & Hrun).
  destruct (negb _); [by injection Hrun as <- |].
  apply bind_Some in Hrun as (mode & a0 & [= <- <-] & Hrun).
  apply bind_Some in Hrun as (host & a0 & [= <- <-] & Hrun).
  destruct (_ && _).
  { hsimpl_in Hrun. injection Hrun as <-. by destruct (connected a). }
  apply bind_Some in Hrun as (s1 & a1 & Hdraw & Hrun).
  apply bind_Some in Hrun as (s2 & a2 & Hcomment & Hrun).
  apply bind_Some in Hrun as (s3 & a3 & Hnext & Hrun).
  destruct (store_run s3 (bool_decide (gameMode a = ONLINE) && isHost a)
              (STATE_UPDATE s3) a3) as (a4 & Hstore & Hg).
  rewrite Hstore in Hrun. injection Hrun as <-. rewrite Hg.
  rewrite (nextTurn_cards _ _ _ _ Hnext).
  assert (Hs2 : allCards s2 = allCards s1).
  { destruct (bool_decide _).
    - apply bind_Some in Hcomment as (w & a5 & _ & Hcomment).
      apply bind_Some in Hcomment as (o & a6 & _ & Hcomment).
      by injection Hcomment as <- _.
    - apply bind_Some in Hcomment as (q & a5 & _ & Hcomment).
      by injection Hcomment as <- _. }
  rewrite Hs2. by eapply drawCards_cards.
Qed.

Lemma handleMultiplayerDraw_cards (i : Z) (a a' : App) :
  handleMultiplayerDraw i a = Some (tt, a') ->
  allCards (gameState a') ≡ₚ allCards (gameState a).
Proof.
  unfold handleMultiplayerDraw. intros Hrun.
  apply bind_Some in Hrun as (gs & a0 & [= <- <-] & Hrun).
  apply bind_Some in Hrun as (s1 & a1 & Hdraw & Hrun).
  apply bind_Some in Hrun as (s3 & a3 & Hnext & Hrun).
  destruct (store_send_run s3 (STATE_UPDATE s3) a3) as (a4 & Hstore & Hg).
  rewrite Hstore in Hrun. injection Hrun as <-. rewrite Hg.
  rewrite (nextTurn_cards _ _ _ _ Hnext).
  change (allCards (with_aiComment s1 _)) with (allCards s1).
  by eapply drawCards_cards.
Qed.

Lemma handleAiDraw_cards (a a' : App) :
  handleAiDraw a = Some (tt, a') ->
  allCards (gameState a') ≡ₚ allCards (gameState a).
Proof.
  unfold handleAiDraw. intros Hrun.
  apply bind_Some in Hrun as (gs & a0 & [= <- <-] & Hrun).
  apply bind_Some in Hrun as (s1 & a1 & Hdraw & Hrun).
  apply bind_Some in Hrun as (pl & a0 & [Hpl ->]%defined_Some & Hrun).
  apply bind_Some in Hrun as (drawnCard & a0 & [Hcard ->]%defined_Some & Hrun).
  apply bind_Some in Hrun as (valid & a2 & Hvalid & Hrun).
  apply isValidMoveAt_inv in Hvalid as ->.
  apply bind_Some in Hrun as (w & a0 & [= <- <-] & Hrun).
  pose proof (drawCards_cards _ _ _ _ _ _ Hdraw) as Hcards.
  destruct (drawCards_currentPlayerIndex _ _ _ _ _ _ Hdraw) as [Hcur Hgs].
  destruct valid.
  - apply bind_Some in Hrun as (o & a3 & Hreact & Hrun).
    apply getRandom_inv in Hreact as Hgs3.
    pose proof (finalizeMove_cards drawnCard
                  (Z.of_nat (length (hand pl)) - 1)
                  (if decide (color drawnCard = BLACK)
                   then Some (mostHeldColor (hand pl)) else None)
                  (Some (with_aiComment s1 (commentOf o))) a3 a' pl) as Hfm.
    cbn zeta in Hfm.
    cbn [default from_option id players currentPlayerIndex with_aiComment] in Hfm.
    rewrite Hcur in Hfm.
    destruct (Hfm Hpl Hcard Hrun) as [Hsame | Hperm].
    + by rewrite Hsame, Hgs3, Hgs.
    + by rewrite Hperm.
  - apply bind_Some in Hrun as (o & a3 & Hreact & Hrun).
    apply bind_Some in Hrun as (s3 & a4 & Hnext & Hrun).
    hsimpl_in Hrun. injection Hrun as <-.
    cbn [gameState with_gameState].
    by rewrite (nextTurn_cards _ _ _ _ Hnext).
Qed.

(** Every action keeps the cards of the match. *)
Lemma perform_cards (act : Action) (a a' : App) :
  perform act a = Some (tt, a') ->
  allCards (gameState a') ≡ₚ allCards (gameState a).
Proof.
  destruct act as [index w | | i | | i n]; simpl.
  - intros Hrun.
    apply bind_Some in Hrun as (gs & a0 & [= <- <-] & Hrun).
    apply bind_Some in Hrun as (pl & a0 & [Hpl ->]%defined_Some & Hrun).
    apply bind_Some in Hrun as (card & a0 & [Hcard ->]%defined_Some & Hrun).
    eapply finalizeMove_cards in Hrun as [Hsame | Hperm]; try done.
    by rewrite Hsame.
  - apply handleHumanDraw_cards.
  - apply handleMultiplayerDraw_cards.
  - apply handleAiDraw_cards.
  - intros Hrun.
    apply bind_Some in Hrun as (gs & a0 & [= <- <-] & Hrun).
    apply bind_Some in Hrun as (s1 & a1 & Hdraw & Hrun).
    hsimpl_in Hrun. injection Hrun as <-. cbn [gameState with_gameState].
    by eapply drawCards_cards.
Qed.

Lemma step_cards (a a' : App) :
  step a a' -> allCards (gameState a') ≡ₚ allCards (gameState a).
Proof. intros [act Hrun]. by eapply perform_cards. Qed.

Lemma steps_cards (a a' : App) :
  rtc step a a' -> allCards (gameState a') ≡ₚ allCards (gameState a).
Proof.
  induction 1 as [| a b c Hstep _ IH]; [done |].
  rewrite IH. by apply step_cards.
Qed.

(** *** Round setup *)

Lemma pickStartCard_rotates (pre : list Card) :
  forall (c : Card) (post : list Card) (fuel : nat) (first : Card) (d : list Card),
    Forall (fun x => type x = WILD_DRAW_FOUR) pre ->
    type c <> WILD_DRAW_FOUR ->
    (length pre <= fuel)%nat ->
    first :: d = pre ++ c :: post ->
    pickStartCard fuel first d = Some (c, post ++ pre).
Proof.
  induction pre as [| x pre IH]; intros c post fuel first d Hpre Hc Hfuel Heq.
  - simpl in Heq. injection Heq as -> ->.
    rewrite app_nil_r.
    destruct fuel; simpl; by destruct (decide (type c = WILD_DRAW_FOUR)).
  - simpl in Heq. injection Heq as -> ->.
    apply Forall_cons in Hpre as [Hx Hpre].
    destruct fuel as [| fuel]; [simpl in Hfuel; lia |].
    simpl. destruct (decide (type x = WILD_DRAW_FOUR)) as [_ | ?]; [| done].
    rewrite <- (assoc (++)). simpl.
    destruct (pre ++ c :: post ++ [x]) as [| next d'] eqn:Hsplit.
    { by destruct pre. }
    rewrite (IH c (post ++ [x]) fuel next d'); try done.
    + by rewrite <- (assoc (++)).
    + simpl in Hfuel. lia.
Qed.

Lemma first_playable (l : list Card) :
  (exists x, x ∈ l /\ type x <> WILD_DRAW_FOUR) ->
  exists pre c post,
    l = pre ++ c :: post /\
    Forall (fun x => type x = WILD_DRAW_FOUR) pre /\
    type c <> WILD_DRAW_FOUR.
Proof.
  induction l as [| y l IH]; intros (x & Hx & Hty).
  - by apply elem_of_nil in Hx.
  - destruct (decide (type y = WILD_DRAW_FOUR)) as [Hy | Hy].
    + apply elem_of_cons in Hx as [-> | Hx]; [done |].
      destruct IH as (pre & c & post & -> & Hpre & Hc); [by exists x |].
      exists (y :: pre), c, post. repeat split; [by constructor | done].
    + exists [], y, l. repeat split; [constructor | done].
Qed.

(** [deal] hands out the front of the deck, seven cards per player, and
    returns what is left. *)
Lemma deal_cards (cfg : list Player) (d : list Card) :
  handsOf (deal cfg d).1 ++ (deal cfg d).2 = d.
Proof.
  revert d. induction cfg as [| q cfg IH]; intros d; [done |].
  simpl. specialize (IH (drop 7 d)).
  destruct (deal cfg (drop 7 d)) as [ps d'].
  unfold handsOf in *. simpl in *.
  rewrite <- (assoc (++)), IH. apply take_drop.
Qed.

(** [openRound] always returns, with every card of a fresh deck in the
    deck, on the pile or in a hand. *)
Lemma openRound_run (cfg : list Player) (a : App) :
  exists dk pile ps col a',
    openRound cfg a = Some ((dk, pile, ps, col), a') /\
    dk ++ pile ++ handsOf ps ≡ₚ unshuffledDeck.
Proof.
  unfold openRound.
  rewrite (bind_run _ _ a (createDeck (random a)).1
             (with_random a (createDeck (random a)).2)) by done.
  pose proof (createDeck_perm (random a)) as Hperm.
  destruct (createDeck (random a)).1 as [| first d] eqn:Hdeck.
  { apply Permutation_length in Hperm. by vm_compute in Hperm. }
  destruct (first_playable (first :: d)) as (pre & c & post & Hsplit & Hpre & Hc).
  { exists (mkCard "card-0" RED NUMBER (Some 0)). split; [| done].
    rewrite Hperm. apply list_elem_of_In. vm_compute. by left. }
  assert (Hfuel : (length pre <= length d)%nat).
  { apply (f_equal length) in Hsplit.
    rewrite length_app in Hsplit. simpl in Hsplit. lia. }
  rewrite (pickStartCard_rotates pre c post (length d) first d Hpre Hc Hfuel Hsplit).
  hsimpl.
  pose proof (deal_cards cfg (post ++ pre)) as Hdeal.
  destruct (deal cfg (post ++ pre)) as [ps d'].
  eexists _, _, _, _, _. split; [reflexivity |].
  simpl in Hdeal.
  rewrite <- Hperm, Hsplit.
  transitivity (c :: (handsOf ps ++ d')).
  - by rewrite (comm (++) d').
  - rewrite Hdeal, <- Permutation_middle. constructor. apply (comm (++)).
Qed.

Lemma setupRound_run (cfg : list Player) (start : Z) (a : App) :
  exists a',
    setupRound cfg start a = Some (tt, a') /\
    allCards (gameState a') ≡ₚ unshuffledDeck.
Proof.
  destruct (openRound_run cfg a) as (dk & pile & ps & col & a1 & Hrun & Hperm).
  unfold setupRound. rewrite (bind_run _ _ _ _ _ Hrun). hsimpl.
  eexists. split; [reflexivity |]. exact Hperm.
Qed.

(** X22.  Plays from the hand of the player to move, and draws, keep
    the cards.  A round setup always completes, and from the state it
    stores every sequence of steps ([finalizeMove] of the card found at
    the given index of the hand of the player whose turn it is, the three
    draw handlers, [drawCards] for any player and count) leads to a state
    with the same cards: the deck, the pile and the hands together are a
    permutation of the fresh deck, 108 cards with pairwise distinct
    ids. *)
Theorem card_conservation (cfg : list Player) (start : Z) (a0 : App) :
  exists a1,
    setupRound cfg start a0 = Some (tt, a1) /\
    forall a2,
      rtc step a1 a2 ->
      allCards (gameState a2) ≡ₚ allCards (gameState a1) /\
      allCards (gameState a2) ≡ₚ unshuffledDeck /\
      length (allCards (gameState a2)) = 108%nat /\
      NoDup (card_id <$> allCards (gameState a2)).
Proof.
  destruct (setupRound_run cfg start a0) as (a1 & Hrun & Hperm).
  exists a1. split; [exact Hrun |].
  intros a2 Hsteps.
  pose proof (steps_cards a1 a2 Hsteps) as Hkeep.
  assert (Hall : allCards (gameState a2) ≡ₚ unshuffledDeck) by (by rewrite Hkeep).
  split; [done |]. split; [done |]. split.
  - by rewrite Hall.
  - rewrite Hall.
    assert (Hb : bool_decide (NoDup (card_id <$> unshuffledDeck)) = true)
      by (vm_compute; reflexivity).
    by apply bool_decide_eq_true in Hb.
Qed.

End Conservation.

(** ** A colour picker that outlives its round *)

Lemma same_cards_by_count (l k : list Card) :
  NoDup l -> Forall (fun c => c ∈ k) l -> (length k <= length l)%nat -> l ≡ₚ k.
Proof.
  intros Hnd Hall Hlen. apply submseteq_length_Permutation; [| done].
  apply NoDup_submseteq; [done |]. by apply Forall_forall.
Qed.

(** C1, the failing run.  Against the computer, from the component as it
    mounts: a click on the start button deals the human six red action
    cards and a wild draw four; the human plays the six, each of which
    leaves the turn with the human, then the wild draw four and a colour,
    which wins the round.  [finalizeMove] returns from its winning branch
    before [setPendingWildCard(null)], so the wild draw four is still
    pending after the click on the next-round button.  The new round
    holds the 108 cards, the computer is to move, and the table shows the
    colour picker.  A click on a colour then calls [finalizeMove] with
    the pending card and its index in the human's hand, while
    [finalizeMove] removes that index from the hand of the player to
    move: the wild draw four is on the pile and still in the human's
    hand, the computer's first card is gone, and the cards are no longer
    a permutation of the deck. *)
Theorem stale_picker_duplicates_card :
  exists a1 a2,
    clicks [clickStartMatch; clickCard 0; clickCard 0; clickCard 0;
            clickCard 0; clickCard 0; clickCard 0; clickCard 0;
            clickColor RED; clickNextRound] (mounted riggedSource)
      = Some (tt, a1) /\
    status (gameState a1) = PLAYING /\
    currentPlayerIndex (gameState a1) = 1 /\
    pendingWildCard a1 = Some wildDrawFour /\
    map (fun p => length (hand p)) (players (gameState a1)) = [7%nat; 7%nat] /\
    allCards (gameState a1) ≡ₚ unshuffledDeck /\
    clickColor BLUE a1 = Some (tt, a2) /\
    status (gameState a2) = PLAYING /\
    last (discardPile (gameState a2)) = Some wildDrawFour /\
    (nthZ (players (gameState a2)) 0 ≫= fun human => head (hand human))
      = Some wildDrawFour /\
    map (fun p => length (hand p)) (players (gameState a2)) = [11%nat; 6%nat] /\
    ~ NoDup (card_id <$> allCards (gameState a2)) /\
    ~ allCards (gameState a2) ≡ₚ unshuffledDeck.
Proof.
  eexists _, _.
  split; [vm_compute; reflexivity |].
  split; [reflexivity |]. split; [reflexivity |]. split; [reflexivity |].
  split; [reflexivity |].
  split.
  { apply same_cards_by_count.
    - apply (bool_decide_eq_true _). vm_compute. reflexivity.
    - apply (bool_decide_eq_true _). vm_compute. reflexivity.
    - vm_compute. lia. }
  split; [vm_compute; reflexivity |].
  split; [reflexivity |]. split; [reflexivity |]. split; [reflexivity |].
  split; [reflexivity |].
  match goal with
  | |- ~ NoDup ?ids /\ _ =>
      assert (Hdup : ~ NoDup ids)
        by (apply (proj1 (bool_decide_eq_false _)); vm_compute; reflexivity)
  end.
  split; [exact Hdup |].
  intros Hperm. apply Hdup. rewrite Hperm.
  apply (bool_decide_eq_true _). vm_compute. reflexivity.
Qed.

(** ** Rejected and stale moves *)

Section SessionFacts.
Context `{ArraySort}.


End SessionFacts.

(** A listener whose render is not a host's answers nothing but a
    snapshot. *)
Lemma onData_not_host render msg app :
  captured_isHost render = false ->
  (forall payload, msg <> STATE_UPDATE payload) ->
  onData render msg app = Some (tt, app).
Proof.
  intros Hhost Hmsg. destruct msg as [payload | cardId w | |]; cbn.
  - by destruct (Hmsg payload).
  - by rewrite Hhost.
  - by rewrite Hhost.
  - by rewrite Hhost.
Qed.

(** A listener that does not find the card id in the hand of seat 1 of
    its render answers nothing to the move request. *)
Lemma onData_unknown_card render cardId w app follower :
  nthZ (players (captured_gameState render)) 1 = Some follower ->
  cardId ∉ (card_id <$> hand follower) ->
  onData render (PLAYER_MOVE cardId w) app = Some (tt, app).
Proof.
  intros Hf Hnot. unfold onData.
  destruct (captured_isHost render); [| done].
  hsimpl. rewrite Hf.
  assert (Hidx : findIndex (fun c => bool_decide (card_id c = cardId))
                   (hand follower) = -1).
  { apply findIndex_none, Forall_forall. intros c Hc.
    apply bool_decide_eq_false. intros Heq. apply Hnot.
    rewrite <- Heq. by apply list_elem_of_fmap_2. }
  rewrite Hidx. by destruct (decide (-1 <> -1)).
Qed.

(** The [Peer] of a component is created in a render that is not a
    host's: until there is a [Peer], nothing has written [isHost]. *)
Lemma peer_render_not_host (l : Lobby) :
  rtc lobbyStep mountedLobby l ->
  match peerRef l with
  | Some render => captured_isHost render = false
  | None => lobby_isHost l = false
  end.
Proof.
  revert l. apply rtc_ind_r; [done |].
  intros l l' _ Hstep IH.
  destruct l as [host peer].
  destruct Hstep as [(render & Hrender & ->) | [(listener & Hconn) |
                     (render & listener & Hopen)]].
  - unfold initializePeer, rendersLobby in *. cbn in *.
    destruct peer; [done |]. cbn. congruence.
  - unfold onConnection in Hconn. cbn in *.
    destruct peer; [| done]. by injection Hconn as _ <-.
  - unfold onOpen in Hopen. cbn in *.
    destruct peer; [| done]. by injection Hopen as _ <-.
Qed.

(** The listener that the ['connection'] callback puts on the
    follower's connection answers no request. *)
Lemma authority_listener_idle (l l' : Lobby) listener msg app :
  rtc lobbyStep mountedLobby l ->
  onConnection l = Some (listener, l') ->
  (forall payload, msg <> STATE_UPDATE payload) ->
  listener msg app = Some (tt, app).
Proof.
  intros Hreach Hconn Hmsg. apply peer_render_not_host in Hreach.
  unfold onConnection in Hconn. destruct (peerRef l) as [render |]; [| done].
  injection Hconn as <- _. by apply onData_not_host.
Qed.

Section RequestFacts.
Context `{ArraySort}.


End RequestFacts.

(** C9.  A move request naming a card id that is not in the hand of the
    follower (the player in seat 1) changes nothing: the component state
    after the listener is the state before it, match state and message
    log included.  The hand is the one the listener sees, that of its
    render; a listener whose render is not a host's ignores the request
    whatever the id, and so does the listener that the authority's
    ['connection'] callback put on the connection. *)
Theorem stale_move_request_ignored cardId w app :
  (forall render,
     captured_isHost render = false \/
     (exists follower,
        nthZ (players (captured_gameState render)) 1 = Some follower /\
        cardId ∉ (card_id <$> hand follower)) ->
     onData render (PLAYER_MOVE cardId w) app = Some (tt, app)) /\
  (forall (l l' : Lobby) listener,
     rtc lobbyStep mountedLobby l ->
     onConnection l = Some (listener, l') ->
     listener (PLAYER_MOVE cardId w) app = Some (tt, app)).
Proof.
  split.
  - intros render [Hhost | (follower & Hf & Hnot)].
    + by apply onData_not_host.
    + by apply (onData_unknown_card _ _ _ _ follower).
  - intros l l' listener Hreach Hconn. by apply (authority_listener_idle l l').
Qed.

(** * Worked examples *)

(** The cycle of [sampleRandom], the 93 draws that empty a fresh deck of
    a two-player round, and the play of the green draw-two that the
    second player then holds at position 11: the first player can only
    receive the one card that was under the draw-two. *)
Lemma draw_two_on_exhausted_deck :
  exists a1 a2 card v v',
    (setupRound [alice; bob] 0;; performAll (replicate 93 HumanDraw)) lobbyApp
      = Some (tt, a1) /\
    deck (gameState a1) = [] /\
    length (discardPile (gameState a1)) = 1%nat /\
    currentPlayerIndex (gameState a1) = 1 /\
    seatAfter (gameState a1) = 0 /\
    (exists p, nthZ (players (gameState a1)) 1 = Some p /\
               nthZ (hand p) 11 = Some card /\ length (hand p) = 53%nat) /\
    type card = DRAW_TWO /\
    (exists top, last (discardPile (gameState a1)) = Some top /\
                 isValidMove card top (currentColor (gameState a1)) = true) /\
    finalizeMove card 11 None None a1 = Some (tt, a2) /\
    nthZ (players (gameState a1)) 0 = Some v /\
    nthZ (players (gameState a2)) 0 = Some v' /\
    length (hand v') = (length (hand v) + 1)%nat /\
    length (hand v') <> (length (hand v) + 2)%nat.
Proof.
  eexists _, _, _, _, _.
  split; [vm_compute; reflexivity |].
  split; [reflexivity |]. split; [reflexivity |]. split; [reflexivity |].
  split; [reflexivity |].
  split; [eexists; split; [reflexivity |]; split; reflexivity |].
  split; [reflexivity |].
  split; [eexists; split; reflexivity |].
  split; [vm_compute; reflexivity |].
  split; [reflexivity |]. split; [reflexivity |].
  split; [reflexivity |]. vm_compute. lia.
Qed.

(** A wild played as last card with blue chosen: the round is over and
    the active colour has changed from red to blue. *)
Lemma winning_wild_changes_color :
  exists a',
    finalizeMove wildCard 0 (Some BLUE) None
      (sampleApp LOCAL false (lastCardState wildCard)) = Some (tt, a') /\
    status (gameState a') = ROUND_OVER /\
    currentColor (lastCardState wildCard) = RED /\
    currentColor (gameState a') = BLUE /\
    currentColor (gameState a') <> currentColor (lastCardState wildCard).
Proof.
  eexists. split; [vm_compute; reflexivity |].
  repeat split; try reflexivity. discriminate.
Qed.

(** A two-player round followed by a draw still holds the 108 cards. *)
Lemma card_conservation_witness :
  exists a1 a2,
    setupRound [alice; bob] 0 lobbyApp = Some (tt, a1) /\
    perform HumanDraw a1 = Some (tt, a2) /\
    length (hand <$> players (gameState a2)) = 2%nat /\
    length (allCards (gameState a2)) = 108%nat /\
    NoDup (card_id <$> allCards (gameState a2)).
Proof.
  destruct (card_conservation [alice; bob] 0 lobbyApp) as (a1 & Hrun & Hinv).
  assert (Hex : exists a a2,
                  setupRound [alice; bob] 0 lobbyApp = Some (tt, a) /\
                  perform HumanDraw a = Some (tt, a2) /\
                  length (hand <$> players (gameState a2)) = 2%nat).
  { eexists _, _. split; [vm_compute; reflexivity |].
    split; [vm_compute; reflexivity | reflexivity]. }
  destruct Hex as (a & a2 & Hset & Hdraw & Hlen).
  assert (a1 = a) as -> by congruence.
  exists a, a2. split; [exact Hset |]. split; [exact Hdraw |].
  split; [exact Hlen |].
  destruct (Hinv a2) as (_ & _ & Hcount & Hids); [| by split].
  apply rtc_once. by exists HumanDraw.
Defined.

(** A last red 3 played on a red 5: 31 points, round over. *)
Lemma winning_play_scores_witness :
  exists a' p',
    finalizeMove redThree 0 None None
      (sampleApp LOCAL false (lastCardState redThree)) = Some (tt, a') /\
    nthZ (players (gameState a')) 0 = Some p' /\
    score p' = 31 /\
    status (gameState a') = ROUND_OVER.
Proof.
  destruct (winning_play_scores redThree 0 None None
              (sampleApp LOCAL false (lastCardState redThree))
              (with_hand alice [redThree]))
    as (_ & a' & p' & Hrun & Hp' & Hscore & _ & Hround);
    [reflexivity | simpl; lia | reflexivity | reflexivity |].
  exists a', p'. split; [exact Hrun |]. split; [exact Hp' |].
  split; [rewrite Hscore; reflexivity |].
  apply Hround. rewrite Hscore. intros Hge. vm_compute in Hge. by apply Hge.
Defined.

(** A last wild card played with blue chosen: deck and opponent as
    before, blue active. *)
Lemma winning_play_frame_witness :
  exists a',
    finalizeMove wildCard 0 (Some BLUE) None
      (sampleApp LOCAL false (lastCardState wildCard)) = Some (tt, a') /\
    deck (gameState a') = deck (lastCardState wildCard) /\
    nthZ (players (gameState a')) 1 = nthZ (players (lastCardState wildCard)) 1 /\
    currentColor (gameState a') = BLUE.
Proof.
  destruct (winning_play_frame wildCard 0 (Some BLUE) None
              (sampleApp LOCAL false (lastCardState wildCard))
              (with_hand alice [wildCard]))
    as (a' & p' & Hrun & Hdeck & _ & _ & _ & Hothers & _ & _ & _ & _ & _ & Hcol);
    [reflexivity | simpl; lia | reflexivity | reflexivity |].
  exists a'. split; [exact Hrun |]. split; [exact Hdeck |].
  split; [by apply Hothers | exact Hcol].
Defined.

(** A red draw-two played on a red 5 with two cards in the deck: the
    opponent holds four cards and the turn is back. *)
Lemma draw_penalty_and_skip_witness :
  exists a' v',
    finalizeMove redDrawTwo 0 None None (sampleApp LOCAL false drawTwoState)
      = Some (tt, a') /\
    nthZ (players (gameState a')) 1 = Some v' /\
    length (hand v') = 4%nat /\
    currentPlayerIndex (gameState a') = 0.
Proof.
  destruct (draw_penalty_and_skip redDrawTwo 0 None None
              (sampleApp LOCAL false drawTwoState)
              (with_hand alice [redDrawTwo; mkCard "card-60" GREEN NUMBER (Some 5)])
              2)
    as (a' & v & v' & Hrun & Hv & Hv' & Hlen & _ & _ & _ & Hback);
    [reflexivity | split; [simpl; lia | by left] | simpl; lia | reflexivity
     | discriminate | by left |].
  exists a', v'. split; [exact Hrun |]. split; [exact Hv' |].
  split; [| by apply Hback].
  rewrite Hlen. injection Hv as <-. reflexivity.
Defined.

(** A red reverse and a red skip on a two-player table. *)
Lemma reverse_is_skip_for_two_witness :
  handleCardEffect (mkCard "card-20" RED REVERSE None) hostState hostApp =
  handleCardEffect (mkCard "card-19" RED SKIP None) hostState hostApp.
Proof.
  apply (reverse_is_skip_for_two
           (mkCard "card-20" RED REVERSE None) (mkCard "card-19" RED SKIP None)
           hostState hostApp); reflexivity.
Defined.

(** One card in the deck, five on the pile and three requested. *)
Lemma drawCards_reshuffles_witness :
  exists s' a' q,
    drawCards 1 3 lowDeckState (sampleApp LOCAL false lowDeckState) = Some (s', a') /\
    discardPile s' = [mkCard "card-69" GREEN SKIP None] /\
    nthZ (players s') 1 = Some q /\
    length (hand q) = 4%nat.
Proof.
  destruct (drawCards_reshuffles 1 3 lowDeckState
              (sampleApp LOCAL false lowDeckState)
              (with_hand bob [mkCard "card-7" RED NUMBER (Some 4)]))
    as (rest & top & recycled & s' & a' & Hsplit & _ & Hrun & Hpile & Hq & _ & Hscen);
    [reflexivity | reflexivity | simpl; lia |].
  eexists s', a', _. split; [exact Hrun |].
  split.
  { rewrite Hpile. f_equal.
    change (discardPile lowDeckState)
      with ([mkCard "card-1" RED NUMBER (Some 1); mkCard "card-3" RED NUMBER (Some 2);
             mkCard "card-28" BLUE NUMBER (Some 2); mkCard "card-44" BLUE SKIP None]
            ++ [mkCard "card-69" GREEN SKIP None]) in Hsplit.
    apply app_inj_tail in Hsplit as [_ <-]. reflexivity. }
  split; [exact Hq |].
  destruct Hscen as [_ Hlen]; [reflexivity | reflexivity | reflexivity |].
  exact Hlen.
Defined.

(** A request for a card id the follower does not hold, on a listener
    whose render is a host's. *)
Lemma stale_move_request_ignored_witness :
  onData hostRender (PLAYER_MOVE "card-99" None) hostApp = Some (tt, hostApp).
Proof.
  apply (proj1 (stale_move_request_ignored "card-99" None hostApp) hostRender).
  right. exists (with_hand bob [blueSeven; mkCard "card-7" RED NUMBER (Some 4)]).
  split; [reflexivity |].
  intros Hin. apply list_elem_of_In in Hin. simpl in Hin.
  destruct Hin as [Heq | [Heq | []]]; discriminate Heq.
Defined.


(** * Further properties of the code *)

(** ** Deck builder and scoring *)

Lemma shuffleLoop_consumes (i : nat) (l : list Card) (r : RandomSource) (n : nat) :
  (shuffleLoop i l r).2 n = r (n + i)%nat.
Proof.
  revert l r. induction i as [| i IH]; intros l r.
  - simpl. f_equal. lia.
  - simpl. rewrite IH. f_equal. lia.
Qed.

(** X1.  [shuffleDeck] returns the cards it was given, in some order, for
    any deck and any random source; it asks [Math.random] exactly
    [length - 1] times; a deck of at most one card comes back as it is. *)
Theorem shuffleDeck_permutes (d : list Card) (r : RandomSource) :
  (shuffleDeck d r).1 ≡ₚ d /\
  length (shuffleDeck d r).1 = length d /\
  (forall n, (shuffleDeck d r).2 n = r (n + (length d - 1))%nat) /\
  ((length d <= 1)%nat -> (shuffleDeck d r).1 = d).
Proof.
  pose proof (shuffleLoop_perm (length d - 1) d r) as Hperm.
  split; [exact Hperm |].
  split; [by rewrite Hperm |].
  split; [intros n; apply shuffleLoop_consumes |].
  intros Hle. unfold shuffleDeck.
  replace (length d - 1)%nat with 0%nat by lia. reflexivity.
Qed.

Lemma sumZ_app (l1 l2 : list Z) : sumZ (l1 ++ l2) = sumZ l1 + sumZ l2.
Proof. induction l1 as [| x l1 IH]; simpl; [done |]. rewrite IH. lia. Qed.

Lemma sumZ_perm (l1 l2 : list Z) : l1 ≡ₚ l2 -> sumZ l1 = sumZ l2.
Proof.
  induction 1 as [| x l1 l2 _ IH | x y l | l1 l2 l3 _ IH1 _ IH2]; simpl; lia.
Qed.

(** X2.  The value of a hand does not depend on the order of its cards,
    and the value of two hands put together is the sum of their values. *)
Theorem calculateHandScore_split (h1 h2 h : list Card) :
  h1 ++ h2 ≡ₚ h ->
  calculateHandScore h = calculateHandScore h1 + calculateHandScore h2.
Proof.
  intros Hperm. rewrite !calculateHandScore_sum.
  rewrite <- sumZ_app, <- map_app.
  apply sumZ_perm. by rewrite Hperm.
Qed.

(** X3.  On cards whose number, when there is one, is a digit, every card
    is worth between 0 and 50 points: a hand is never worth less than 0
    or more than 50 points per card. *)
Theorem calculateHandScore_bounds (h : list Card) :
  Forall (fun c => 0 <= valueOrZero (value c) <= 9) h ->
  0 <= calculateHandScore h <= 50 * Z.of_nat (length h).
Proof.
  intros Hall. rewrite calculateHandScore_sum.
  induction Hall as [| c h Hc _ IH]; [simpl; lia |].
  assert (Hp : 0 <= cardPoints c <= 50)
    by (unfold cardPoints; destruct (type c); lia).
  cbn [map sumZ foldr length] in *. unfold sumZ in IH. lia.
Qed.

(** X4.  [canPlayAny] answers no exactly when every card of the hand is
    coloured, is not of the active colour, and does not match the top card
    by type (and, for numbers, by value): in particular a hand holding a
    wild card can always play and an empty hand never can. *)
Theorem canPlayAny_false_iff (h : list Card) (t : Card) (k : CardColor) :
  canPlayAny h t k = false <->
  forall c, c ∈ h ->
    color c <> BLACK /\ color c <> k /\
    ~ (type c = type t /\ (type c = NUMBER -> value c = value t)).
Proof.
  unfold canPlayAny. rewrite <- not_true_iff_false, existsb_exists.
  split.
  - intros Hnone c Hc.
    assert (Hinv : isValidMove c t k <> true).
    { intros Hv. apply Hnone. exists c. split; [by apply list_elem_of_In | done]. }
    unfold isValidMove in Hinv.
    split_decide; rewrite ?bool_decide_eq_true in Hinv; intuition congruence.
  - intros Hall (c & Hc & Hv). apply list_elem_of_In in Hc.
    destruct (Hall c Hc) as (Hb & Hk & Hty).
    unfold isValidMove in Hv.
    split_decide; rewrite ?bool_decide_eq_true in Hv; intuition congruence.
Qed.

(** ** Turn engine *)

Section MoreEngineFacts.
Context `{ArraySort}.

(** X5.  With at least one player [nextTurn] returns a pointer inside the
    table whatever pointer and direction it starts from, and changes
    nothing else in the match state. *)
Theorem nextTurn_lands_inside (s : GameState) (a : App) :
  (0 < length (players s))%nat ->
  exists s' a',
    nextTurn s a = Some (s', a') /\
    0 <= currentPlayerIndex s' < Z.of_nat (length (players s)) /\
    s' = with_currentPlayerIndex s (currentPlayerIndex s').
Proof.
  intros Hlen. rewrite nextTurn_run. eexists _, _. split; [reflexivity |].
  cbn [currentPlayerIndex with_currentPlayerIndex]. split; [| done].
  unfold victimOf. split_decide; lia.
Qed.

(** X6.  On a seated table [nextTurn] is the modular wrap: the new
    pointer is (current + direction) mod playerCount, so direction -1
    from seat 0 lands on the last seat and direction +1 from the last seat
    on seat 0; and one more [nextTurn] in the opposite direction is back
    on the seat it started from. *)
Theorem nextTurn_wraps (s : GameState) (a : App) :
  seated s ->
  exists s' a',
    nextTurn s a = Some (s', a') /\
    let len := Z.of_nat (length (players s)) in
    currentPlayerIndex s' = (currentPlayerIndex s + direction s) `mod` len /\
    (currentPlayerIndex s = 0 -> direction s = -1 ->
     currentPlayerIndex s' = len - 1) /\
    (currentPlayerIndex s = len - 1 -> direction s = 1 ->
     currentPlayerIndex s' = 0) /\
    exists s'' a'',
      nextTurn (with_direction s' (direction s * -1)) a' = Some (s'', a'') /\
      currentPlayerIndex s'' = currentPlayerIndex s.
Proof.
  intros Hseat. rewrite nextTurn_run. eexists _, _. split; [reflexivity |].
  cbn zeta. cbn [currentPlayerIndex with_currentPlayerIndex].
  split; [by apply victimOf_seatAfter |].
  destruct Hseat as [Hin Hsign].
  split; [intros Hc Hd; unfold victimOf; rewrite Hc, Hd; split_decide; lia |].
  split; [intros Hc Hd; unfold victimOf; rewrite Hc, Hd; split_decide; lia |].
  rewrite nextTurn_run. eexists _, _. split; [reflexivity |].
  cbn [currentPlayerIndex with_currentPlayerIndex].
  unfold victimOf at 1.
  cbn [currentPlayerIndex direction players with_currentPlayerIndex with_direction].
  unfold victimOf. split_decide; lia.
Qed.

(** ** Draw mechanics *)

Lemma with_parts_id (s : GameState) :
  with_discardPile (with_players (with_deck s (deck s)) (players s)) (discardPile s) = s.
Proof. by destruct s. Qed.

(** [drawCards_eq] with what the draw handlers need to know about the
    deck dealt from and the pile left. *)
Lemma drawCards_shape (i n : Z) (s : GameState) (a : App) :
  exists avail pile r',
    length avail = availableToDraw n s /\
    (exists extra, avail = deck s ++ extra) /\
    last pile = last (discardPile s) /\
    (pile = discardPile s \/ exists top, pile = [top]) /\
    (~ (Z.of_nat (length (deck s)) < n /\ (1 < length (discardPile s))%nat) ->
     avail = deck s /\ pile = discardPile s /\ r' = random a) /\
    drawCards i n s a =
    let k := Z.to_nat (Z.min n (Z.of_nat (length avail))) in
    if decide (0 < k)%nat then
      match nthZ (players s) i with
      | Some p =>
          Some (with_discardPile
                  (with_players (with_deck s (drop k avail))
                     (<[Z.to_nat i := with_hand p (hand p ++ take k avail)]>
                        (players s)))
                  pile,
                with_random a r')
      | None => None
      end
    else
      Some (with_discardPile (with_players (with_deck s avail) (players s)) pile,
            with_random a r').
Proof.
  destruct (drawCards_eq i n s a) as (avail & pile & r' & Hcase & Heq).
  exists avail, pile, r'. unfold availableToDraw.
  destruct Hcase as [(Hs & Hl & rest & top & Hsplit & -> & -> & ->) | (Hno & -> & -> & ->)].
  - destruct (decide (_ /\ _)) as [_ | Hx]; [| tauto].
    split.
    { rewrite length_app, sortRandomly_perm, Hsplit, length_app. simpl. lia. }
    split; [by eexists |].
    split; [by rewrite Hsplit, last_snoc |].
    split; [right; by eexists |].
    split; [tauto | exact Heq].
  - destruct (decide (_ /\ _)) as [Hx | _]; [tauto |].
    split; [done |]. split; [exists []; by rewrite app_nil_r |].
    split; [done |]. split; [by left |]. split; [done | exact Heq].
Qed.

(** X7.  When the deck holds the [n] cards asked for, [drawCards] hands
    the player the first [n] cards of the deck, in deck order, behind the
    cards already held; the discard pile is not touched and no random
    number is used. *)
Theorem drawCards_from_full_deck (i n : Z) (s : GameState) (a : App) (p : Player) :
  nthZ (players s) i = Some p ->
  0 < n <= Z.of_nat (length (deck s)) ->
  drawCards i n s a =
  Some (with_players (with_deck s (drop (Z.to_nat n) (deck s)))
          (<[Z.to_nat i := with_hand p (hand p ++ take (Z.to_nat n) (deck s))]>
             (players s)),
        a).
Proof.
  intros Hp Hn.
  destruct (drawCards_shape i n s a)
    as (avail & pile & r' & _ & _ & _ & _ & Hsame & Heq).
  destruct Hsame as (-> & -> & ->); [lia |].
  rewrite Heq. cbn zeta. rewrite Hp, with_random_id.
  replace (Z.to_nat (Z.min n (Z.of_nat (length (deck s))))) with (Z.to_nat n) by lia.
  destruct (decide (0 < Z.to_nat n)%nat); [| lia].
  by destruct s.
Qed.

Lemma drawCards_top (i n : Z) (s s' : GameState) (a a' : App) :
  drawCards i n s a = Some (s', a') ->
  last (discardPile s') = last (discardPile s) /\
  (discardPile s' = discardPile s \/
   exists top, discardPile s' = [top] /\ last (discardPile s) = Some top).
Proof.
  intros Hrun.
  destruct (drawCards_shape i n s a)
    as (avail & pile & r' & _ & _ & Hlast & Hpile & _ & Heq).
  rewrite Hrun in Heq. cbn zeta in Heq.
  assert (Hdp : discardPile s' = pile).
  { destruct (decide _); [destruct (nthZ (players s) i) |]; by simplify_eq. }
  rewrite Hdp. split; [done |].
  destruct Hpile as [-> | [top ->]]; [by left |].
  right. exists top. by rewrite <- Hlast.
Qed.

Lemma drawCards_rest (i n : Z) (s s' : GameState) (a a' : App) :
  drawCards i n s a = Some (s', a') ->
  (currentPlayerIndex s', direction s', status s', winner s', currentColor s',
   aiComment s', isAiThinking s', roundWinner s', pointsWon s') =
  (currentPlayerIndex s, direction s, status s, winner s, currentColor s,
   aiComment s, isAiThinking s, roundWinner s, pointsWon s) /\
  length (players s') = length (players s) /\
  (forall j, j <> i -> nthZ (players s') j = nthZ (players s) j) /\
  (forall p, nthZ (players s) i = Some p ->
     exists drawn,
       nthZ (players s') i = Some (with_hand p (hand p ++ drawn)) /\
       length drawn = Nat.min (Z.to_nat n) (availableToDraw n s)) /\
  exists r', a' = with_random a r'.
Proof.
  intros Hrun.
  destruct (drawCards_shape i n s a)
    as (avail & pile & r' & Hlen & _ & _ & _ & _ & Heq).
  rewrite Hrun in Heq. cbn zeta in Heq.
  set (k := Z.to_nat (Z.min n (Z.of_nat (length avail)))) in *.
  assert (Hk : k = Nat.min (Z.to_nat n) (availableToDraw n s)) by (unfold k; lia).
  destruct (decide (0 < k)%nat) as [Hpos | Hpos].
  - destruct (nthZ (players s) i) as [q |] eqn:Hq; [| done].
    injection Heq as -> ->.
    pose proof (nthZ_lt _ _ _ Hq) as Hrange.
    cbn [players with_discardPile with_players with_deck].
    split; [done |]. split; [by rewrite length_insert |].
    split; [intros j Hj; apply nthZ_insert_ne; [lia | done] |].
    split; [| by eexists].
    intros p [= <-]. exists (take k avail).
    split; [by eapply nthZ_insert_eq |].
    rewrite length_take. lia.
  - injection Heq as -> ->.
    cbn [players with_discardPile with_players with_deck].
    split; [done |]. split; [done |]. split; [done |]. split; [| by eexists].
    intros p Hp. exists []. split; [| simpl; lia].
    rewrite app_nil_r. simpl. by destruct p.
Qed.

(** X8.  A draw touches the deck, the pile below its top card and one
    hand only: the top card of the pile is as before (the pile is left as
    it was, or holds its former top card alone); pointer, direction,
    status, winner, colour, commentary and round result are as before;
    every other player is as before; the player who draws keeps identity
    and score and finds the cards already held at the front of the new
    hand; and of the component only the random source moves. *)
Theorem drawCards_frame (i n : Z) (s s' : GameState) (a a' : App) :
  drawCards i n s a = Some (s', a') ->
  (last (discardPile s') = last (discardPile s) /\
   (discardPile s' = discardPile s \/
    exists top, discardPile s' = [top] /\ last (discardPile s) = Some top)) /\
  (currentPlayerIndex s', direction s', status s', winner s', currentColor s',
   aiComment s', isAiThinking s', roundWinner s', pointsWon s') =
  (currentPlayerIndex s, direction s, status s, winner s, currentColor s,
   aiComment s, isAiThinking s, roundWinner s, pointsWon s) /\
  length (players s') = length (players s) /\
  (forall j, j <> i -> nthZ (players s') j = nthZ (players s) j) /\
  (forall p, nthZ (players s) i = Some p ->
     exists drawn,
       nthZ (players s') i = Some (with_hand p (hand p ++ drawn)) /\
       length drawn = Nat.min (Z.to_nat n) (availableToDraw n s)) /\
  exists r', a' = with_random a r'.
Proof.
  intros Hrun. split; [by eapply drawCards_top | by eapply drawCards_rest].
Qed.

(** X9.  [drawCards] raises an error in one situation only: the player
    index is outside the table while at least one card is asked for and
    at least one card can be reached. *)
Theorem drawCards_fails_iff (i n : Z) (s : GameState) (a : App) :
  drawCards i n s a = None <->
  nthZ (players s) i = None /\ 0 < n /\ (0 < availableToDraw n s)%nat.
Proof.
  destruct (drawCards_shape i n s a)
    as (avail & pile & r' & Hlen & _ & _ & _ & _ & Heq).
  rewrite Heq. cbn zeta. rewrite Hlen.
  destruct (decide _) as [Hpos | Hpos].
  - destruct (nthZ (players s) i).
    + split; [done | intros [? _]; done].
    + split; [intros _; split; [done | lia] | done].
  - split; [done |]. intros (_ & Hn & Hav). lia.
Qed.

(** X10.  When no card is asked for, or the deck is empty and the pile
    has at most one card, [drawCards] returns the state and the component
    it was given, also for a player index outside the table. *)
Theorem drawCards_nothing_to_draw (i n : Z) (s : GameState) (a : App) :
  n <= 0 \/ (deck s = [] /\ (length (discardPile s) <= 1)%nat) ->
  drawCards i n s a = Some (s, a).
Proof.
  intros Hcase.
  destruct (drawCards_shape i n s a)
    as (avail & pile & r' & _ & _ & _ & _ & Hsame & Heq).
  destruct Hsame as (-> & -> & ->); [destruct Hcase as [? | [? ?]]; lia |].
  rewrite Heq. cbn zeta. rewrite with_random_id, with_parts_id.
  destruct (decide _) as [Hpos | _]; [| done].
  destruct Hcase as [Hn | [Hd _]]; [lia |]. rewrite Hd in Hpos. simpl in Hpos. lia.
Qed.

End MoreEngineFacts.

(** ** Plays that do not end the round *)

Section PlayFacts.
Context `{ArraySort}.

Lemma with_showLocalIntermission_id (a : App) :
  with_showLocalIntermission a (showLocalIntermission a) = a.
Proof. by destruct a. Qed.

(** What the engine functions leave of the component: everything but the
    random source and the intermission flag. *)
Lemma nextTurn_app (s s' : GameState) (a a' : App) :
  nextTurn s a = Some (s', a') ->
  exists b, a' = with_showLocalIntermission a b.
Proof.
  rewrite nextTurn_run. intros [= _ <-].
  destruct (bool_decide _); [by eexists |].
  exists (showLocalIntermission a). by rewrite with_showLocalIntermission_id.
Qed.

Lemma handleCardEffect_recolor (card : Card) (s : GameState) :
  (if decide (color card <> BLACK) then with_currentColor s (color card) else s)
  = recolor card s.
Proof. reflexivity. Qed.

Lemma handleCardEffect_app (card : Card) (s s' : GameState) (a a' : App) :
  handleCardEffect card s a = Some (s', a') ->
  exists r b, a' = with_showLocalIntermission (with_random a r) b.
Proof.
  unfold handleCardEffect. rewrite handleCardEffect_recolor.
  assert (Hid : exists r b, a = with_showLocalIntermission (with_random a r) b)
    by (exists (random a), (showLocalIntermission a); by destruct a).
  assert (Hnext : forall st,
    nextTurn st a = Some (s', a') ->
    exists r b, a' = with_showLocalIntermission (with_random a r) b).
  { intros st [b ->]%nextTurn_app. exists (random a), b. by destruct a. }
  assert (Hdraw : forall n,
    (drawCards (victimOf (recolor card s)) n (recolor card s) ≫= nextTurn) a
      = Some (s', a') ->
    exists r b, a' = with_showLocalIntermission (with_random a r) b).
  { intros n (s1 & a1 & Hd & Hn)%bind_Some.
    apply drawCards_rest in Hd as (_ & _ & _ & _ & r & ->).
    apply nextTurn_app in Hn as [b ->]. by exists r, b. }
  destruct (type card); try (intros [= _ <-]; exact Hid); try apply Hdraw;
    try apply Hnext.
  destruct (decide _); [apply Hnext | intros [= _ <-]; exact Hid].
Qed.

(** The fields the effect of a card never touches, and the table size. *)
Lemma handleCardEffect_keeps (card : Card) (s s' : GameState) (a a' : App) :
  handleCardEffect card s a = Some (s', a') ->
  status s' = status s /\
  currentColor s' = currentColor (recolor card s) /\
  last (discardPile s') = last (discardPile s) /\
  length (players s') = length (players s) /\
  (direction s' = direction s \/ direction s' = direction s * -1).
Proof.
  unfold handleCardEffect. rewrite handleCardEffect_recolor.
  assert (H0 : status (recolor card s) = status s /\
               last (discardPile (recolor card s)) = last (discardPile s) /\
               length (players (recolor card s)) = length (players s) /\
               direction (recolor card s) = direction s)
    by (unfold recolor; by destruct (decide _)).
  destruct H0 as (Hst & Hdp & Hlen & Hdir).
  assert (Hnext : forall st,
    st = recolor card s ->
    nextTurn st a = Some (s', a') ->
    status s' = status s /\
    currentColor s' = currentColor (recolor card s) /\
    last (discardPile s') = last (discardPile s) /\
    length (players s') = length (players s) /\
    (direction s' = direction s \/ direction s' = direction s * -1)).
  { intros st ->. rewrite nextTurn_run. intros [= <- _].
    cbn [status currentColor discardPile players direction with_currentPlayerIndex].
    repeat split; try done. by left. }
  assert (Hdraw : forall n,
    (drawCards (victimOf (recolor card s)) n (recolor card s) ≫= nextTurn) a
      = Some (s', a') ->
    status s' = status s /\
    currentColor s' = currentColor (recolor card s) /\
    last (discardPile s') = last (discardPile s) /\
    length (players s') = length (players s) /\
    (direction s' = direction s \/ direction s' = direction s * -1)).
  { intros n (s1 & a1 & Hd & Hn)%bind_Some.
    rewrite nextTurn_run in Hn. injection Hn as <- _.
    apply drawCards_top in Hd as Htop. destruct Htop as [Htop _].
    apply drawCards_rest in Hd as (Hf & Hl & _).
    injection Hf as _ Hd' Hs' _ Hc' _ _ _ _.
    cbn [status currentColor discardPile players direction with_currentPlayerIndex].
    rewrite Hs', Hc', Htop, Hl, Hd'. repeat split; try done. by left. }
  destruct (type card); try apply Hdraw; try (by apply Hnext).
  - intros [= <- _]. repeat split; try done. by left.
  - destruct (decide _); [by apply Hnext |].
    intros [= <- _].
    cbn [status currentColor discardPile players direction with_direction].
    rewrite Hdir. repeat split; try done. by right.
  - intros [= <- _]. repeat split; try done. by left.
Qed.

(** The last three statements of [finalizeMove], with the message log. *)
Lemma commit_full (st : GameState) (b : bool) (a : App) :
  (setGameState st;; setPendingWildCard None;;
   when_ b (sendMultiplayerMessage (STATE_UPDATE st))) a =
  Some (tt,
        let stored := with_pendingWildCard (with_gameState a st) None in
        if b && connected a
        then with_sent stored (sent a ++ [STATE_UPDATE st]) else stored).
Proof. hsimpl. destruct b; [destruct a as [? ? ? ? []] |]; reflexivity. Qed.

(** A play that leaves cards in the hand, read backwards from its
    result: the commentary [c] and the random source [r] are those of the
    commentary step, [st2] is the state after the effect of the card. *)
Lemma finalizeMove_continue_inv card index w ov (a a' : App) p :
  isClient a = false ->
  let s := default (gameState a) ov in
  nthZ (players s) (currentPlayerIndex s) = Some p ->
  spliceOne (hand p) index <> [] ->
  finalizeMove card index w ov a = Some (tt, a') ->
  exists c r st2 a2,
    handleCardEffect card (with_aiComment (afterPlay card index w s p) c)
      (with_random (if isAi p then a
                    else with_humanMoves a (humanMoves a ++ [card])) r)
      = Some (st2, a2) /\
    gameState a' = with_currentPlayerIndex st2 (victimOf st2) /\
    pendingWildCard a' = None /\
    sent a' =
      (if bool_decide (gameMode a = ONLINE) && isHost a && connected a
       then sent a ++ [STATE_UPDATE (gameState a')] else sent a) /\
    humanMoves a' = (if isAi p then humanMoves a else humanMoves a ++ [card]) /\
    (gameMode a', isHost a', targetScore a', wittinessLevel a', connected a',
     statsUpdates a') =
    (gameMode a, isHost a, targetScore a, wittinessLevel a, connected a,
     statsUpdates a).
Proof.
  intros Hc s Hp Hne Hrun.
  rewrite (finalizeMove_unfold card index w ov a p Hc Hp) in Hrun. fold s in Hrun.
  apply bind_Some in Hrun as (st1 & a1 & Hmc & Hrun).
  apply moveComment_inv in Hmc as (c & r & -> & ->).
  destruct (decide _) as [Hz | _].
  { apply nil_length_inv in Hz. done. }
  apply bind_Some in Hrun as (st2 & a2 & Heff & Hrun).
  rewrite (bind_run _ _ _ _ _ (nextTurn_run st2 a2)) in Hrun.
  rewrite commit_full in Hrun. injection Hrun as <-.
  exists c, r, st2, a2. split; [exact Heff |].
  apply handleCardEffect_app in Heff as (r2 & b2 & ->).
  cbn zeta. clear Hc Hp Hne. clearbody s.
  destruct a as [mode host tgt wit conn gs pend inter hm su snt rnd].
  destruct (isAi p); cbn;
    destruct (bool_decide (mode = LOCAL)), (bool_decide (mode = ONLINE)),
      host, conn; cbn; done.
Qed.

Lemma handleCardEffect_total (card : Card) (s : GameState) (a : App) :
  type card <> DRAW_TWO -> type card <> WILD_DRAW_FOUR ->
  exists s' a', handleCardEffect card s a = Some (s', a').
Proof.
  intros H2 H4. unfold handleCardEffect.
  destruct (type card); try done; rewrite ?nextTurn_run; try by eexists _, _.
  destruct (decide _); rewrite ?nextTurn_run; by eexists _, _.
Qed.

Lemma finalizeMove_continue_total card index w ov (a : App) p :
  isClient a = false ->
  let s := default (gameState a) ov in
  (2 <= length (players s))%nat ->
  nthZ (players s) (currentPlayerIndex s) = Some p ->
  spliceOne (hand p) index <> [] ->
  type card <> DRAW_TWO -> type card <> WILD_DRAW_FOUR ->
  exists a', finalizeMove card index w ov a = Some (tt, a').
Proof.
  intros Hc s Hlen Hp Hne H2 H4.
  rewrite (finalizeMove_unfold card index w ov a p Hc Hp). fold s.
  destruct (moveComment_total (gameMode a) card
              (with_hand p (spliceOne (hand p) index)) (currentPlayerIndex s)
              (afterPlay card index w s p)
              (if isAi p then a else with_humanMoves a (humanMoves a ++ [card])))
    as (st1 & a1 & Hmc).
  { by rewrite afterPlay_players, length_insert. }
  rewrite (bind_run _ _ _ _ _ Hmc).
  destruct (decide _) as [Hz | _].
  { apply nil_length_inv in Hz. done. }
  destruct (handleCardEffect_total card st1 a1 H2 H4) as (st2 & a2 & Heff).
  rewrite (bind_run _ _ _ _ _ Heff).
  rewrite (bind_run _ _ _ _ _ (nextTurn_run st2 a2)).
  rewrite commit_full. by eexists.
Qed.

Lemma recolor_fields (card : Card) (s : GameState) :
  (deck (recolor card s), discardPile (recolor card s), players (recolor card s),
   currentPlayerIndex (recolor card s), direction (recolor card s),
   status (recolor card s)) =
  (deck s, discardPile s, players s, currentPlayerIndex s, direction s, status s) /\
  currentColor (recolor card s) =
    (if decide (color card = BLACK) then currentColor s else color card).
Proof. unfold recolor. by split_decide. Qed.

Lemma colorAfter_afterPlay card index w s p c :
  currentColor (recolor card (with_aiComment (afterPlay card index w s p) c)) =
  colorAfter card w s.
Proof.
  destruct (recolor_fields card (with_aiComment (afterPlay card index w s p) c))
    as [_ ->].
  cbn [currentColor with_aiComment]. rewrite afterPlay_currentColor.
  unfold colorAfter. destruct (decide (color card = BLACK)); [| done].
  by destruct w.
Qed.

(** X11.  A number, wild, skip or reverse card played without emptying
    the hand: [finalizeMove] returns; the card is on top of the pile, the
    deck and every other hand are untouched, the status is as before, the
    active colour is the colour of the card, or the colour chosen for a
    wild card.  A number or wild card passes the turn to the next seat; a
    skip passes it two seats on; a reverse with two players leaves it with
    the player who played, and with any other number of players flips the
    direction and passes the turn to the seat before. *)
Theorem play_without_draw card index w ov a p :
  isClient a = false ->
  let s := default (gameState a) ov in
  seated s ->
  (2 <= length (players s))%nat ->
  nthZ (players s) (currentPlayerIndex s) = Some p ->
  spliceOne (hand p) index <> [] ->
  type card <> DRAW_TWO -> type card <> WILD_DRAW_FOUR ->
  exists a',
    finalizeMove card index w ov a = Some (tt, a') /\
    let g := gameState a' in
    let len := Z.of_nat (length (players s)) in
    let cur := currentPlayerIndex s in
    let dir := direction s in
    deck g = deck s /\
    discardPile g = discardPile s ++ [card] /\
    players g =
      <[Z.to_nat cur := with_hand p (spliceOne (hand p) index)]> (players s) /\
    status g = status s /\
    currentColor g = colorAfter card w s /\
    (type card = NUMBER \/ type card = WILD ->
     currentPlayerIndex g = (cur + dir) `mod` len /\ direction g = dir) /\
    (type card = SKIP ->
     currentPlayerIndex g = (cur + 2 * dir) `mod` len /\ direction g = dir) /\
    (type card = REVERSE -> len = 2 ->
     currentPlayerIndex g = cur /\ direction g = dir) /\
    (type card = REVERSE -> len <> 2 ->
     currentPlayerIndex g = (cur - dir) `mod` len /\ direction g = dir * -1).
Proof.
  intros Hc s Hseat Hlen Hp Hne H2 H4.
  destruct (finalizeMove_continue_total card index w ov a p Hc Hlen Hp Hne H2 H4)
    as (a' & Hrun).
  exists a'. split; [exact Hrun |].
  destruct (finalizeMove_continue_inv card index w ov a a' p Hc Hp Hne Hrun)
    as (c & r & st2 & a2 & Heff & Hg & _).
  fold s in Heff. cbn zeta. rewrite Hg. clear Hg Hrun.
  set (st1 := with_aiComment (afterPlay card index w s p) c) in *.
  set (st0 := recolor card st1).
  destruct (recolor_fields card st1) as [Hf _].
  injection Hf as Hdk Hdp Hpl Hcur Hdir Hst. fold st0 in Hdk, Hdp, Hpl, Hcur, Hdir, Hst.
  assert (Hcol : currentColor st0 = colorAfter card w s)
    by apply colorAfter_afterPlay.
  unfold st1 in Hdk, Hdp, Hpl, Hcur, Hdir, Hst.
  cbn [deck discardPile players currentPlayerIndex direction status with_aiComment]
    in Hdk, Hdp, Hpl, Hcur, Hdir, Hst.
  rewrite afterPlay_deck in Hdk. rewrite afterPlay_discardPile in Hdp.
  rewrite afterPlay_players in Hpl. rewrite afterPlay_currentPlayerIndex in Hcur.
  rewrite afterPlay_direction in Hdir.
  assert (Hst' : status st0 = status s).
  { rewrite Hst. unfold afterPlay. destruct w; [destruct (decide _) |]; done. }
  assert (Hl0 : length (players st0) = length (players s))
    by (by rewrite Hpl, length_insert).
  pose proof (victimOf_seatAfter s Hseat) as Hsa.
  assert (Hv0 : victimOf st0 = victimOf s) by (by apply victimOf_ext).
  unfold handleCardEffect in Heff. rewrite handleCardEffect_recolor in Heff.
  fold st0 in Heff.
  assert (Hstay : st2 = st0 ->
    deck (with_currentPlayerIndex st2 (victimOf st2)) = deck s /\
    discardPile (with_currentPlayerIndex st2 (victimOf st2)) = discardPile s ++ [card] /\
    players (with_currentPlayerIndex st2 (victimOf st2)) =
      <[Z.to_nat (currentPlayerIndex s) := with_hand p (spliceOne (hand p) index)]>
        (players s) /\
    status (with_currentPlayerIndex st2 (victimOf st2)) = status s /\
    currentColor (with_currentPlayerIndex st2 (victimOf st2)) = colorAfter card w s /\
    currentPlayerIndex (with_currentPlayerIndex st2 (victimOf st2)) = seatAfter s /\
    direction (with_currentPlayerIndex st2 (victimOf st2)) = direction s).
  { intros ->. cbn [deck discardPile players status currentColor currentPlayerIndex
                    direction with_currentPlayerIndex].
    rewrite Hv0, Hsa. done. }
  assert (Hskip : st2 = with_currentPlayerIndex st0 (victimOf st0) ->
    deck (with_currentPlayerIndex st2 (victimOf st2)) = deck s /\
    discardPile (with_currentPlayerIndex st2 (victimOf st2)) = discardPile s ++ [card] /\
    players (with_currentPlayerIndex st2 (victimOf st2)) =
      <[Z.to_nat (currentPlayerIndex s) := with_hand p (spliceOne (hand p) index)]>
        (players s) /\
    status (with_currentPlayerIndex st2 (victimOf st2)) = status s /\
    currentColor (with_currentPlayerIndex st2 (victimOf st2)) = colorAfter card w s /\
    currentPlayerIndex (with_currentPlayerIndex st2 (victimOf st2)) =
      (currentPlayerIndex s + 2 * direction s) `mod` Z.of_nat (length (players s)) /\
    (length (players s) = 2%nat ->
     currentPlayerIndex (with_currentPlayerIndex st2 (victimOf st2)) =
       currentPlayerIndex s) /\
    direction (with_currentPlayerIndex st2 (victimOf st2)) = direction s).
  { intros ->. cbn [deck discardPile players status currentColor currentPlayerIndex
                    direction with_currentPlayerIndex].
    destruct (victimOf_twice s (with_currentPlayerIndex st0 (victimOf st0)))
      as (Htw & _ & Hback); done. }
  destruct (type card) eqn:Hty; try done.
  - injection Heff as <- _. destruct (Hstay eq_refl) as (? & ? & ? & ? & ? & ? & ?).
    split_and!; try done; intros; by split.
  - rewrite nextTurn_run in Heff. injection Heff as <- _.
    destruct (Hskip eq_refl) as (? & ? & ? & ? & ? & ? & ? & ?).
    split_and!; try done; intros; try by split. by destruct_or!.
  - rewrite Hl0 in Heff.
    destruct (decide (length (players s) = 2%nat)) as [Htwo | Hmany].
    + rewrite nextTurn_run in Heff. injection Heff as <- _.
      destruct (Hskip eq_refl) as (? & ? & ? & ? & ? & ? & Hback & ?).
      split_and!; try done; intros; try (by destruct_or!); lia.
    + injection Heff as <- _.
      cbn [deck discardPile players status currentColor currentPlayerIndex
           direction with_currentPlayerIndex with_direction].
      rewrite Hdir.
      split_and!; try done; intros; try (by destruct_or!); try lia.
      split; [| done].
      assert (Hseat' : seated (with_direction st0 (direction s * -1))).
      { destruct Hseat as [Hin Hsign]. split.
        - cbn [currentPlayerIndex players with_direction]. by rewrite Hcur, Hl0.
        - cbn [direction with_direction]. lia. }
      rewrite (victimOf_seatAfter _ Hseat'). unfold seatAfter.
      cbn [currentPlayerIndex players direction with_direction].
      rewrite Hcur, Hl0. f_equal. lia.
  - injection Heff as <- _. destruct (Hstay eq_refl) as (? & ? & ? & ? & ? & ? & ?).
    split_and!; try done; intros; by split.
Qed.

End PlayFacts.

(** ** Gates, the colour picker and the follower *)

Section HandlerFacts.
Context `{ArraySort}.

Lemma handlers_gated card index (a : App) :
  status (gameState a) <> PLAYING \/ isMyTurn a = false ->
  handleHumanPlay card index a = Some (tt, a) /\ handleHumanDraw a = Some (tt, a).
Proof.
  intros Hgate. unfold handleHumanPlay, handleHumanDraw. hsimpl.
  destruct Hgate as [Hst | Hturn].
  - by rewrite bool_decide_eq_false_2 by done.
  - destruct (bool_decide _); cbn [negb]; rewrite ?Hturn; done.
Qed.

(** X12.  Outside a round in progress, and when it is not the turn of the
    player at this screen, a click on a card and a click on the deck
    change nothing.  In particular once the connection has closed: the
    ['close'] listener marks the connection as closed and puts the match
    back in the lobby, and both handlers then leave the component as it
    is. *)
Theorem human_handlers_gated card index (a : App) :
  (status (gameState a) <> PLAYING \/ isMyTurn a = false ->
   handleHumanPlay card index a = Some (tt, a) /\
   handleHumanDraw a = Some (tt, a)) /\
  (exists a1,
     onClose a = Some (tt, a1) /\
     a1 = with_gameState (with_connected a false) (with_status (gameState a) LOBBY) /\
     handleHumanPlay card index a1 = Some (tt, a1) /\
     handleHumanDraw a1 = Some (tt, a1)).
Proof.
  split; [apply handlers_gated |].
  eexists. split; [reflexivity |]. split; [reflexivity |].
  apply handlers_gated. left. discriminate.
Qed.

Lemma findIndex_first {A} (p : A -> bool) (l : list A) (i : nat) (x : A) :
  l !! i = Some x -> p x = true ->
  (forall j y, (j < i)%nat -> l !! j = Some y -> p y = false) ->
  findIndex p l = Z.of_nat i.
Proof.
  revert i. induction l as [| x0 l IH]; intros i Hx Hp Hbefore; [done |].
  destruct i as [| i]; simpl in *.
  - injection Hx as ->. by rewrite Hp.
  - rewrite (Hbefore 0%nat x0) by (done || lia).
    rewrite (IH i Hx Hp).
    + destruct (decide _); lia.
    + intros j y Hj Hy. apply (Hbefore (S j) y); [lia | done].
Qed.

Lemma findIndex_by_id (h : list Card) (index : Z) (card : Card) :
  NoDup (card_id <$> h) -> nthZ h index = Some card ->
  findIndex (fun c => bool_decide (card_id c = card_id card)) h = index.
Proof.
  intros Hnd [Hge Hl]%nthZ_Some.
  rewrite (findIndex_first _ h (Z.to_nat index) card);
    [lia | done | by apply bool_decide_eq_true |].
  intros j y Hj Hy. apply bool_decide_eq_false. intros Heq.
  assert (j = Z.to_nat index); [| lia].
  apply (NoDup_lookup _ j (Z.to_nat index) (card_id card) Hnd);
    rewrite list_lookup_fmap.
  - by rewrite Hy; simpl; rewrite Heq.
  - by rewrite Hl.
Qed.

Lemma pickerSeat_myTurn (a : App) :
  isMyTurn a = true -> pickerSeat a = currentPlayerIndex (gameState a).
Proof.
  unfold isMyTurn, pickerSeat, isClient.
  destruct (gameMode a), (isHost a); cbn;
    repeat case_bool_decide; try done; intros; lia.
Qed.

Lemma handleColorPick_unfold c (a : App) :
  handleColorPick c a =
  match pendingWildCard a with
  | None => Some (tt, a)
  | Some pendingCard =>
      match nthZ (players (gameState a)) (pickerSeat a) with
      | Some me =>
          let index :=
            findIndex (fun x => bool_decide (card_id x = card_id pendingCard)) (hand me) in
          if decide (index = -1) then Some (tt, with_pendingWildCard a None)
          else finalizeMove pendingCard index (Some c) None a
      | None => None
      end
  end.
Proof.
  unfold handleColorPick, pickerSeat, isClient. hsimpl.
  destruct (pendingWildCard a); [| done].
  destruct (nthZ _ _); [| done]. cbn zeta. by destruct (decide _).
Qed.

(** X13.  A wild card clicked in turn is not played at once:
    [handleHumanPlay] only records it as the pending card, whatever is on
    the pile; when the ids of the hand are pairwise distinct, the colour
    pick that follows is [finalizeMove] of that very card, at the index it
    was clicked at, with the picked colour. *)
Theorem wild_goes_through_picker card index c (a : App) me :
  status (gameState a) = PLAYING ->
  isMyTurn a = true ->
  color card = BLACK ->
  nthZ (players (gameState a)) (currentPlayerIndex (gameState a)) = Some me ->
  nthZ (hand me) index = Some card ->
  NoDup (card_id <$> hand me) ->
  let a1 := with_pendingWildCard a (Some card) in
  handleHumanPlay card index a = Some (tt, a1) /\
  handleColorPick c a1 = finalizeMove card index (Some c) None a1.
Proof.
  intros Hst Hturn Hblack Hme Hcard Hnd a1. split.
  - unfold handleHumanPlay. hsimpl. rewrite bool_decide_eq_true_2 by done.
    cbn [negb]. rewrite Hturn. cbn [negb].
    unfold isValidMoveAt, isValidMove.
    destruct (last _); hsimpl; destruct (decide (color card = BLACK)); done.
  - rewrite handleColorPick_unfold.
    assert (Hseat : pickerSeat a1 = currentPlayerIndex (gameState a))
      by (by apply (pickerSeat_myTurn a1)).
    cbn [pendingWildCard gameState with_pendingWildCard a1].
    rewrite Hseat. cbn [gameState with_pendingWildCard]. rewrite Hme. cbn zeta.
    rewrite (findIndex_by_id (hand me) index card Hnd Hcard).
    apply nthZ_lt in Hcard.
    destruct (decide (index = -1)); [lia | done].
Qed.

(** X14.  A colour pick with no pending card changes nothing; with a
    pending card that is no longer in the hand at the picker's seat it
    only closes the picker. *)
Theorem handleColorPick_without_card c (a : App) :
  (pendingWildCard a = None -> handleColorPick c a = Some (tt, a)) /\
  (forall card me,
     pendingWildCard a = Some card ->
     nthZ (players (gameState a)) (pickerSeat a) = Some me ->
     card_id card ∉ (card_id <$> hand me) ->
     handleColorPick c a = Some (tt, with_pendingWildCard a None)).
Proof.
  rewrite handleColorPick_unfold. split.
  - by intros ->.
  - intros card me -> -> Hnot. cbn zeta.
    destruct (decide _) as [_ | Hne]; [done |].
    exfalso. apply Hne, findIndex_none, Forall_forall.
    intros x Hx. apply bool_decide_eq_false. intros Heq. apply Hnot.
    rewrite <- Heq. by apply list_elem_of_fmap_2.
Qed.


Lemma finalizeMove_player card index w ov (a a' : App) :
  isClient a = false ->
  finalizeMove card index w ov a = Some (tt, a') ->
  exists p,
    nthZ (players (default (gameState a) ov))
      (currentPlayerIndex (default (gameState a) ov)) = Some p.
Proof.
  intros Hc Hrun.
  destruct (nthZ _ _) as [p |] eqn:Hp; [by exists p |].
  exfalso. unfold finalizeMove, isClient in *. hsimpl_in Hrun.
  rewrite Hc in Hrun. cbn [currentPlayerIndex players with_discardPile] in Hrun.
  by rewrite Hp in Hrun.
Qed.

Lemma roundWon_sent mode host pl idx st (a a' : App) :
  roundWon mode host pl idx st a = Some (tt, a') ->
  sent a' =
    (if bool_decide (mode = ONLINE) && host && connected a
     then sent a ++ [STATE_UPDATE (gameState a')] else sent a) /\
  (gameMode a', isHost a', connected a', pendingWildCard a', humanMoves a') =
  (gameMode a, isHost a, connected a, pendingWildCard a, humanMoves a).
Proof.
  unfold roundWon. hsimpl. cbn [score with_score name].
  destruct a as [m hst tgt wit conn gs pend inter hm su snt rnd].
  cbn [targetScore].
  destruct (bool_decide (score pl + opponentPointsOf (players st) idx >= tgt));
    hsimpl;
    destruct (bool_decide (mode = AI)), (bool_decide (mode = ONLINE)), host, conn;
    cbn; intros [= <-]; done.
Qed.

Lemma finalizeMove_sent card index w ov (a a' : App) :
  isClient a = false ->
  finalizeMove card index w ov a = Some (tt, a') ->
  sent a' =
    (if bool_decide (gameMode a = ONLINE) && isHost a && connected a
     then sent a ++ [STATE_UPDATE (gameState a')] else sent a).
Proof.
  intros Hc Hrun.
  destruct (finalizeMove_player _ _ _ _ _ _ Hc Hrun) as [p Hp].
  destruct (decide (spliceOne (hand p) index = [])) as [Hempty | Hne].
  - rewrite (finalizeMove_unfold card index w ov a p Hc Hp) in Hrun.
    apply bind_Some in Hrun as (st1 & a1 & Hmc & Hrun).
    apply moveComment_inv in Hmc as (c & r & -> & ->).
    rewrite Hempty in Hrun. cbn [hand with_hand length] in Hrun.
    destruct (decide (0%nat = 0%nat)) as [_ | ?]; [| done].
    apply roundWon_sent in Hrun as [-> _].
    by destruct (isAi p).
  - by destruct (finalizeMove_continue_inv card index w ov a a' p Hc Hp Hne Hrun)
      as (_ & _ & _ & _ & _ & _ & _ & Hsent & _).
Qed.

Lemma client_request card index w ov (a a' : App) :
  isClient a = true ->
  finalizeMove card index w ov a = Some (tt, a') ->
  gameState a' = gameState a /\
  pendingWildCard a' = pendingWildCard a /\
  sent a' = (if connected a then sent a ++ [PLAYER_MOVE (card_id card) w] else sent a).
Proof.
  intros Hc. rewrite finalizeMove_client by done. intros [= <-].
  by destruct (connected a).
Qed.

(** X15.  On the follower of an online match no click and no play
    changes the match state: a handler leaves the messages sent as they
    are or, with the connection open, appends one request to the host, a
    draw request or a move request. *)
Theorem follower_only_requests card index c w ov (a a' : App) :
  isClient a = true ->
  handleHumanPlay card index a = Some (tt, a') \/
  handleHumanDraw a = Some (tt, a') \/
  handleColorPick c a = Some (tt, a') \/
  finalizeMove card index w ov a = Some (tt, a') ->
  gameState a' = gameState a /\
  (sent a' = sent a \/
   connected a = true /\
   (sent a' = sent a ++ [PLAYER_DRAW] \/
    exists cardId colour, sent a' = sent a ++ [PLAYER_MOVE cardId colour])).
Proof.
  intros Hc.
  assert (Hmove : forall card index w ov,
    finalizeMove card index w ov a = Some (tt, a') ->
    gameState a' = gameState a /\
    (sent a' = sent a \/
     connected a = true /\
     (sent a' = sent a ++ [PLAYER_DRAW] \/
      exists cardId colour, sent a' = sent a ++ [PLAYER_MOVE cardId colour]))).
  { intros card0 index0 w0 ov0 Hrun.
    apply client_request in Hrun as (Hg & _ & Hs); [| done].
    split; [done |]. destruct (connected a); [| by left].
    right. split; [done |]. right. by eexists _, _. }
  intros [Hrun | [Hrun | [Hrun | Hrun]]].
  - unfold handleHumanPlay in Hrun.
    apply bind_Some in Hrun as (gs & a0 & [= <- <-] & Hrun).
    destruct (negb _); [injection Hrun as <-; auto |].
    apply bind_Some in Hrun as (turn & a0 & [= <- <-] & Hrun).
    destruct (negb _); [injection Hrun as <-; auto |].
    apply bind_Some in Hrun as (valid & a1 & Hvalid & Hrun).
    apply isValidMoveAt_inv in Hvalid as ->.
    destruct (negb _); [injection Hrun as <-; auto |].
    destruct (decide (color card = BLACK)); [| by eapply Hmove].
    hsimpl_in Hrun. injection Hrun as <-. auto.
  - unfold handleHumanDraw in Hrun.
    apply bind_Some in Hrun as (gs & a0 & [= <- <-] & Hrun).
    destruct (negb _); [injection Hrun as <-; auto |].
    apply bind_Some in Hrun as (turn & a0 & [= <- <-] & Hrun).
    destruct (negb _); [injection Hrun as <-; auto |].
    hsimpl_in Hrun. unfold isClient in Hc. rewrite Hc in Hrun.
    injection Hrun as <-.
    destruct (connected a); cbn; [| auto].
    split; [done |]. right. auto.
  - rewrite handleColorPick_unfold in Hrun.
    destruct (pendingWildCard a); [| injection Hrun as <-; auto].
    destruct (nthZ _ _); [| done]. cbn zeta in Hrun.
    destruct (decide _); [injection Hrun as <-; auto |].
    by eapply Hmove.
  - by eapply Hmove.
Qed.

End HandlerFacts.

(** ** Round setup and the ways to start a round *)

Lemma deal_roster (cfg : list Player) (d : list Card) :
  Forall2 (fun q p => p = with_hand q (hand p)) cfg (deal cfg d).1.
Proof.
  revert d. induction cfg as [| q cfg IH]; intros d; [constructor |].
  simpl. specialize (IH (drop 7 d)).
  destruct (deal cfg (drop 7 d)) as [ps d']. simpl in *.
  by constructor.
Qed.

Lemma deal_sevens (cfg : list Player) (d : list Card) :
  (7 * length cfg <= length d)%nat ->
  dealtTo cfg (deal cfg d).1 /\
  length (deal cfg d).2 = (length d - 7 * length cfg)%nat.
Proof.
  revert d. induction cfg as [| q cfg IH]; intros d Hlen.
  - simpl. split; [constructor | lia].
  - simpl in *. specialize (IH (drop 7 d)).
    rewrite length_drop in IH.
    destruct (deal cfg (drop 7 d)) as [ps d']. simpl in *.
    destruct IH as [IH1 IH2]; [lia |].
    split; [| lia].
    constructor; [| done]. cbn [hand with_hand]. split; [done |].
    rewrite length_take. lia.
Qed.

Lemma openRound_shape (cfg : list Player) (a : App) :
  exists dk c ps r',
    openRound cfg a =
      Some ((dk, [c], ps, if decide (color c = BLACK) then RED else color c),
            with_random a r') /\
    type c <> WILD_DRAW_FOUR /\
    dk ++ [c] ++ handsOf ps ≡ₚ unshuffledDeck /\
    Forall2 (fun q p => p = with_hand q (hand p)) cfg ps /\
    ((length cfg <= 15)%nat ->
     dealtTo cfg ps /\ length dk = (107 - 7 * length cfg)%nat).
Proof.
  unfold openRound.
  rewrite (bind_run _ _ a (createDeck (random a)).1
             (with_random a (createDeck (random a)).2)) by done.
  pose proof (createDeck_perm (random a)) as Hperm.
  destruct (createDeck (random a)).1 as [| first d] eqn:Hdeck.
  { apply Permutation_length in Hperm. by vm_compute in Hperm. }
  destruct (first_playable (first :: d)) as (pre & c & post & Hsplit & Hpre & Hc).
  { exists (mkCard "card-0" RED NUMBER (Some 0)). split; [| done].
    rewrite Hperm. apply list_elem_of_In. vm_compute. by left. }
  assert (Hfuel : (length pre <= length d)%nat).
  { apply (f_equal length) in Hsplit.
    rewrite length_app in Hsplit. simpl in Hsplit. lia. }
  rewrite (pickStartCard_rotates pre c post (length d) first d Hpre Hc Hfuel Hsplit).
  hsimpl.
  pose proof (deal_cards cfg (post ++ pre)) as Hdeal.
  pose proof (deal_roster cfg (post ++ pre)) as Hroster.
  pose proof (deal_sevens cfg (post ++ pre)) as Hsevens.
  assert (Hrest : length (post ++ pre) = 107%nat).
  { apply Permutation_length in Hperm. rewrite Hsplit in Hperm.
    rewrite !length_app in *. simpl in Hperm.
    change (length unshuffledDeck) with 108%nat in Hperm. lia. }
  rewrite Hrest in Hsevens.
  destruct (deal cfg (post ++ pre)) as [ps d'].
  exists d', c, ps, (createDeck (random a)).2. split; [reflexivity |].
  split; [done |]. simpl in Hdeal, Hroster, Hsevens.
  split.
  { rewrite <- Hperm, Hsplit.
    transitivity (c :: (handsOf ps ++ d')).
    - simpl. rewrite <- Permutation_middle. constructor. apply (comm (++)).
    - rewrite Hdeal, <- Permutation_middle. constructor. apply (comm (++)). }
  split; [done |].
  intros Hle. apply Hsevens. lia.
Qed.

Lemma setupRound_shape (cfg : list Player) (start : Z) (a : App) :
  exists dk c ps r' note,
    setupRound cfg start a =
      Some (tt, with_gameState (with_random a r')
                  (mkGameState dk [c] ps start 1 PLAYING None
                     (if decide (color c = BLACK) then RED else color c)
                     note false None (Some 0))) /\
    type c <> WILD_DRAW_FOUR /\
    dk ++ [c] ++ handsOf ps ≡ₚ unshuffledDeck /\
    Forall2 (fun q p => p = with_hand q (hand p)) cfg ps /\
    ((length cfg <= 15)%nat ->
     dealtTo cfg ps /\ length dk = (107 - 7 * length cfg)%nat).
Proof.
  destruct (openRound_shape cfg a) as (dk & c & ps & r' & Hrun & Hrest).
  unfold setupRound. rewrite (bind_run _ _ _ _ _ Hrun). hsimpl.
  by eexists dk, c, ps, r', _.
Qed.

Lemma freshRound_intro cfg start dk c ps note :
  type c <> WILD_DRAW_FOUR ->
  dk ++ [c] ++ handsOf ps ≡ₚ unshuffledDeck ->
  dealtTo cfg ps -> length dk = (107 - 7 * length cfg)%nat ->
  freshRound cfg start
    (mkGameState dk [c] ps start 1 PLAYING None
       (if decide (color c = BLACK) then RED else color c)
       note false None (Some 0)).
Proof.
  intros Hc Hperm Hdealt Hdk. unfold freshRound. cbn.
  split; [done |]. split; [by exists c |]. done.
Qed.

(** X16.  For up to fifteen players [setupRound] always completes and
    leaves a fresh round: every configured player keeps identity and
    score and holds seven cards, one card that is not a wild-draw-four is
    on the pile and its colour (red for a wild card) is active, the other
    cards of the 108 are in the deck, play goes clockwise from the start
    player; of the component only the match state and the random source
    change. *)
Theorem setupRound_deals (cfg : list Player) (start : Z) (a : App) :
  (length cfg <= 15)%nat ->
  exists a' r',
    setupRound cfg start a = Some (tt, a') /\
    freshRound cfg start (gameState a') /\
    a' = with_gameState (with_random a r') (gameState a').
Proof.
  intros Hlen.
  destruct (setupRound_shape cfg start a)
    as (dk & c & ps & r' & note & Hrun & Hc & Hperm & _ & Hdealt).
  destruct (Hdealt Hlen) as [Hd Hdk].
  eexists _, r'. split; [exact Hrun |].
  split; [by apply freshRound_intro | done].
Qed.

(** X17.  [startMatch] and [startLocalMatch] always complete: the mode
    is set, the record of the human moves is emptied, and a fresh round
    for the two players of the mode (the computer in the second seat of a
    match against it), both with score 0, starts at seat 0; a
    pass-and-play match starts without intermission. *)
Theorem match_starts_fresh (a : App) :
  (exists a' cfg,
     startMatch a = Some (tt, a') /\
     gameMode a' = AI /\ humanMoves a' = [] /\
     map signup cfg = [("p1", "You", false, 0); ("p2", "Gemini", true, 0)] /\
     freshRound cfg 0 (gameState a')) /\
  (exists a' cfg,
     startLocalMatch a = Some (tt, a') /\
     gameMode a' = LOCAL /\ humanMoves a' = [] /\
     showLocalIntermission a' = false /\
     map signup cfg = [("p1", "Player 1", false, 0); ("p2", "Player 2", false, 0)] /\
     freshRound cfg 0 (gameState a')).
Proof.
  split.
  - unfold startMatch. hsimpl.
    match goal with
    | |- context [setupRound ?cfg 0 ?a1] =>
        destruct (setupRound_shape cfg 0 a1)
          as (dk & c & ps & r' & note & Hrun & Hc & Hperm & _ & Hdealt);
        destruct Hdealt as [Hd Hdk]; [simpl; lia |];
        exists (with_gameState (with_random a1 r')
                  (mkGameState dk [c] ps 0 1 PLAYING None
                     (if decide (color c = BLACK) then RED else color c)
                     note false None (Some 0))), cfg
    end.
    split; [exact Hrun |]. split; [done |]. split; [done |]. split; [done |].
    by apply freshRound_intro.
  - unfold startLocalMatch. hsimpl.
    match goal with
    | |- context [setupRound ?cfg 0 ?a1] =>
        destruct (setupRound_shape cfg 0 a1)
          as (dk & c & ps & r' & note & Hrun & Hc & Hperm & _ & Hdealt);
        destruct Hdealt as [Hd Hdk]; [simpl; lia |];
        exists (with_showLocalIntermission
                  (with_gameState (with_random a1 r')
                     (mkGameState dk [c] ps 0 1 PLAYING None
                        (if decide (color c = BLACK) then RED else color c)
                        note false None (Some 0))) false), cfg
    end.
    rewrite Hrun.
    split; [done |]. split; [done |]. split; [done |]. split; [done |].
    split; [done |].
    by apply freshRound_intro.
Qed.

Lemma dealtTo_cleared (ps0 ps : list Player) :
  Forall2 (fun q p => p = with_hand q (hand p)) (map clearHand ps0) ps ->
  map identity ps = map identity ps0 /\ map score ps = map score ps0.
Proof.
  revert ps. induction ps0 as [| q ps0 IH]; intros ps Hall.
  - by apply Forall2_nil_inv_l in Hall as ->.
  - simpl in Hall. apply Forall2_cons_inv_l in Hall as (p & ps' & Hp & Hrest & ->).
    destruct (IH ps' Hrest) as [IH1 IH2].
    simpl. rewrite IH1, IH2, Hp. done.
Qed.

(** X18.  Off line, [nextRound] deals a fresh round to the players of
    the table: nobody joins or leaves and the scores carry over.  In
    pass-and-play the round starts at the remainder of pointer + 1 by 2,
    behind the intermission screen; against the computer it starts at a
    random seat of the table. *)
Theorem nextRound_keeps_scores (a : App) :
  gameMode a <> ONLINE ->
  (length (players (gameState a)) <= 15)%nat ->
  exists a' start,
    nextRound a = Some (tt, a') /\
    freshRound (map clearHand (players (gameState a))) start (gameState a') /\
    roster (gameState a') = roster (gameState a) /\
    scores (gameState a') = scores (gameState a) /\
    (gameMode a = LOCAL ->
     start = Z.rem (currentPlayerIndex (gameState a) + 1) 2 /\
     showLocalIntermission a' = true) /\
    (gameMode a = AI -> players (gameState a) <> [] ->
     0 <= start < Z.of_nat (length (players (gameState a)))).
Proof.
  intros Hmode Hlen. unfold nextRound. hsimpl.
  rewrite bool_decide_eq_false_2 by done.
  destruct (bool_decide (gameMode a = LOCAL)) eqn:Hlocal.
  - apply bool_decide_eq_true in Hlocal.
    destruct (setupRound_shape (map clearHand (players (gameState a)))
                (Z.rem (currentPlayerIndex (gameState a) + 1) 2) a)
      as (dk & c & ps & r' & note & Hrun & Hc & Hperm & Hroster & Hdealt).
    destruct Hdealt as [Hd Hdk]; [by rewrite length_map |].
    rewrite Hrun. eexists _, _. split; [reflexivity |].
    cbn [gameState with_showLocalIntermission with_gameState showLocalIntermission].
    split; [by apply freshRound_intro |].
    apply dealtTo_cleared in Hroster as [Hid Hsc].
    split; [done |]. split; [done |]. split; [done |].
    intros Hai. congruence.
  - apply bool_decide_eq_false in Hlocal.
    set (n := length (map clearHand (players (gameState a)))).
    set (k := (randomBelow n (random a)).1).
    set (a1 := with_random a (randomBelow n (random a)).2).
    destruct (setupRound_shape (map clearHand (players (gameState a)))
                (Z.of_nat k) a1)
      as (dk & c & ps & r' & note & Hrun & Hc & Hperm & Hroster & Hdealt).
    destruct Hdealt as [Hd Hdk]; [by rewrite length_map |].
    rewrite Hrun. eexists _, _. split; [reflexivity |].
    cbn [gameState with_gameState].
    split; [by apply freshRound_intro |].
    apply dealtTo_cleared in Hroster as [Hid Hsc].
    split; [done |]. split; [done |]. split; [done |].
    intros _ Hne.
    assert (Hk : (k < n)%nat).
    { apply randomBelow_lt. unfold n. rewrite length_map.
      destruct (players (gameState a)); [done | simpl; lia]. }
    unfold n in Hk. rewrite length_map in Hk. lia.
Qed.

Lemma startMultiplayerMatch_shape (resetScores : bool) (a : App) :
  isHost a = true ->
  exists cfg dk c ps r',
    startMultiplayerMatch resetScores a =
      (let g := mkGameState dk [c] ps 0 1 PLAYING None
                  (if decide (color c = BLACK) then RED else color c)
                  "Online Match Started!" false None (Some 0) in
       let stored := with_gameState (with_random a r') g in
       Some (tt, if connected a
                 then with_sent stored (sent a ++ [STATE_UPDATE g]) else stored)) /\
    (if resetScores || bool_decide (length (players (gameState a)) = 0%nat)
     then newcomers cfg
     else cfg = map clearHand (players (gameState a))) /\
    type c <> WILD_DRAW_FOUR /\
    dk ++ [c] ++ handsOf ps ≡ₚ unshuffledDeck /\
    Forall2 (fun q p => p = with_hand q (hand p)) cfg ps /\
    ((length cfg <= 15)%nat ->
     dealtTo cfg ps /\ length dk = (107 - 7 * length cfg)%nat).
Proof.
  intros Hhost. unfold startMultiplayerMatch. hsimpl. rewrite Hhost. cbn [negb].
  match goal with
  | |- context [openRound ?cfg ?a1] =>
      destruct (openRound_shape cfg a1) as (dk & c & ps & r' & Hrun & Hrest);
      exists cfg, dk, c, ps, r'; rewrite Hrun
  end.
  split.
  { cbn zeta. cbn [connected with_gameState with_random].
    destruct (connected a) eqn:Hconn; reflexivity. }
  split; [| exact Hrest].
  cbn [gameState with_random].
  by destruct (resetScores || _).
Qed.

(** ** The two sides of an online match *)

(** X19.  [startMultiplayerMatch] does nothing on a peer that is not the
    host.  On the host it deals a fresh round from seat 0, to two new
    players with score 0 when scores are reset or nobody sits at the
    table, and otherwise to the players of the table with their scores;
    with the connection open the stored state is sent to the follower. *)
Theorem startMultiplayerMatch_host (resetScores : bool) (a : App) :
  (isHost a = false -> startMultiplayerMatch resetScores a = Some (tt, a)) /\
  (isHost a = true ->
   (length (players (gameState a)) <= 15)%nat ->
   exists a' cfg,
     startMultiplayerMatch resetScores a = Some (tt, a') /\
     freshRound cfg 0 (gameState a') /\
     (if resetScores || bool_decide (length (players (gameState a)) = 0%nat)
      then newcomers cfg
      else cfg = map clearHand (players (gameState a)) /\
           roster (gameState a') = roster (gameState a) /\
           scores (gameState a') = scores (gameState a)) /\
     sent a' =
       (if connected a then sent a ++ [STATE_UPDATE (gameState a')] else sent a)).
Proof.
  split.
  - intros Hhost. unfold startMultiplayerMatch. hsimpl. by rewrite Hhost.
  - intros Hhost Hlen.
    destruct (startMultiplayerMatch_shape resetScores a Hhost)
      as (cfg & dk & c & ps & r' & Hrun & Hcfg & Hc & Hperm & Hroster & Hdealt).
    assert (Hsize : (length cfg <= 15)%nat).
    { destruct (resetScores || _).
      - apply (f_equal length) in Hcfg. rewrite length_map in Hcfg.
        simpl in Hcfg. lia.
      - subst cfg. by rewrite length_map. }
    destruct (Hdealt Hsize) as [Hd Hdk].
    eexists _, cfg. split; [exact Hrun |]. cbn zeta.
    assert (Hfresh := freshRound_intro cfg 0 dk c ps "Online Match Started!"
                        Hc Hperm Hd Hdk).
    destruct (connected a); cbn [gameState with_sent with_gameState sent with_random];
      (split; [exact Hfresh |]); (split; [| done]);
      destruct (resetScores || _); try done; subst cfg;
      apply dealtTo_cleared in Hroster as [Hid Hsc]; done.
Qed.

Section SyncFacts.
Context `{ArraySort}.

Lemma handleHumanDraw_sent (a a' : App) :
  status (gameState a) = PLAYING ->
  isMyTurn a = true ->
  gameMode a = ONLINE -> isHost a = true ->
  handleHumanDraw a = Some (tt, a') ->
  sent a' = (if connected a then sent a ++ [STATE_UPDATE (gameState a')] else sent a).
Proof.
  intros Hst Hturn Hmode Hhost. unfold handleHumanDraw. intros Hrun.
  apply bind_Some in Hrun as (gs & a0 & [= <- <-] & Hrun).
  rewrite Hst in Hrun. rewrite bool_decide_eq_true_2 in Hrun by done.
  cbn [negb] in Hrun.
  apply bind_Some in Hrun as (turn & a0 & [= <- <-] & Hrun).
  rewrite Hturn in Hrun. cbn [negb] in Hrun.
  apply bind_Some in Hrun as (mode & a0 & [= <- <-] & Hrun).
  apply bind_Some in Hrun as (host & a0 & [= <- <-] & Hrun).
  rewrite Hmode, Hhost in Hrun.
  rewrite bool_decide_eq_true_2 in Hrun by done. cbn [negb andb] in Hrun.
  apply bind_Some in Hrun as (s1 & a1 & Hdraw & Hrun).
  apply drawCards_rest in Hdraw as (_ & _ & _ & _ & r & ->).
  apply bind_Some in Hrun as (s2 & a2 & Hcomment & Hrun).
  rewrite bool_decide_eq_false_2 in Hcomment by done.
  apply bind_Some in Hcomment as (p & a3 & Hp & Hcomment).
  apply defined_Some in Hp as [_ ->]. injection Hcomment as <- <-.
  rewrite (bind_run _ _ _ _ _ (nextTurn_run _ _)) in Hrun.
  hsimpl_in Hrun. injection Hrun as <-.
  destruct a as [mode host tgt wit conn gs pend inter hm su snt rnd].
  cbn in *. subst mode. cbn. by destruct conn.
Qed.

(** X20.  On a connected host every play, every draw the host makes in
    its turn and every match start ends by sending exactly one message,
    the state it has just stored; a peer whose listener receives this
    message holds the host's match state, whatever the render of that
    listener. *)
Theorem host_broadcasts_state card index w b (h h' : App) :
  gameMode h = ONLINE -> isHost h = true -> connected h = true ->
  finalizeMove card index w None h = Some (tt, h') \/
  (status (gameState h) = PLAYING /\ isMyTurn h = true /\
   handleHumanDraw h = Some (tt, h')) \/
  startMultiplayerMatch b h = Some (tt, h') ->
  sent h' = sent h ++ [STATE_UPDATE (gameState h')] /\
  forall render f f',
    onData render (STATE_UPDATE (gameState h')) f = Some (tt, f') ->
    gameState f' = gameState h'.
Proof.
  intros Hmode Hhost Hconn Hrun.
  split; [| by intros render f f' [= <-]].
  destruct Hrun as [Hrun | [(Hst & Hturn & Hrun) | Hrun]].
  - assert (Hc : isClient h = false)
      by (unfold isClient; by rewrite Hhost, andb_false_r).
    rewrite (finalizeMove_sent _ _ _ _ _ _ Hc Hrun).
    by rewrite Hmode, Hhost, Hconn.
  - rewrite (handleHumanDraw_sent _ _ Hst Hturn Hmode Hhost Hrun).
    by rewrite Hconn.
  - destruct (startMultiplayerMatch_shape b h Hhost)
      as (cfg & dk & c & ps & r' & Heq & _).
    rewrite Heq in Hrun. cbn zeta in Hrun. rewrite Hconn in Hrun.
    by injection Hrun as <-.
Qed.

(** X21.  A legal play clicked by the follower in turn changes nothing
    on the follower but the messages sent: one move request with the id
    of the card (and the picked colour, for a wild card) goes out, and
    after a wild card the colour picker still holds the card.  On the
    other side the request, like a draw request or a restart request,
    changes nothing at all: the listener that the authority's
    ['connection'] callback put on the connection returns the component
    as it was. *)
Theorem follower_request_unanswered card index c (f : App) me top :
  isClient f = true -> connected f = true -> pendingWildCard f = None ->
  status (gameState f) = PLAYING ->
  currentPlayerIndex (gameState f) = 1 ->
  nthZ (players (gameState f)) 1 = Some me ->
  nthZ (hand me) index = Some card ->
  NoDup (card_id <$> hand me) ->
  last (discardPile (gameState f)) = Some top ->
  isValidMove card top (currentColor (gameState f)) = true ->
  let request :=
    if decide (color card = BLACK)
    then handleHumanPlay card index;; handleColorPick c
    else handleHumanPlay card index in
  let chosen := if decide (color card = BLACK) then Some c else None in
  exists f',
    request f = Some (tt, f') /\
    gameState f' = gameState f /\
    sent f' = sent f ++ [PLAYER_MOVE (card_id card) chosen] /\
    pendingWildCard f' = (if decide (color card = BLACK) then Some card else None) /\
    forall (l l' : Lobby) listener (h : App),
      rtc lobbyStep mountedLobby l ->
      onConnection l = Some (listener, l') ->
      listener (PLAYER_MOVE (card_id card) chosen) h = Some (tt, h) /\
      listener PLAYER_DRAW h = Some (tt, h) /\
      listener RESTART_REQUEST h = Some (tt, h).
Proof.
  intros Hc Hconn Hpend Hst Hcur Hme Hcard Hnd Htop Hvalid request chosen.
  assert (Hturn : isMyTurn f = true).
  { unfold isMyTurn, isClient in *. rewrite Hcur.
    apply andb_prop in Hc as [-> ->]. cbn. by rewrite orb_true_r. }
  assert (Hplay : handleHumanPlay card index f =
            if decide (color card = BLACK)
            then Some (tt, with_pendingWildCard f (Some card))
            else finalizeMove card index None None f).
  { unfold handleHumanPlay. hsimpl. rewrite bool_decide_eq_true_2 by done.
    cbn [negb]. rewrite Hturn. cbn [negb]. rewrite Htop.
    unfold isValidMoveAt. hsimpl. rewrite Hvalid. cbn [negb].
    by destruct (decide _). }
  assert (Hidle : forall (l l' : Lobby) listener (h : App),
    rtc lobbyStep mountedLobby l ->
    onConnection l = Some (listener, l') ->
    listener (PLAYER_MOVE (card_id card) chosen) h = Some (tt, h) /\
    listener PLAYER_DRAW h = Some (tt, h) /\
    listener RESTART_REQUEST h = Some (tt, h)).
  { intros l l' listener h Hreach Hcb.
    split_and!; by apply (authority_listener_idle l l'). }
  unfold request, chosen in *.
  destruct (decide (color card = BLACK)) as [Hblack | Hcol].
  - rewrite (bind_run _ _ _ _ _ Hplay).
    rewrite handleColorPick_unfold.
    cbn [pendingWildCard with_pendingWildCard gameState].
    assert (Hc1 : isClient (with_pendingWildCard f (Some card)) = true)
      by exact Hc.
    assert (Hseat : pickerSeat (with_pendingWildCard f (Some card)) = 1)
      by (unfold pickerSeat; by rewrite Hc1).
    rewrite Hseat, Hme. cbn zeta.
    rewrite (findIndex_by_id (hand me) index card Hnd Hcard).
    apply nthZ_lt in Hcard as Hrange.
    destruct (decide (index = -1)); [lia |].
    rewrite finalizeMove_client by done.
    cbn [connected with_pendingWildCard]. rewrite Hconn.
    eexists. split; [reflexivity |]. cbn.
    split_and!; try done.
  - rewrite Hplay. rewrite finalizeMove_client by done. rewrite Hconn.
    eexists. split; [reflexivity |]. cbn.
    split_and!; try done.
Qed.

End SyncFacts.

(** ** What every play and draw keeps *)

Lemma keepsTable_refl (s : GameState) : keepsTable s s.
Proof. unfold keepsTable. tauto. Qed.

Lemma keepsTable_trans (s1 s2 s3 : GameState) :
  keepsTable s1 s2 -> keepsTable s2 s3 -> keepsTable s1 s3.
Proof.
  intros (Hr1 & Hs1 & Hp1 & Hplay1) (Hr2 & Hs2 & Hp2 & Hplay2).
  split; [congruence |]. split; [tauto |]. split; [tauto |].
  intros Hst. destruct (Hplay2 Hst) as (Hst2 & Hsc2 & Hag2).
  destruct (Hplay1 Hst2) as (Hst1 & Hsc1 & Hag1).
  split; [done |]. split; [congruence | tauto].
Qed.

Lemma seated_ext (s s' : GameState) :
  roster s' = roster s ->
  currentPlayerIndex s' = currentPlayerIndex s ->
  direction s' = direction s ->
  seated s -> seated s'.
Proof.
  intros Hr Hc Hd. unfold seated. rewrite Hc, Hd.
  apply (f_equal length) in Hr. unfold roster in Hr. rewrite !length_map in Hr.
  by rewrite Hr.
Qed.

(** A step that leaves the seats, the top card, the status, the colour
    and the scores alone keeps the table. *)
Lemma keepsTable_fields (s s' : GameState) :
  roster s' = roster s ->
  scores s' = scores s ->
  currentPlayerIndex s' = currentPlayerIndex s ->
  direction s' = direction s ->
  last (discardPile s') = last (discardPile s) ->
  status s' = status s ->
  currentColor s' = currentColor s ->
  keepsTable s s'.
Proof.
  intros Hr Hsc Hc Hd Hl Hst Hcol.
  split; [done |]. split; [by apply seated_ext |].
  split; [rewrite <- !last_is_Some; by rewrite Hl; rewrite ?Hl |].
  intros Hplay. split; [congruence |]. split; [done |].
  unfold topColourAgrees. by rewrite Hl, Hcol.
Qed.

Lemma insert_same_seat (ps : list Player) (k : nat) (p q : Player) :
  ps !! k = Some p ->
  identity q = identity p ->
  map identity (<[k := q]> ps) = map identity ps.
Proof.
  intros Hp Hq. rewrite list_fmap_insert, Hq.
  apply list_insert_id. by rewrite list_lookup_fmap, Hp.
Qed.

Lemma insert_same_score (ps : list Player) (k : nat) (p q : Player) :
  ps !! k = Some p ->
  score q = score p ->
  map score (<[k := q]> ps) = map score ps.
Proof.
  intros Hp Hq. rewrite list_fmap_insert, Hq.
  apply list_insert_id. by rewrite list_lookup_fmap, Hp.
Qed.

Section TableFacts.
Context `{ArraySort}.

Lemma drawCards_seats (i n : Z) (s s' : GameState) (a a' : App) :
  drawCards i n s a = Some (s', a') ->
  roster s' = roster s /\ scores s' = scores s.
Proof.
  intros Hrun.
  destruct (drawCards_shape i n s a)
    as (avail & pile & r' & _ & _ & _ & _ & _ & Heq).
  rewrite Hrun in Heq. cbn zeta in Heq. unfold roster, scores.
  destruct (decide _).
  - destruct (nthZ (players s) i) as [p |] eqn:Hp; [| done].
    injection Heq as -> ->. apply nthZ_Some in Hp as [_ Hp].
    cbn [players with_discardPile with_players].
    by rewrite (insert_same_seat _ _ p), (insert_same_score _ _ p).
  - by injection Heq as -> ->.
Qed.

Lemma drawCards_table (i n : Z) (s s' : GameState) (a a' : App) :
  drawCards i n s a = Some (s', a') -> keepsTable s s'.
Proof.
  intros Hrun.
  destruct (drawCards_seats _ _ _ _ _ _ Hrun) as [Hr Hsc].
  destruct (drawCards_top _ _ _ _ _ _ Hrun) as [Hl _].
  destruct (drawCards_rest _ _ _ _ _ _ Hrun) as (Hf & _).
  injection Hf as Hc Hd Hst _ Hcol _ _ _ _.
  by apply keepsTable_fields.
Qed.

Lemma advance_table (s : GameState) :
  keepsTable s (with_currentPlayerIndex s (victimOf s)).
Proof.
  split; [done |]. split.
  { intros [Hin Hsign]. split; [| done].
    cbn [currentPlayerIndex players with_currentPlayerIndex].
    by apply victimOf_range. }
  split; [done |]. intros Hst. done.
Qed.

Lemma nextTurn_table (s s' : GameState) (a a' : App) :
  nextTurn s a = Some (s', a') -> keepsTable s s'.
Proof. rewrite nextTurn_run. intros [= <- _]. apply advance_table. Qed.

Lemma comment_table (s : GameState) (c : string) :
  keepsTable s (with_aiComment s c).
Proof. by apply keepsTable_fields. Qed.

(** The effect of a card keeps the seats and the scores. *)
Lemma handleCardEffect_seats (card : Card) (s s' : GameState) (a a' : App) :
  handleCardEffect card s a = Some (s', a') ->
  roster s' = roster s /\ scores s' = scores s /\ (seated s -> seated s').
Proof.
  unfold handleCardEffect. rewrite handleCardEffect_recolor.
  destruct (recolor_fields card s) as [Hf _].
  injection Hf as _ _ Hpl Hcur Hdir _.
  assert (H0 : roster (recolor card s) = roster s /\
               scores (recolor card s) = scores s /\
               (seated s -> seated (recolor card s))).
  { unfold roster, scores, seated. by rewrite Hpl, Hcur, Hdir. }
  destruct H0 as (Hr0 & Hsc0 & Hseat0).
  assert (Hnext' : forall st a0,
    roster st = roster s -> scores st = scores s -> (seated s -> seated st) ->
    nextTurn st a0 = Some (s', a') ->
    roster s' = roster s /\ scores s' = scores s /\ (seated s -> seated s')).
  { intros st a0 Hr Hsc Hseat Hn. rewrite nextTurn_run in Hn.
    injection Hn as <- _.
    destruct (advance_table st) as (Hr' & Hs' & _).
    split; [congruence |]. split; [done | tauto]. }
  assert (Hdraw : forall n,
    (drawCards (victimOf (recolor card s)) n (recolor card s) ≫= nextTurn) a
      = Some (s', a') ->
    roster s' = roster s /\ scores s' = scores s /\ (seated s -> seated s')).
  { intros n (s1 & a1 & Hd & Hn)%bind_Some.
    destruct (drawCards_seats _ _ _ _ _ _ Hd) as [Hr1 Hsc1].
    destruct (drawCards_table _ _ _ _ _ _ Hd) as (_ & Hseat1 & _).
    apply (Hnext' s1 a1); [congruence | congruence | tauto | done]. }
  destruct (type card); try apply Hdraw; try (by apply Hnext').
  - by intros [= <- _].
  - destruct (decide _); [by apply Hnext' |].
    intros [= <- _]. split; [done |]. split; [done |].
    intros Hseat. destruct (Hseat0 Hseat) as [Hin Hsign]. split; [done |].
    cbn [direction with_direction]. lia.
  - by intros [= <- _].
Qed.

Lemma afterPlay_seats card index w s p :
  nthZ (players s) (currentPlayerIndex s) = Some p ->
  roster (afterPlay card index w s p) = roster s /\
  scores (afterPlay card index w s p) = scores s.
Proof.
  intros [_ Hp]%nthZ_Some. unfold roster, scores.
  rewrite afterPlay_players.
  by rewrite (insert_same_seat _ _ p), (insert_same_score _ _ p).
Qed.

Lemma afterPlay_status card index w s p :
  status (afterPlay card index w s p) = status s.
Proof. unfold afterPlay. destruct w; [destruct (decide _) |]; done. Qed.

(** A play on the side that plays for real keeps the table. *)
Lemma finalizeMove_table card index w ov (a a' : App) :
  isClient a = false ->
  finalizeMove card index w ov a = Some (tt, a') ->
  keepsTable (default (gameState a) ov) (gameState a').
Proof.
  intros Hc Hrun.
  destruct (finalizeMove_player _ _ _ _ _ _ Hc Hrun) as [p Hp].
  set (s := default (gameState a) ov) in *.
  destruct (afterPlay_seats card index w s p Hp) as [Hr1 Hsc1].
  destruct (decide (spliceOne (hand p) index = [])) as [Hempty | Hne].
  - rewrite (finalizeMove_unfold card index w ov a p Hc Hp) in Hrun. fold s in Hrun.
    apply bind_Some in Hrun as (st1 & a1 & Hmc & Hrun).
    apply moveComment_inv in Hmc as (c & r & -> & ->).
    rewrite Hempty in Hrun. cbn [hand with_hand length] in Hrun.
    destruct (decide (0%nat = 0%nat)) as [_ | ?]; [| done].
    match type of Hrun with
    | roundWon ?m ?h ?pl ?idx ?st ?a0 = _ =>
        destruct (roundWon_run m h pl idx st a0)
          as (a'' & Hrun' & _ & Hdp & Hpl & Hcur & Hdir & _ & _ & Hst & _)
    end.
    rewrite Hrun' in Hrun. injection Hrun as <-.
    cbn [players discardPile currentPlayerIndex direction with_aiComment
         score with_hand] in *.
    rewrite afterPlay_players, list_insert_insert_eq in Hpl.
    rewrite afterPlay_discardPile in Hdp.
    rewrite afterPlay_currentPlayerIndex in Hcur.
    rewrite afterPlay_direction in Hdir.
    apply nthZ_Some in Hp as [_ Hp].
    assert (Hr : roster (gameState a'') = roster s).
    { unfold roster. rewrite Hpl. by apply (insert_same_seat _ _ p). }
    split; [done |]. split; [by apply seated_ext |].
    split; [intros _; rewrite Hdp; by destruct (discardPile s) |].
    intros Hplay. rewrite Hplay in Hst. by destruct (bool_decide _).
  - destruct (finalizeMove_continue_inv card index w ov a a' p Hc Hp Hne Hrun)
      as (c & r & st2 & a2 & Heff & Hg & _).
    fold s in Heff.
    set (st1 := with_aiComment (afterPlay card index w s p) c) in *.
    destruct (handleCardEffect_seats _ _ _ _ _ Heff) as (Hr2 & Hsc2 & Hseat2).
    destruct (handleCardEffect_keeps _ _ _ _ _ Heff) as (Hst2 & Hcol2 & Hl2 & _).
    destruct (advance_table st2) as (Hr3 & Hseat3 & _).
    rewrite <- Hg in Hr3, Hseat3.
    assert (Hlast : last (discardPile (gameState a')) = Some card).
    { rewrite Hg. cbn [discardPile with_currentPlayerIndex]. rewrite Hl2.
      unfold st1. cbn [discardPile with_aiComment].
      by rewrite afterPlay_discardPile, last_snoc. }
    assert (Hr0 : roster st1 = roster s) by exact Hr1.
    assert (Hsc0 : scores st1 = scores s) by exact Hsc1.
    split; [congruence |].
    split.
    { intros Hseat. apply Hseat3, Hseat2.
      revert Hseat. apply seated_ext; [done | |];
        unfold st1; cbn [currentPlayerIndex direction with_aiComment];
        [apply afterPlay_currentPlayerIndex | apply afterPlay_direction]. }
    split; [intros _ Hnil; by rewrite Hnil in Hlast |].
    intros Hplay.
    assert (Hst : status (gameState a') = status s).
    { rewrite Hg. cbn [status with_currentPlayerIndex]. rewrite Hst2.
      unfold st1. cbn [status with_aiComment]. apply afterPlay_status. }
    split; [congruence |].
    split.
    { rewrite Hg. change (scores (with_currentPlayerIndex st2 (victimOf st2)))
        with (scores st2). congruence. }
    intros _. exists card. split; [done |]. intros Hcol.
    rewrite Hg. cbn [currentColor with_currentPlayerIndex]. rewrite Hcol2.
    destruct (recolor_fields card st1) as [_ ->].
    by destruct (decide (color card = BLACK)).
Qed.

Lemma move_table card index w ov (a a' : App) :
  finalizeMove card index w ov a = Some (tt, a') ->
  gameState a' = gameState a \/
  keepsTable (default (gameState a) ov) (gameState a').
Proof.
  intros Hrun. destruct (isClient a) eqn:Hc.
  - left. by apply client_request in Hrun as [? _].
  - right. by eapply finalizeMove_table.
Qed.

Lemma handleHumanDraw_table (a a' : App) :
  handleHumanDraw a = Some (tt, a') ->
  keepsTable (gameState a) (gameState a').
Proof.
  unfold handleHumanDraw. intros Hrun.
  apply bind_Some in Hrun as (gs & a0 & [= <- <-] & Hrun).
  destruct (negb _); [injection Hrun as <-; apply keepsTable_refl |].
  apply bind_Some in Hrun as (turn & a0 & [= <- <-] & Hrun).
  destruct (negb _); [injection Hrun as <-; apply keepsTable_refl |].
  apply bind_Some in Hrun as (mode & a0 & [= <- <-] & Hrun).
  apply bind_Some in Hrun as (host & a0 & [= <- <-] & Hrun).
  destruct (_ && _).
  { hsimpl_in Hrun. injection Hrun as <-.
    destruct (connected a); apply keepsTable_refl. }
  apply bind_Some in Hrun as (s1 & a1 & Hdraw & Hrun).
  apply bind_Some in Hrun as (s2 & a2 & Hcomment & Hrun).
  apply bind_Some in Hrun as (s3 & a3 & Hnext & Hrun).
  destruct (store_run s3 (bool_decide (gameMode a = ONLINE) && isHost a)
              (STATE_UPDATE s3) a3) as (a4 & Hstore & Hg).
  rewrite Hstore in Hrun. injection Hrun as <-. rewrite Hg.
  apply (keepsTable_trans _ s1); [by eapply drawCards_table |].
  apply (keepsTable_trans _ s2); [| by eapply nextTurn_table].
  destruct (bool_decide _).
  - apply bind_Some in Hcomment as (w & a5 & _ & Hcomment).
    apply bind_Some in Hcomment as (o & a6 & _ & Hcomment).
    injection Hcomment as <- _. apply comment_table.
  - apply bind_Some in Hcomment as (q & a5 & _ & Hcomment).
    injection Hcomment as <- _. apply comment_table.
Qed.

Lemma handleMultiplayerDraw_table (i : Z) (a a' : App) :
  handleMultiplayerDraw i a = Some (tt, a') ->
  keepsTable (gameState a) (gameState a').
Proof.
  unfold handleMultiplayerDraw. intros Hrun.
  apply bind_Some in Hrun as (gs & a0 & [= <- <-] & Hrun).
  apply bind_Some in Hrun as (s1 & a1 & Hdraw & Hrun).
  apply bind_Some in Hrun as (s3 & a3 & Hnext & Hrun).
  destruct (store_send_run s3 (STATE_UPDATE s3) a3) as (a4 & Hstore & Hg).
  rewrite Hstore in Hrun. injection Hrun as <-. rewrite Hg.
  apply (keepsTable_trans _ s1); [by eapply drawCards_table |].
  eapply keepsTable_trans; [apply comment_table | by eapply nextTurn_table].
Qed.

Lemma handleAiDraw_table (a a' : App) :
  handleAiDraw a = Some (tt, a') ->
  keepsTable (gameState a) (gameState a').
Proof.
  unfold handleAiDraw. intros Hrun.
  apply bind_Some in Hrun as (gs & a0 & [= <- <-] & Hrun).
  apply bind_Some in Hrun as (s1 & a1 & Hdraw & Hrun).
  apply bind_Some in Hrun as (pl & a0 & [Hpl ->]%defined_Some & Hrun).
  apply bind_Some in Hrun as (drawnCard & a0 & [Hcard ->]%defined_Some & Hrun).
  apply bind_Some in Hrun as (valid & a2 & Hvalid & Hrun).
  apply isValidMoveAt_inv in Hvalid as ->.
  apply bind_Some in Hrun as (w & a0 & [= <- <-] & Hrun).
  pose proof (drawCards_table _ _ _ _ _ _ Hdraw) as Hkeep.
  destruct (drawCards_currentPlayerIndex _ _ _ _ _ _ Hdraw) as [_ Hgs].
  destruct valid.
  - apply bind_Some in Hrun as (o & a3 & Hreact & Hrun).
    apply getRandom_inv in Hreact as Hgs3.
    apply move_table in Hrun as [Hsame | Htable].
    + rewrite Hsame, Hgs3, Hgs. apply keepsTable_refl.
    + cbn [default from_option id] in Htable.
      apply (keepsTable_trans _ s1); [done |].
      eapply keepsTable_trans; [apply comment_table | exact Htable].
  - apply bind_Some in Hrun as (o & a3 & Hreact & Hrun).
    apply bind_Some in Hrun as (s3 & a4 & Hnext & Hrun).
    hsimpl_in Hrun. injection Hrun as <-.
    cbn [gameState with_gameState].
    apply (keepsTable_trans _ s1); [done |].
    eapply keepsTable_trans; [apply comment_table | by eapply nextTurn_table].
Qed.

(** Every action keeps the table. *)
Lemma perform_table (act : Action) (a a' : App) :
  perform act a = Some (tt, a') ->
  keepsTable (gameState a) (gameState a').
Proof.
  destruct act as [index w | | i | | i n]; simpl.
  - intros Hrun.
    apply bind_Some in Hrun as (gs & a0 & [= <- <-] & Hrun).
    apply bind_Some in Hrun as (pl & a0 & [Hpl ->]%defined_Some & Hrun).
    apply bind_Some in Hrun as (card & a0 & [Hcard ->]%defined_Some & Hrun).
    apply move_table in Hrun as [-> | Htable]; [apply keepsTable_refl | done].
  - apply handleHumanDraw_table.
  - apply handleMultiplayerDraw_table.
  - apply handleAiDraw_table.
  - intros Hrun.
    apply bind_Some in Hrun as (gs & a0 & [= <- <-] & Hrun).
    apply bind_Some in Hrun as (s1 & a1 & Hdraw & Hrun).
    hsimpl_in Hrun. injection Hrun as <-. cbn [gameState with_gameState].
    by eapply drawCards_table.
Qed.

Lemma steps_table (a a' : App) :
  rtc step a a' -> keepsTable (gameState a) (gameState a').
Proof.
  induction 1 as [| a b c [act Hstep] _ IH]; [apply keepsTable_refl |].
  eapply keepsTable_trans; [by eapply perform_table | exact IH].
Qed.

(** X23.  From a round set up with the start player inside the table,
    every sequence of plays and draws leads to a state in which the
    pointer is inside the table, the direction is 1 or -1, the same
    players sit in the same seats, and the discard pile is not empty. *)
Theorem table_is_stable (cfg : list Player) (start : Z) (a0 : App) :
  0 <= start < Z.of_nat (length cfg) ->
  exists a1,
    setupRound cfg start a0 = Some (tt, a1) /\
    forall a2,
      rtc step a1 a2 ->
      seated (gameState a2) /\
      roster (gameState a2) = map identity cfg /\
      discardPile (gameState a2) <> [].
Proof.
  intros Hstart.
  destruct (setupRound_shape cfg start a0)
    as (dk & c & ps & r' & note & Hrun & _ & _ & Hroster & _).
  eexists. split; [exact Hrun |].
  intros a2 Hsteps. apply steps_table in Hsteps as (Hr & Hseat & Hpile & _).
  cbn [gameState with_gameState] in *.
  assert (Hps : map identity ps = map identity cfg).
  { clear -Hroster. induction Hroster as [| q p cfg ps Hp _ IH]; [done |].
    simpl. rewrite IH, Hp. done. }
  split.
  { apply Hseat. split; [| by left].
    cbn [currentPlayerIndex players]. apply (f_equal length) in Hps.
    rewrite !length_map in Hps. lia. }
  split; [by rewrite Hr |].
  by apply Hpile.
Qed.

(** X24.  From a round as [setupRound] leaves it, for as long as the
    status is still [PLAYING] after any sequence of plays and draws, the
    scores are those of the configuration, and the pile has a top card
    whose colour, unless it is a wild card, is the active colour. *)
Theorem playing_state_agrees (cfg : list Player) (start : Z) (a0 : App) :
  exists a1,
    setupRound cfg start a0 = Some (tt, a1) /\
    forall a2,
      rtc step a1 a2 ->
      status (gameState a2) = PLAYING ->
      scores (gameState a2) = map score cfg /\
      topColourAgrees (gameState a2).
Proof.
  destruct (setupRound_shape cfg start a0)
    as (dk & c & ps & r' & note & Hrun & _ & _ & Hroster & _).
  eexists. split; [exact Hrun |].
  intros a2 Hsteps Hplay.
  apply steps_table in Hsteps as (_ & _ & _ & Hplaying).
  destruct (Hplaying Hplay) as (_ & Hsc & Hagree).
  cbn [gameState with_gameState] in *.
  split.
  - rewrite Hsc. unfold scores. cbn [players].
    clear -Hroster. induction Hroster as [| q p cfg ps Hp _ IH]; [done |].
    simpl. rewrite IH, Hp. done.
  - apply Hagree. exists c. split; [done |]. cbn [currentColor].
    by destruct (decide (color c = BLACK)).
Qed.

End TableFacts.

(** ** The fallback strategy of the computer opponent *)

Lemma nthZ_cons {A} (x : A) (l : list A) (k : Z) :
  nthZ (x :: l) k = if decide (k = 0) then Some x else nthZ l (k - 1).
Proof.
  unfold nthZ. destruct (decide (k = 0)) as [-> | Hk]; [done |].
  destruct (decide (0 <= k)), (decide (0 <= k - 1)); try lia; try done.
  replace (Z.to_nat k) with (S (Z.to_nat (k - 1))) by lia. done.
Qed.

Lemma validMovesFrom_top (i : Z) (h : list Card) (t : Card) (cc : CardColor) :
  exists vm,
    validMovesFrom i h (Some t) cc = Some vm /\
    StronglySorted byIndex vm /\
    forall c j, (c, j) ∈ vm <->
                i <= j /\ nthZ h (j - i) = Some c /\ isValidMove c t cc = true.
Proof.
  revert i. induction h as [| c0 h IH]; intros i.
  - exists []. split; [done |]. split; [constructor |].
    intros c j. rewrite elem_of_nil. split; [done |].
    intros (_ & Hx & _). unfold nthZ in Hx. by destruct (decide _).
  - destruct (IH (i + 1)) as (vm & Hrun & Hsorted & Hmem).
    assert (Hin : forall c j,
      i <= j /\ nthZ (c0 :: h) (j - i) = Some c /\ isValidMove c t cc = true <->
      (j = i /\ c = c0 /\ isValidMove c0 t cc = true) \/ (c, j) ∈ vm).
    { intros c j. rewrite Hmem, nthZ_cons.
      replace (j - (i + 1)) with (j - i - 1) by lia.
      destruct (decide (j - i = 0)); split.
      - intros (? & [= <-] & ?). left. split; [lia | done].
      - intros [(-> & -> & ?) | (? & _)]; [| lia]. done.
      - intros (? & ? & ?). right. split; [lia | done].
      - intros [(-> & _) | (? & ? & ?)]; [lia |]. split; [lia | done]. }
    simpl. rewrite Hrun. simpl.
    destruct (isValidMove c0 t cc) eqn:Hv.
    + exists ((c0, i) :: vm). split; [done |]. split.
      * constructor; [done |]. apply Forall_forall. intros [c j] Hcj.
        apply Hmem in Hcj as (? & _). unfold byIndex. simpl. lia.
      * intros c j. rewrite Hin, elem_of_cons.
        split; (intros [Hx | Hx]; [left | by right]).
        -- by injection Hx as -> ->.
        -- by destruct Hx as (-> & -> & _).
    + exists vm. split; [done |]. split; [done |].
      intros c j. rewrite Hin.
      split; [by right | intros [(_ & _ & Hx) | Hx]; [congruence | done]].
Qed.

Lemma insertMove_head (w : WittinessLevel) (m : Card * Z) (l : list (Card * Z)) :
  head (insertMove w m l) =
  match head l with
  | Some m' => if decide (getScore w m'.1 <= getScore w m.1) then Some m else Some m'
  | None => Some m
  end.
Proof. destruct l as [| m' l]; [done |]. simpl. by destruct (decide _). Qed.

(** The head of the sorted moves: a move of the list with the highest
    score, and among those the one with the least index. *)
Lemma sortMoves_head (w : WittinessLevel) (l : list (Card * Z)) :
  StronglySorted byIndex l ->
  match head (sortMoves w l) with
  | None => l = []
  | Some m =>
      m ∈ l /\
      forall y, y ∈ l ->
        getScore w y.1 <= getScore w m.1 /\
        (getScore w y.1 = getScore w m.1 -> m.2 <= y.2)
  end.
Proof.
  induction 1 as [| x l Hl IH Hx]; [done |].
  change (sortMoves w (x :: l)) with (insertMove w x (sortMoves w l)).
  rewrite insertMove_head. rewrite Forall_forall in Hx.
  destruct (head (sortMoves w l)) as [m' |].
  - destruct IH as [Hm' Hbest].
    destruct (decide _) as [Hle | Hgt].
    + split; [by left |]. intros y [-> | Hy]%elem_of_cons; [lia |].
      destruct (Hbest y Hy) as [Hs _]. specialize (Hx y Hy). unfold byIndex in Hx.
      lia.
    + split; [by right |]. intros y [-> | Hy]%elem_of_cons; [lia |].
      by apply Hbest.
  - subst l. split; [by left |]. intros y [-> | Hy]%elem_of_cons; [lia |].
    by apply elem_of_nil in Hy.
Qed.

Lemma canPlayAny_nthZ (h : list Card) (t : Card) (cc : CardColor) :
  canPlayAny h t cc = true <->
  exists j c, nthZ h j = Some c /\ isValidMove c t cc = true.
Proof.
  unfold canPlayAny. rewrite existsb_exists. split.
  - intros (c & Hc & Hv). apply list_elem_of_In, list_elem_of_lookup in Hc as [k Hk].
    exists (Z.of_nat k), c. split; [| done]. apply nthZ_Some.
    split; [lia |]. by rewrite Nat2Z.id.
  - intros (j & c & [_ Hc]%nthZ_Some & Hv). exists c. split; [| done].
    apply list_elem_of_In. by eapply list_elem_of_lookup_2.
Qed.

(** X25.  The fallback strategy on a pile with a top card always
    answers.  It draws exactly when [canPlayAny] says no.  Otherwise it
    plays a card of the hand that passes [isValidMove], of the highest
    strategy score among such cards and the first of them in the hand;
    for a wild card it names the colour [mostHeldColor] of the hand, for a
    coloured card none. *)
Theorem fallbackMove_picks_best_legal (h : list Card) (t : Card) (cc : CardColor)
  (w : WittinessLevel) :
  exists r,
    fallbackMove h (Some t) cc w = Some r /\
    (canPlayAny h t cc = false ->
     action r = DrawCard /\ cardIndex r = None /\ wildColor r = None) /\
    (canPlayAny h t cc = true ->
     action r = PlayCard /\
     exists i card,
       cardIndex r = Some i /\
       nthZ h i = Some card /\
       isValidMove card t cc = true /\
       wildColor r =
         (if decide (color card = BLACK) then Some (mostHeldColor h) else None) /\
       forall j c,
         nthZ h j = Some c -> isValidMove c t cc = true ->
         getScore w c <= getScore w card /\
         (getScore w c = getScore w card -> i <= j)).
Proof.
  destruct (validMovesFrom_top 0 h t cc) as (vm & Hrun & Hsorted & Hmem).
  unfold fallbackMove. rewrite Hrun. simpl.
  pose proof (sortMoves_head w vm Hsorted) as Hhead.
  destruct (decide (0 < length vm)%nat) as [Hpos | Hzero].
  - destruct (head (sortMoves w vm)) as [[card i] |]; [| subst vm; simpl in Hpos; lia].
    destruct Hhead as [Hin Hbest]. simpl.
    apply Hmem in Hin as (Hi & Hcard & Hvalid). rewrite Z.sub_0_r in Hcard.
    eexists. split; [reflexivity |]. simpl. split.
    { intros Hno. assert (Hyes : canPlayAny h t cc = true)
        by (apply canPlayAny_nthZ; by exists i, card).
      congruence. }
    intros _. split; [done |]. exists i, card.
    split; [done |]. split; [done |]. split; [done |]. split; [done |].
    intros j c Hc Hv.
    apply (Hbest (c, j)). apply Hmem. rewrite Z.sub_0_r.
    split; [by apply nthZ_lt in Hc as [? _] | done].
  - assert (vm = []) as -> by (destruct vm; [done | simpl in Hzero; lia]).
    eexists. split; [reflexivity |]. simpl. split; [done |].
    intros (j & c & Hc & Hv)%canPlayAny_nthZ.
    assert (Hin : (c, j) ∈ @nil (Card * Z)).
    { apply Hmem. rewrite Z.sub_0_r.
      split; [by apply nthZ_lt in Hc as [? _] | done]. }
    by apply elem_of_nil in Hin.
Qed.

Lemma validMovesFrom_none (i : Z) (h : list Card) (cc : CardColor) :
  validMovesFrom i h None cc = None <->
  exists c, c ∈ h /\ color c <> BLACK /\ color c <> cc.
Proof.
  revert i. induction h as [| c0 h IH]; intros i.
  - simpl. split; [done |]. intros (c & Hc & _). by apply elem_of_nil in Hc.
  - cbn [validMovesFrom]. unfold isValidMoveOn.
    destruct (decide (color c0 = BLACK)) as [Hb | Hb];
      [| destruct (decide (color c0 = cc)) as [Hc | Hc]]; simpl.
    + destruct (validMovesFrom (i + 1) h None cc) eqn:Hrest; simpl.
      * split; [done |]. intros (c & [-> | Hin]%elem_of_cons & Hx); [tauto |].
        assert (Hnone : validMovesFrom (i + 1) h None cc = None)
          by (apply IH; by exists c).
        congruence.
      * split; [| done]. intros _. destruct (proj1 (IH (i + 1)) Hrest) as (c & ? & ?).
        exists c. split; [by right | done].
    + destruct (validMovesFrom (i + 1) h None cc) eqn:Hrest; simpl.
      * split; [done |]. intros (c & [-> | Hin]%elem_of_cons & Hx); [tauto |].
        assert (Hnone : validMovesFrom (i + 1) h None cc = None)
          by (apply IH; by exists c).
        congruence.
      * split; [| done]. intros _. destruct (proj1 (IH (i + 1)) Hrest) as (c & ? & ?).
        exists c. split; [by right | done].
    + split; [| done]. intros _. exists c0. split; [by left | done].
Qed.

(** X26.  With no card on the pile the fallback strategy fails with a
    [TypeError] exactly when the hand holds a coloured card that is not of
    the active colour; otherwise every card of the hand is playable, and
    it plays unless the hand is empty. *)
Theorem fallbackMove_empty_pile (h : list Card) (cc : CardColor) (w : WittinessLevel) :
  (fallbackMove h None cc w = None <->
   exists c, c ∈ h /\ color c <> BLACK /\ color c <> cc) /\
  (forall r, fallbackMove h None cc w = Some r ->
     match h with
     | [] => action r = DrawCard
     | _ :: _ => action r = PlayCard
     end).
Proof.
  split.
  - rewrite <- (validMovesFrom_none 0). unfold fallbackMove.
    destruct (validMovesFrom 0 h None cc) as [vm |] eqn:Hvm; simpl; [| done].
    split; [| done]. destruct (decide _) as [Hpos | _]; [| done].
    destruct vm as [| m vm]; [simpl in Hpos; lia |].
    simpl. rewrite insertMove_head. destruct (head _); [destruct (decide _) |]; done.
  - intros r. unfold fallbackMove.
    destruct (validMovesFrom 0 h None cc) as [vm |] eqn:Hvm; simpl; [| done].
    assert (Hlen : length vm = length h).
    { clear -Hvm. revert vm Hvm. generalize 0. 
      induction h as [| c0 h IH]; intros i vm Hvm; cbn [validMovesFrom] in Hvm.
      - by injection Hvm as <-.
      - unfold isValidMoveOn in Hvm.
        destruct (decide (color c0 = BLACK));
          [| destruct (decide (color c0 = cc)); [| done]]; simpl in Hvm;
          destruct (validMovesFrom (i + 1) h None cc) as [vm' |] eqn:Hrest;
          try done; simpl in Hvm; injection Hvm as <-; simpl;
          by rewrite (IH _ _ Hrest). }
    destruct (decide _) as [Hpos | Hzero].
    + destruct (head _); simpl; [| done]. intros [= <-]. simpl.
      destruct h; [simpl in *; lia | done].
    + intros [= <-]. simpl. destruct h; [done | simpl in *; lia].
Qed.

Lemma reduce_most (count : CardColor -> nat) :
  let best :=
    foldl (fun best current =>
             if decide (count best < count current)%nat then current else best)
          RED COLORS in
  best ∈ COLORS /\
  (forall c, c ∈ COLORS -> (count c <= count best)%nat) /\
  (forall i j c, COLORS !! i = Some c -> COLORS !! j = Some best ->
     (i < j)%nat -> (count c < count best)%nat).
Proof.
  unfold COLORS. cbn [foldl].
  assert (Hcases : forall c, c ∈ [RED; BLUE; GREEN; YELLOW] ->
                             c = RED \/ c = BLUE \/ c = GREEN \/ c = YELLOW).
  { intros c. rewrite !elem_of_cons, elem_of_nil. tauto. }
  split; [| split].
  - repeat (destruct (decide _)); rewrite !elem_of_cons; tauto.
  - intros c [-> | [-> | [-> | ->]]]%Hcases; repeat (destruct (decide _)); lia.
  - intros i j c Hi Hj Hij.
    do 4 (try destruct i as [| i]); try done;
      do 4 (try destruct j as [| j]); try done; try lia;
      simpl in Hi, Hj; injection Hi as <-;
      repeat (destruct (decide _)); try done; lia.
Qed.

(** X27.  The colour named for a wild card is one of the four colours;
    no colour is held more often; and every colour that comes before it
    in [COLORS] is held strictly less often, so ties go to the earlier
    colour and a hand without coloured cards names red. *)
Theorem mostHeldColor_most (h : list Card) :
  mostHeldColor h ∈ COLORS /\
  (forall c, c ∈ COLORS -> (held h c <= held h (mostHeldColor h))%nat) /\
  (forall i j c, COLORS !! i = Some c -> COLORS !! j = Some (mostHeldColor h) ->
     (i < j)%nat -> (held h c < held h (mostHeldColor h))%nat).
Proof. apply (reduce_most (held h)). Qed.

(** ** Statistics *)

(** X28.  [updateStats] keeps the books consistent: when wins and
    losses add up to the matches played and the current streak is between
    0 and the best streak and at most the wins, the same holds afterwards,
    with one more match played; the best streak never goes down, a loss
    resets the current streak and leaves the best one, a win extends the
    current streak; the cards played are added to the total and the
    longest match time is the maximum of the old one and the duration. *)
Theorem updateStats_keeps_books (st : GameStats) (isWin : bool) (d : Z)
  (cards : list Card) :
  matchesWon st + matchesLost st = matchesPlayed st ->
  0 <= currentStreak st <= bestStreak st ->
  currentStreak st <= matchesWon st ->
  0 <= matchesLost st ->
  let st' := updateStats st isWin d cards in
  matchesPlayed st' = matchesPlayed st + 1 /\
  matchesWon st' + matchesLost st' = matchesPlayed st' /\
  0 <= currentStreak st' <= bestStreak st' /\
  currentStreak st' <= matchesWon st' /\
  0 <= matchesLost st' /\
  bestStreak st <= bestStreak st' /\
  (isWin = false -> currentStreak st' = 0 /\ bestStreak st' = bestStreak st) /\
  (isWin = true -> currentStreak st' = currentStreak st + 1) /\
  totalCardsPlayed st' = totalCardsPlayed st + Z.of_nat (length cards) /\
  longestMatchTime st' = Z.max (longestMatchTime st) d.
Proof.
  intros Hsum Hstreak Hwon Hlost. unfold updateStats. cbn.
  destruct isWin; cbn; repeat case_bool_decide; repeat (destruct (decide _));
    split_and!; try done; lia.
Qed.

Lemma countCard_lookup (usage : gmap string Z) (card : Card) (key : string) :
  default 0 (countCard usage card !! key) =
  default 0 (usage !! key) + (if decide (cardKey card = key) then 1 else 0).
Proof.
  unfold countCard. destruct (decide (cardKey card = key)) as [<- | Hne].
  - by rewrite lookup_insert_eq.
  - rewrite lookup_insert_ne by done. lia.
Qed.

Lemma foldl_countCard (cards : list Card) (usage : gmap string Z) (key : string) :
  default 0 (foldl countCard usage cards !! key) =
  default 0 (usage !! key) +
  Z.of_nat (length (filter (fun c => cardKey c = key) cards)).
Proof.
  revert usage. induction cards as [| c cards IH]; intros usage; simpl; [lia |].
  rewrite IH, countCard_lookup, filter_cons.
  destruct (decide (cardKey c = key)); simpl; lia.
Qed.

(** X29.  After [updateStats] the count stored under any key has grown
    by the number of played cards with that key (a key without entry
    counting as 0). *)
Theorem updateStats_counts_cards (st : GameStats) (isWin : bool) (d : Z)
  (cards : list Card) (key : string) :
  default 0 (cardUsage (updateStats st isWin d cards) !! key) =
  default 0 (cardUsage st !! key) +
  Z.of_nat (length (filter (fun c => cardKey c = key) cards)).
Proof. apply foldl_countCard. Qed.

Lemma colorName_inj (c1 c2 : CardColor) (r1 r2 : string) :
  colorName c1 +:+ "|" +:+ r1 = colorName c2 +:+ "|" +:+ r2 -> c1 = c2 /\ r1 = r2.
Proof. destruct c1, c2; simpl; intros Heq; by simplify_eq. Qed.

Lemma typeName_inj (t1 t2 : CardType) (r1 r2 : string) :
  typeName t1 +:+ "|" +:+ r1 = typeName t2 +:+ "|" +:+ r2 -> t1 = t2 /\ r1 = r2.
Proof. destruct t1, t2; simpl; intros Heq; by simplify_eq. Qed.

(** X30.  Two cards are counted under the same key exactly when they
    have the same colour and type and, unless they are wild, the same
    number, a card without number counting as 0: wild cards are grouped
    by type alone. *)
Theorem cardKey_groups (c1 c2 : Card) :
  cardKey c1 = cardKey c2 <->
  color c1 = color c2 /\ type c1 = type c2 /\
  (color c1 = BLACK \/ default 0 (value c1) = default 0 (value c2)).
Proof.
  assert (Hkey : forall c,
    cardKey c =
    colorName (color c) +:+ "|" +:+ typeName (type c) +:+ "|" +:+
    (if decide (color c = BLACK) then "0" else pretty (default 0 (value c)))).
  { intros c. unfold cardKey. destruct (decide (color c = BLACK)) as [-> |]; done. }
  rewrite !Hkey. split.
  - intros [Hc [Ht Hv]%typeName_inj]%colorName_inj.
    split; [done |]. split; [done |].
    rewrite <- Hc in Hv. destruct (decide (color c1 = BLACK)); [by left | right].
    by apply (inj pretty).
  - intros (Hc & Ht & Hv). rewrite <- Hc, <- Ht.
    destruct (decide (color c1 = BLACK)); [done |].
    destruct Hv as [? | ->]; done.
Qed.

(** * Worked examples for the further properties *)

(** A wild card and a red 5 are worth 55 points in either order. *)
Lemma calculateHandScore_split_witness :
  calculateHandScore [wildCard; redFive] =
  calculateHandScore [redFive] + calculateHandScore [wildCard].
Proof.
  apply (calculateHandScore_split [redFive] [wildCard]). simpl. apply perm_swap.
Defined.

Lemma calculateHandScore_bounds_witness :
  0 <= calculateHandScore [redFive; wildCard]
    <= 50 * Z.of_nat (length [redFive; wildCard]).
Proof.
  apply (calculateHandScore_bounds [redFive; wildCard]).
  constructor; [simpl; lia | constructor; [simpl; lia | constructor]].
Defined.

(** From seat 1 of two, clockwise, the turn passes to seat 0. *)
Lemma nextTurn_lands_inside_witness :
  exists s' a',
    nextTurn hostState hostApp = Some (s', a') /\
    0 <= currentPlayerIndex s' < Z.of_nat (length (players hostState)) /\
    s' = with_currentPlayerIndex hostState (currentPlayerIndex s').
Proof. apply (nextTurn_lands_inside hostState hostApp). simpl. lia. Defined.

Lemma nextTurn_wraps_witness :
  exists s' a',
    nextTurn hostState hostApp = Some (s', a') /\ currentPlayerIndex s' = 0.
Proof.
  destruct (nextTurn_wraps hostState hostApp) as (s' & a' & Hrun & Hmod & _);
    [split; [simpl; lia | by left] |].
  exists s', a'. split; [exact Hrun | exact Hmod].
Defined.

(** Two cards drawn from a deck of two. *)
Lemma drawCards_from_full_deck_witness :
  exists s',
    drawCards 1 2 hostState hostApp = Some (s', hostApp) /\ deck s' = [].
Proof.
  eexists. split.
  - apply (drawCards_from_full_deck 1 2 hostState hostApp
             (with_hand bob [blueSeven; mkCard "card-7" RED NUMBER (Some 4)]));
      [reflexivity | simpl; lia].
  - reflexivity.
Defined.

(** A draw of three from one card in the deck and five on the pile. *)
Lemma drawCards_frame_witness :
  exists s' a',
    drawCards 1 3 lowDeckState (sampleApp LOCAL false lowDeckState) = Some (s', a') /\
    last (discardPile s') = Some (mkCard "card-69" GREEN SKIP None) /\
    currentPlayerIndex s' = 0 /\
    nthZ (players s') 0 = nthZ (players lowDeckState) 0.
Proof.
  assert (Hrun : exists s' a',
            drawCards 1 3 lowDeckState (sampleApp LOCAL false lowDeckState)
            = Some (s', a'))
    by (eexists _, _; vm_compute; reflexivity).
  destruct Hrun as (s' & a' & Hrun). exists s', a'. split; [exact Hrun |].
  destruct (drawCards_frame 1 3 lowDeckState s' _ a' Hrun)
    as ((Htop & _) & Hf & _ & Hothers & _).
  split; [exact Htop |]. split; [by injection Hf | by apply Hothers].
Defined.

Lemma drawCards_nothing_to_draw_witness :
  drawCards 5 0 hostState hostApp = Some (hostState, hostApp).
Proof. apply (drawCards_nothing_to_draw 5 0 hostState hostApp). left. lia. Defined.

(** A red 4 played on the red 5 by the second of two players. *)
Lemma play_without_draw_witness :
  exists a',
    finalizeMove redFour 0 None None localApp = Some (tt, a') /\
    discardPile (gameState a') = [redFive; redFour] /\
    currentColor (gameState a') = RED /\
    currentPlayerIndex (gameState a') = 0.
Proof.
  destruct (play_without_draw redFour 0 None None localApp
              (with_hand bob [redFour; blueFive]))
    as (a' & Hrun & _ & Hpile & _ & _ & Hcol & Hnum & _);
    [reflexivity | split; [simpl; lia | by left] | simpl; lia | reflexivity
     | vm_compute; discriminate | discriminate | discriminate |].
  exists a'. split; [exact Hrun |]. split; [exact Hpile |]. split; [exact Hcol |].
  destruct Hnum as [Hcur _]; [by left | exact Hcur].
Defined.

(** Clicks in the lobby. *)
Lemma human_handlers_gated_witness :
  handleHumanPlay redFive 0 lobbyApp = Some (tt, lobbyApp) /\
  handleHumanDraw lobbyApp = Some (tt, lobbyApp).
Proof.
  apply (proj1 (human_handlers_gated redFive 0 lobbyApp)). left. discriminate.
Defined.

(** A wild card clicked, then blue picked. *)
Lemma wild_goes_through_picker_witness :
  handleHumanPlay wildCard 0 wildApp =
    Some (tt, with_pendingWildCard wildApp (Some wildCard)) /\
  handleColorPick BLUE (with_pendingWildCard wildApp (Some wildCard)) =
    finalizeMove wildCard 0 (Some BLUE) None
      (with_pendingWildCard wildApp (Some wildCard)).
Proof.
  apply (wild_goes_through_picker wildCard 0 BLUE wildApp
           (with_hand alice [wildCard])); try reflexivity.
  apply NoDup_singleton.
Defined.

Lemma handleColorPick_without_card_witness :
  handleColorPick RED lobbyApp = Some (tt, lobbyApp).
Proof.
  apply (proj1 (handleColorPick_without_card RED lobbyApp)). reflexivity.
Defined.

(** The follower clicks on the deck. *)
Lemma follower_only_requests_witness :
  exists a',
    handleHumanDraw followerApp = Some (tt, a') /\
    gameState a' = gameState followerApp /\
    sent a' = [PLAYER_DRAW].
Proof.
  assert (Hrun : exists a',
            handleHumanDraw followerApp = Some (tt, a') /\ sent a' = [PLAYER_DRAW])
    by (eexists; split; vm_compute; reflexivity).
  destruct Hrun as (a' & Hrun & Hsent). exists a'. split; [exact Hrun |].
  split; [| exact Hsent].
  apply (follower_only_requests redFive 0 RED None None followerApp a');
    [reflexivity | right; left; exact Hrun].
Defined.

Lemma setupRound_deals_witness :
  exists a' r',
    setupRound [alice; bob] 0 lobbyApp = Some (tt, a') /\
    freshRound [alice; bob] 0 (gameState a') /\
    a' = with_gameState (with_random lobbyApp r') (gameState a').
Proof. apply (setupRound_deals [alice; bob] 0 lobbyApp). simpl. lia. Defined.

(** The next round of a pass-and-play match that stopped at seat 1. *)
Lemma nextRound_keeps_scores_witness :
  exists a',
    nextRound localApp = Some (tt, a') /\
    scores (gameState a') = [0; 0] /\
    currentPlayerIndex (gameState a') = 0 /\
    showLocalIntermission a' = true.
Proof.
  destruct (nextRound_keeps_scores localApp)
    as (a' & start & Hrun & Hfresh & _ & Hsc & Hlocal & _);
    [discriminate | simpl; lia |].
  exists a'. split; [exact Hrun |]. split; [exact Hsc |].
  destruct Hlocal as [Hstart Hshow]; [reflexivity |].
  split; [| exact Hshow].
  destruct Hfresh as (_ & _ & _ & _ & Hcur & _). rewrite Hcur, Hstart. reflexivity.
Defined.

(** A new online match started by the host. *)
Lemma startMultiplayerMatch_host_witness :
  exists a' cfg,
    startMultiplayerMatch true hostApp = Some (tt, a') /\
    freshRound cfg 0 (gameState a') /\
    newcomers cfg /\
    sent a' = [STATE_UPDATE (gameState a')].
Proof.
  destruct (proj2 (startMultiplayerMatch_host true hostApp))
    as (a' & cfg & Hrun & Hfresh & Hcfg & Hsent); [reflexivity | simpl; lia |].
  exists a', cfg. split; [exact Hrun |]. split; [exact Hfresh |].
  split; [exact Hcfg | exact Hsent].
Defined.

(** The host plays a draw-two. *)
Lemma host_broadcasts_state_witness :
  exists h',
    finalizeMove redDrawTwo 0 None None (sampleApp ONLINE true drawTwoState)
      = Some (tt, h') /\
    sent h' = [STATE_UPDATE (gameState h')].
Proof.
  assert (Hrun : exists h',
            finalizeMove redDrawTwo 0 None None
              (sampleApp ONLINE true drawTwoState) = Some (tt, h'))
    by (eexists; vm_compute; reflexivity).
  destruct Hrun as (h' & Hrun). exists h'. split; [exact Hrun |].
  exact (proj1 (host_broadcasts_state redDrawTwo 0 None false
                  (sampleApp ONLINE true drawTwoState) h'
                  eq_refl eq_refl eq_refl (or_introl Hrun))).
Defined.

(** The follower plays the red 4 on the red 5. *)
Lemma follower_request_unanswered_witness :
  exists f' listener l',
    handleHumanPlay redFour 0 followerApp = Some (tt, f') /\
    sent f' = [PLAYER_MOVE "card-7" None] /\
    onConnection (initializePeer mountRender mountedLobby) = Some (listener, l') /\
    listener (PLAYER_MOVE "card-7" None) hostApp = Some (tt, hostApp).
Proof.
  assert (Hids : NoDup (card_id <$> [redFour; blueFive])).
  { assert (Hb : bool_decide (NoDup (card_id <$> [redFour; blueFive])) = true)
      by (vm_compute; reflexivity).
    by apply bool_decide_eq_true in Hb. }
  destruct (follower_request_unanswered redFour 0 RED followerApp
              (with_hand bob [redFour; blueFive]) redFive)
    as (f' & Hrun & _ & Hsent & _ & Hhost); try reflexivity; [exact Hids |].
  exists f'. eexists _, _. split; [exact Hrun |]. split; [exact Hsent |].
  split; [reflexivity |].
  apply (Hhost (initializePeer mountRender mountedLobby)
           (mkLobby true (Some mountRender)) (onData mountRender) hostApp);
    [| reflexivity].
  apply rtc_once. left. exists mountRender. by split.
Defined.

Lemma table_is_stable_witness :
  exists a1,
    setupRound [alice; bob] 0 lobbyApp = Some (tt, a1) /\
    forall a2,
      rtc step a1 a2 ->
      seated (gameState a2) /\
      roster (gameState a2) = map identity [alice; bob] /\
      discardPile (gameState a2) <> [].
Proof. apply (table_is_stable [alice; bob] 0 lobbyApp). simpl. lia. Defined.

(** A first match, won in 90 seconds. *)
Lemma updateStats_keeps_books_witness :
  matchesPlayed (updateStats INITIAL_STATS true 90 [redFive]) = 1 /\
  bestStreak INITIAL_STATS <= bestStreak (updateStats INITIAL_STATS true 90 [redFive]).
Proof.
  destruct (updateStats_keeps_books INITIAL_STATS true 90 [redFive])
    as (Hplayed & _ & _ & _ & _ & Hbest & _);
    [simpl; lia | simpl; lia | simpl; lia | simpl; lia |].
  split; [exact Hplayed | exact Hbest].
Defined.
